(** * query_colors_db: the dominant-colour database report

    A shallow embedding of [query_colors_db.py] and the properties of its
    report.  The script is a straight line of read-only queries and [print]
    calls inside one [try] block.  It is embedded as a computation in a small
    monad of traces and exceptions: a run yields a value or a raised
    exception, and the trace of what it did, the lines printed and the
    database calls made, in order.

    What the script gets from its environment is a [World]: what is behind
    each path of the file system, which database calls fail (a locked or
    malformed file, a missing column, ...), the local time zone, the
    interpreter's [repr] of the values whose text is not spelled out here,
    and the texts its limits keep [json.loads] from decoding.

    Conventions.
    - A Python [str] is a [string] holding its UTF-8 bytes; lengths and
      slices count code points ([py_len], [py_prefix]).
    - A Python [int] is a [Z]; a Python [float] is an IEEE 754 binary64
      value, a [spec_float] of the Standard Library at [prec = 53] and
      [emax = 1024], and the operations on it are the library's.
    - A column value is of SQLite's storage classes NULL, INTEGER or TEXT.
    - SQLite answers [GROUP BY status] in ascending order of the status, and
      [ORDER BY updated_at DESC] with the rows that compare equal in their
      storage order.
    - [json.loads] is a recursive-descent decoder of the grammar Python's
      accepts ([NaN] and [Infinity] included).  The interpreter refuses
      some texts of the grammar, an integer of more digits than it converts
      or a nesting deeper than its stack: which ones is the world's
      [json_limit].
    - Standard output is UTF-8.  A text of the database holds UTF-8, which
      [print] always writes; a text decoded from JSON can hold a lone
      surrogate, and [print] raises on it.  A lone surrogate is kept as the
      three bytes of its generalised UTF-8 form.
    - The file system does not change during a run. *)

From Stdlib Require Import ZArith List String Ascii Bool Lia.
From Stdlib Require Import SpecFloat DecimalString.
From Stdlib Require Import Sorting.Sorted Sorting.Permutation.
Import ListNotations.

Local Open Scope string_scope.
Local Open Scope Z_scope.

(** ** Exceptions *)

(** The exception classes the script can meet.  [Sqlite3Error] stands for
    [sqlite3.Error] and all its subclasses; [KeyboardInterrupt] for the
    classes that derive from [BaseException] only. *)
Inductive exn_class : Type :=
| Sqlite3Error
| TypeError
| ValueError
| JSONDecodeError
| ZeroDivisionError
| OverflowError
| OSError
| AttributeError
| KeyError
| IndexError
| RecursionError
| UnicodeEncodeError
| KeyboardInterrupt.

Record exn : Type := Exn { exn_cls : exn_class; exn_msg : string }.

(** [isinstance(e, sqlite3.Error)] *)
Definition is_sqlite_error (e : exn) : bool :=
  match exn_cls e with
  | Sqlite3Error => true
  | _ => false
  end.

(** [isinstance(e, Exception)] *)
Definition is_Exception (e : exn) : bool :=
  match exn_cls e with
  | KeyboardInterrupt => false
  | _ => true
  end.

(** The outcome of an expression or a statement: a value, or a raised
    exception. *)
Inductive result (A : Type) : Type :=
| Ok (a : A)
| Raise (e : exn).
Arguments Ok {A} a.
Arguments Raise {A} e.

(** ** Text *)

(** [str(n)] for an [int]. *)
Definition str_of_Z (z : Z) : string := NilZero.string_of_int (Z.to_int z).

Definition str_of_nat (n : nat) : string := str_of_Z (Z.of_nat n).

(** The double quote character. *)
Definition quote_char : ascii := ascii_of_nat 34.

(** [s] with a double quote in place of each apostrophe: the way the JSON
    texts of the examples are written down. *)
Fixpoint dq (s : string) : string :=
  match s with
  | EmptyString => EmptyString
  | String c rest =>
      String (if Nat.eqb (nat_of_ascii c) 39 then quote_char else c) (dq rest)
  end.

(** A byte [10xxxxxx] continues a UTF-8 encoded code point. *)
Definition is_continuation (c : ascii) : bool :=
  let n := nat_of_ascii c in (Nat.leb 128 n && Nat.ltb n 192)%bool.

(** [len(s)]: the number of code points. *)
Fixpoint py_len (s : string) : nat :=
  match s with
  | EmptyString => O
  | String c rest => if is_continuation c then py_len rest else S (py_len rest)
  end.

(** [s[:n]]: the first [n] code points. *)
Fixpoint py_prefix (n : nat) (s : string) : string :=
  match s with
  | EmptyString => EmptyString
  | String c rest =>
      if is_continuation c then String c (py_prefix n rest)
      else match n with
           | O => EmptyString
           | S n' => String c (py_prefix n' rest)
           end
  end.

(** ** Floating point *)

Module Float.

Definition prec : Z := 53.
Definition emax : Z := 1024.

Definition float : Type := spec_float.

(** [float(n)] for an [int] below the overflow threshold. *)
Definition of_int (n : Z) : float := binary_normalize prec emax n 0 false.

(** The quotient of two integers ([b <> 0]) rounded once, to nearest, ties
    to even. *)
Definition quotient (a b : Z) : float :=
  let '(q, e, l) := SFdiv_core_binary prec emax (Z.abs a) 0 (Z.abs b) 0 in
  binary_round_aux prec emax (xorb (a <? 0) (b <? 0)) q e l.

(** [a / b] for two [int]s. *)
Definition int_truediv (a b : Z) : result float :=
  if b =? 0 then Raise (Exn ZeroDivisionError "division by zero")
  else
    match quotient a b with
    | S754_infinity _ =>
        Raise (Exn OverflowError "integer division result too large for a float")
    | x => Ok x
    end.

(** [x * n] for a [float] [x] and an [int] [n]. *)
Definition mul_int (x : float) (n : Z) : float :=
  SFmul prec emax x (of_int n).

(** The integer nearest to [num / den] ([den > 0]), ties to even. *)
Definition round_half_even (num den : Z) : Z :=
  let q := num / den in
  let r := num mod den in
  match 2 * r ?= den with
  | Lt => q
  | Gt => q + 1
  | Eq => if Z.even q then q else q + 1
  end.

(** [s] padded with zeros on the left to [width] characters. *)
Definition pad_left (width : nat) (s : string) : string :=
  String.concat "" (repeat "0" (Nat.sub width (String.length s))) ++ s.

(** The text of [n / 10^digits] in fixed notation. *)
Definition fixed_text (neg : bool) (n : Z) (digits : nat) : string :=
  let scale := 10 ^ Z.of_nat digits in
  let int_part := str_of_Z (n / scale) in
  let frac_part :=
    match digits with
    | O => ""
    | S _ => "." ++ pad_left digits (str_of_Z (n mod scale))
    end in
  (if neg then "-" else "") ++ int_part ++ frac_part.

(** [format(x, '.<digits>f')]: the exact binary value rounded to [digits]
    decimals, ties to even. *)
Definition format_f (digits : nat) (x : float) : string :=
  match x with
  | S754_nan => "nan"
  | S754_infinity s => if s then "-inf" else "inf"
  | S754_zero s => fixed_text s 0 digits
  | S754_finite s m e =>
      let scale := 10 ^ Z.of_nat digits in
      let n :=
        if 0 <=? e then Z.pos m * 2 ^ e * scale
        else round_half_even (Z.pos m * scale) (2 ^ (- e)) in
      fixed_text s n digits
  end.

End Float.

(** ** The database *)

(** A column value as [sqlite3] hands it to Python: [None], an [int] or a
    [str]. *)
Inductive sqlval : Type :=
| SqlNull
| SqlInt (z : Z)
| SqlText (s : string).

(** A row of [dominant_colors], in the column order of the script's
    [SELECT]. *)
Record Row : Type := mkRow {
  file_path : sqlval;
  status : sqlval;
  created_at : sqlval;
  updated_at : sqlval;
  colors : sqlval
}.

(** A row of [PRAGMA table_info]: [(cid, name, type, ...)]. *)
Record Column : Type := mkColumn {
  col_cid : Z;
  col_name : string;
  col_type : string
}.

Record Table : Type := mkTable {
  table_name : string;
  table_columns : list Column
}.

(** [tables] is the catalogue ([sqlite_master] and the columns of each
    table); [dominant_colors] is the content of that table, [None] when the
    database has no such table. *)
Record Database : Type := mkDatabase {
  tables : list Table;
  dominant_colors : option (list Row)
}.

(** [str(v)], as an f-string field formats it. *)
Definition py_str (v : sqlval) : string :=
  match v with
  | SqlNull => "None"
  | SqlInt z => str_of_Z z
  | SqlText s => s
  end.

(** [bool(v)] *)
Definition truthy (v : sqlval) : bool :=
  match v with
  | SqlNull => false
  | SqlInt z => negb (z =? 0)
  | SqlText s => negb (String.eqb s "")
  end.

Module Sql.

(** SQLite's order on values: NULL, then numbers, then text (compared
    byte by byte). *)
Definition compare (a b : sqlval) : comparison :=
  match a, b with
  | SqlNull, SqlNull => Eq
  | SqlNull, _ => Lt
  | _, SqlNull => Gt
  | SqlInt x, SqlInt y => Z.compare x y
  | SqlInt _, SqlText _ => Lt
  | SqlText _, SqlInt _ => Gt
  | SqlText x, SqlText y => String.compare x y
  end.

Definition ltb (a b : sqlval) : bool :=
  match compare a b with Lt => true | _ => false end.

Definition leb (a b : sqlval) : bool :=
  match compare a b with Gt => false | _ => true end.

Definition eqb (a b : sqlval) : bool :=
  match compare a b with Eq => true | _ => false end.

(** [ORDER BY updated_at DESC]: rows that compare equal keep their storage
    order. *)
Fixpoint insert_desc (r : Row) (l : list Row) : list Row :=
  match l with
  | [] => [r]
  | e :: l' =>
      if ltb (updated_at r) (updated_at e) then e :: insert_desc r l'
      else r :: l
  end.

Fixpoint order_by_updated_at_desc (rows : list Row) : list Row :=
  match rows with
  | [] => []
  | r :: rs => insert_desc r (order_by_updated_at_desc rs)
  end.

(** [SELECT file_path, status, created_at, updated_at, colors
     FROM dominant_colors ORDER BY updated_at DESC LIMIT 5] *)
Definition select_recent (rows : list Row) : list Row :=
  firstn 5 (order_by_updated_at_desc rows).

(** [SELECT COUNT( * ) FROM dominant_colors] *)
Definition count_all (rows : list Row) : Z := Z.of_nat (List.length rows).

(** [SELECT COUNT( * ) FROM dominant_colors WHERE status = '<s>'] *)
Definition count_status (s : string) (rows : list Row) : Z :=
  Z.of_nat (List.length (filter (fun r => eqb (status r) (SqlText s)) rows)).

(** [SELECT status, COUNT( * ) FROM dominant_colors GROUP BY status]: one
    pair per distinct status, in ascending order of the status. *)
Fixpoint group_add (v : sqlval) (g : list (sqlval * Z)) : list (sqlval * Z) :=
  match g with
  | [] => [(v, 1)]
  | (k, c) :: g' =>
      match compare v k with
      | Eq => (k, c + 1) :: g'
      | Lt => (v, 1) :: g
      | Gt => (k, c) :: group_add v g'
      end
  end.

Definition group_by_status (rows : list Row) : list (sqlval * Z) :=
  fold_left (fun g r => group_add (status r) g) rows [].

End Sql.

(** ** Dates *)

Module Datetime.

Record datetime : Type := mkDatetime {
  year : Z; month : Z; day : Z; hour : Z; minute : Z; second : Z
}.

(** The proleptic Gregorian date of the day [days] after 1970-01-01. *)
Definition civil_from_days (days : Z) : Z * Z * Z :=
  let z := days + 719468 in
  let era := z / 146097 in
  let doe := z - era * 146097 in
  let yoe := (doe - doe / 1460 + doe / 36524 - doe / 146096) / 365 in
  let doy := doe - (365 * yoe + yoe / 4 - yoe / 100) in
  let mp := (5 * doy + 2) / 153 in
  let d := doy - (153 * mp + 2) / 5 + 1 in
  let m := if mp <? 10 then mp + 3 else mp - 9 in
  let y := yoe + era * 400 + (if m <=? 2 then 1 else 0) in
  (y, m, d).

(** [datetime.fromtimestamp(v)].  [utc_offset t] is the offset of local
    time at the instant [t], in seconds; [None] when the platform rejects
    the instant. *)
Definition fromtimestamp (utc_offset : Z -> option Z) (v : sqlval)
  : result datetime :=
  match v with
  | SqlNull =>
      Raise (Exn TypeError "'NoneType' object cannot be interpreted as an integer")
  | SqlText _ =>
      Raise (Exn TypeError "'str' object cannot be interpreted as an integer")
  | SqlInt t =>
      match utc_offset t with
      | None => Raise (Exn OverflowError "timestamp out of range for platform time_t")
      | Some off =>
          let local := t + off in
          let '(y, m, d) := civil_from_days (local / 86400) in
          let sod := local mod 86400 in
          if (1 <=? y) && (y <=? 9999) then
            Ok (mkDatetime y m d (sod / 3600) (sod mod 3600 / 60) (sod mod 60))
          else
            Raise (Exn ValueError ("year " ++ str_of_Z y ++ " is out of range"))
      end
  end.

Definition digits (width : nat) (n : Z) : string :=
  Float.pad_left width (str_of_Z n).

(** [dt.strftime('%Y-%m-%d %H:%M:%S')] *)
Definition strftime (dt : datetime) : string :=
  digits 4 (year dt) ++ "-" ++ digits 2 (month dt) ++ "-" ++ digits 2 (day dt)
  ++ " " ++ digits 2 (hour dt) ++ ":" ++ digits 2 (minute dt) ++ ":"
  ++ digits 2 (second dt).

End Datetime.

(** ** JSON *)

Module Json.

(** What [json.loads] returns: [None], [bool], [int], [float], [str],
    [list] or [dict].  A [float] is kept as the text it was read from; a
    [dict] is kept as its items in insertion order, keys distinct. *)
#[warnings="-register-all"]
Inductive json : Type :=
| JNull
| JBool (b : bool)
| JInt (z : Z)
| JFloat (lexeme : string)
| JStr (s : string)
| JList (l : list json)
| JDict (d : list (string * json)).

(** [d[k] = v] *)
Fixpoint dict_set (k : string) (v : json) (d : list (string * json))
  : list (string * json) :=
  match d with
  | [] => [(k, v)]
  | (k', v') :: d' =>
      if String.eqb k k' then (k', v) :: d' else (k', v') :: dict_set k v d'
  end.

(** [d.get(k)] *)
Fixpoint dict_get (k : string) (d : list (string * json)) : option json :=
  match d with
  | [] => None
  | (k', v) :: d' => if String.eqb k k' then Some v else dict_get k d'
  end.

(** *** Scanning *)

Definition is_ws (c : ascii) : bool :=
  let n := nat_of_ascii c in
  (Nat.eqb n 32 || Nat.eqb n 9 || Nat.eqb n 10 || Nat.eqb n 13)%bool.

Fixpoint skip_ws (s : string) : string :=
  match s with
  | String c rest => if is_ws c then skip_ws rest else s
  | EmptyString => s
  end.

Definition is_digit (c : ascii) : bool :=
  let n := nat_of_ascii c in (Nat.leb 48 n && Nat.leb n 57)%bool.

Definition digit_val (c : ascii) : Z := Z.of_nat (nat_of_ascii c) - 48.

(** The longest run of digits at the start of [s], and what follows. *)
Fixpoint span_digits (s : string) : string * string :=
  match s with
  | String c rest =>
      if is_digit c then
        let '(ds, r) := span_digits rest in (String c ds, r)
      else (EmptyString, s)
  | EmptyString => (EmptyString, s)
  end.

Fixpoint digits_value (acc : Z) (ds : string) : Z :=
  match ds with
  | String c rest => digits_value (10 * acc + digit_val c) rest
  | EmptyString => acc
  end.

Definition hex_val (c : ascii) : option Z :=
  let n := Z.of_nat (nat_of_ascii c) in
  if (48 <=? n) && (n <=? 57) then Some (n - 48)
  else if (65 <=? n) && (n <=? 70) then Some (n - 55)
  else if (97 <=? n) && (n <=? 102) then Some (n - 87)
  else None.

Definition hex4 (a b c d : ascii) : option Z :=
  match hex_val a, hex_val b, hex_val c, hex_val d with
  | Some x, Some y, Some z, Some t => Some (((x * 16 + y) * 16 + z) * 16 + t)
  | _, _, _, _ => None
  end.

Definition byte (n : Z) : ascii := ascii_of_nat (Z.to_nat n).

(** The UTF-8 bytes of a code point (a lone surrogate is written like any
    other three-byte code point). *)
Definition utf8 (cp : Z) : string :=
  if cp <? 128 then String (byte cp) ""
  else if cp <? 2048 then
    String (byte (192 + cp / 64)) (String (byte (128 + cp mod 64)) "")
  else if cp <? 65536 then
    String (byte (224 + cp / 4096))
      (String (byte (128 + cp / 64 mod 64)) (String (byte (128 + cp mod 64)) ""))
  else
    String (byte (240 + cp / 262144))
      (String (byte (128 + cp / 4096 mod 64))
         (String (byte (128 + cp / 64 mod 64))
            (String (byte (128 + cp mod 64)) ""))).

(** The character an escape letter stands for. *)
Definition simple_escape (c : ascii) : option ascii :=
  let n := nat_of_ascii c in
  if Nat.eqb n 34 then Some c                        (* quote *)
  else if Nat.eqb n 92 then Some c                   (* backslash *)
  else if Nat.eqb n 47 then Some c                   (* slash *)
  else if Nat.eqb n 98 then Some (ascii_of_nat 8)    (* b *)
  else if Nat.eqb n 102 then Some (ascii_of_nat 12)  (* f *)
  else if Nat.eqb n 110 then Some (ascii_of_nat 10)  (* n *)
  else if Nat.eqb n 114 then Some (ascii_of_nat 13)  (* r *)
  else if Nat.eqb n 116 then Some (ascii_of_nat 9)   (* t *)
  else None.

Definition is_high_surrogate (cp : Z) : bool := (55296 <=? cp) && (cp <=? 56319).
Definition is_low_surrogate (cp : Z) : bool := (56320 <=? cp) && (cp <=? 57343).

(** The low surrogate written as [\uXXXX] at the start of [s], if any, and
    what follows it. *)
Definition low_surrogate_escape (s : string) : option (Z * string) :=
  match s with
  | String b (String u (String h1 (String h2 (String h3 (String h4 rest))))) =>
      if (Nat.eqb (nat_of_ascii b) 92 && Nat.eqb (nat_of_ascii u) 117)%bool then
        match hex4 h1 h2 h3 h4 with
        | Some lo => if is_low_surrogate lo then Some (lo, rest) else None
        | None => None
        end
      else None
  | _ => None
  end.

Definition prepend (pre : string) (r : option (string * string))
  : option (string * string) :=
  match r with
  | Some (body, rest) => Some (pre ++ body, rest)
  | None => None
  end.

(** The body of a string literal, [s] starting just after the opening
    quote: the decoded text and what follows the closing quote.  [skip]
    counts the characters of an escape still to be passed over. *)
Fixpoint scan_string (skip : nat) (s : string) : option (string * string) :=
  match s with
  | EmptyString => None
  | String c rest =>
      match skip with
      | S k => scan_string k rest
      | O =>
          let n := nat_of_ascii c in
          if Nat.eqb n 34 then Some ("", rest)
          else if Nat.eqb n 92 then
            match rest with
            | EmptyString => None
            | String e rest' =>
                match simple_escape e with
                | Some ch => prepend (String ch "") (scan_string 1 rest)
                | None =>
                    if Nat.eqb (nat_of_ascii e) 117 then
                      match rest' with
                      | String h1 (String h2 (String h3 (String h4 rest''))) =>
                          match hex4 h1 h2 h3 h4 with
                          | None => None
                          | Some cp =>
                              match
                                (if is_high_surrogate cp
                                 then low_surrogate_escape rest''
                                 else None)
                              with
                              | Some (lo, _) =>
                                  prepend
                                    (utf8 (65536 + (cp - 55296) * 1024 + (lo - 56320)))
                                    (scan_string 11 rest)
                              | None => prepend (utf8 cp) (scan_string 5 rest)
                              end
                          end
                      | _ => None
                      end
                    else None
                end
            end
          else if Nat.ltb n 32 then None
          else prepend (String c "") (scan_string 0 rest)
      end
  end.

Fixpoint strip_prefix (p s : string) : option string :=
  match p with
  | EmptyString => Some s
  | String a p' =>
      match s with
      | String b s' => if Ascii.eqb a b then strip_prefix p' s' else None
      | EmptyString => None
      end
  end.

(** The parts of a number: an optional minus sign; a zero, or digits that
    start with no zero; an optional fraction (a dot and digits); an optional
    exponent (e or E, an optional sign, digits).  Each function gives the
    part it found, empty when there is none, and what follows it. *)
Definition scan_sign (s : string) : bool * string :=
  match strip_prefix "-" s with
  | Some r => (true, r)
  | None => (false, s)
  end.

Definition scan_int (s : string) : string * string :=
  match strip_prefix "0" s with
  | Some r => ("0", r)
  | None => span_digits s
  end.

Definition scan_frac (s : string) : string * string :=
  match strip_prefix "." s with
  | Some r =>
      let '(fd, r') := span_digits r in
      if String.eqb fd "" then ("", s) else ("." ++ fd, r')
  | None => ("", s)
  end.

Definition scan_exp (s : string) : string * string :=
  match s with
  | String e r =>
      if (Ascii.eqb e "e" || Ascii.eqb e "E")%bool then
        let '(sg, r') :=
          match r with
          | String g r'' =>
              if (Ascii.eqb g "+" || Ascii.eqb g "-")%bool
              then (String g "", r'') else ("", r)
          | EmptyString => ("", r)
          end in
        let '(ed, r'') := span_digits r' in
        if String.eqb ed "" then ("", s) else (String e "" ++ sg ++ ed, r'')
      else ("", s)
  | EmptyString => ("", s)
  end.

(** A number: an [int] when it has neither fraction nor exponent, a
    [float] otherwise. *)
Definition scan_number (s : string) : option (json * string) :=
  let '(neg, s1) := scan_sign s in
  let '(ds, r1) := scan_int s1 in
  if String.eqb ds "" then None
  else
    let '(frac, r2) := scan_frac r1 in
    let '(exp, r3) := scan_exp r2 in
    if (String.eqb frac "" && String.eqb exp "")%bool then
      Some (JInt (if neg then - digits_value 0 ds else digits_value 0 ds), r3)
    else
      Some (JFloat ((if neg then "-" else "") ++ ds ++ frac ++ exp), r3).

(** *** Parsing *)

Section Containers.

(** The parser of one value. *)
Variable value : string -> option (json * string).

(** The elements of an array after the first [[], [s] at the start of
    an element; [k] bounds the number of elements. *)
Fixpoint elements (k : nat) (acc : list json) (s : string)
  : option (json * string) :=
  match k with
  | O => None
  | S k' =>
      match value s with
      | None => None
      | Some (v, r) =>
          match skip_ws r with
          | String c r' =>
              if Ascii.eqb c "]" then Some (JList (rev (v :: acc)), r')
              else if Ascii.eqb c "," then elements k' (v :: acc) (skip_ws r')
              else None
          | EmptyString => None
          end
      end
  end.

(** The members of an object, [s] at the start of a key. *)
Fixpoint members (k : nat) (acc : list (string * json)) (s : string)
  : option (json * string) :=
  match k with
  | O => None
  | S k' =>
      match strip_prefix (String quote_char "") s with
      | None => None
      | Some r0 =>
          match scan_string 0 r0 with
          | None => None
          | Some (key, r1) =>
              match strip_prefix ":" (skip_ws r1) with
              | None => None
              | Some r2 =>
                  match value (skip_ws r2) with
                  | None => None
                  | Some (v, r3) =>
                      match skip_ws r3 with
                      | String c r' =>
                          if Ascii.eqb c "}" then
                            Some (JDict (dict_set key v acc), r')
                          else if Ascii.eqb c "," then
                            members k' (dict_set key v acc) (skip_ws r')
                          else None
                      | EmptyString => None
                      end
                  end
              end
          end
      end
  end.

End Containers.

(** One value at the start of [s]; [depth] bounds the nesting. *)
Fixpoint parse_value (depth : nat) (s : string) : option (json * string) :=
  match depth with
  | O => None
  | S d =>
      match s with
      | EmptyString => None
      | String c rest =>
          if Ascii.eqb c quote_char then
            match scan_string 0 rest with
            | Some (str, r) => Some (JStr str, r)
            | None => None
            end
          else if Ascii.eqb c "[" then
            match skip_ws rest with
            | String c' r' =>
                if Ascii.eqb c' "]" then Some (JList [], r')
                else elements (parse_value d) (String.length s) [] (skip_ws rest)
            | EmptyString => None
            end
          else if Ascii.eqb c "{" then
            match skip_ws rest with
            | String c' r' =>
                if Ascii.eqb c' "}" then Some (JDict [], r')
                else members (parse_value d) (String.length s) [] (skip_ws rest)
            | EmptyString => None
            end
          else
            match strip_prefix "null" s with
            | Some r => Some (JNull, r)
            | None =>
            match strip_prefix "true" s with
            | Some r => Some (JBool true, r)
            | None =>
            match strip_prefix "false" s with
            | Some r => Some (JBool false, r)
            | None =>
            match strip_prefix "NaN" s with
            | Some r => Some (JFloat "NaN", r)
            | None =>
            match strip_prefix "Infinity" s with
            | Some r => Some (JFloat "Infinity", r)
            | None =>
            match strip_prefix "-Infinity" s with
            | Some r => Some (JFloat "-Infinity", r)
            | None => scan_number s
            end end end end end end
      end
  end.

(** A parser of one value takes at least one character. *)
Definition consuming (value : string -> option (json * string)) : Prop :=
  forall s v r, value s = Some (v, r) -> (String.length r < String.length s)%nat.

(** The value of a JSON text: one value between optional white space. *)
Definition decode (s : string) : result json :=
  match parse_value (S (String.length s)) (skip_ws s) with
  | Some (v, r) =>
      match skip_ws r with
      | EmptyString => Ok v
      | String _ _ => Raise (Exn JSONDecodeError "Extra data")
      end
  | None => Raise (Exn JSONDecodeError "Expecting value")
  end.

(** [json.loads(v)] for a column value.  [decode] is the grammar alone; the
    interpreter adds limits of its own, which depend on its version and its
    settings: it converts no integer of more digits than
    [sys.get_int_max_str_digits()] and follows no nesting deeper than its
    stack allows.  [limit s] is the exception the interpreter raises on that
    account for the text [s], if any. *)
Definition loads (limit : string -> option exn) (v : sqlval) : result json :=
  match v with
  | SqlText s =>
      match limit s with
      | Some e => Raise e
      | None => decode s
      end
  | SqlInt _ =>
      Raise (Exn TypeError "the JSON object must be str, bytes or bytearray, not int")
  | SqlNull =>
      Raise (Exn TypeError "the JSON object must be str, bytes or bytearray, not NoneType")
  end.

(** *** The operations the script applies to the decoded value *)

Definition type_name (v : json) : string :=
  match v with
  | JNull => "NoneType"
  | JBool _ => "bool"
  | JInt _ => "int"
  | JFloat _ => "float"
  | JStr _ => "str"
  | JList _ => "list"
  | JDict _ => "dict"
  end.

(** [len(v)] *)
Definition len (v : json) : result nat :=
  match v with
  | JList l => Ok (List.length l)
  | JDict d => Ok (List.length d)
  | JStr s => Ok (py_len s)
  | _ => Raise (Exn TypeError ("object of type '" ++ type_name v ++ "' has no len()"))
  end.

(** [bool(v)] *)
Definition truthy (v : json) : bool :=
  match v with
  | JNull => false
  | JBool b => b
  | JInt z => negb (z =? 0)
  | JFloat _ => true
  | JStr s => negb (String.eqb s "")
  | JList l => match l with [] => false | _ => true end
  | JDict d => match d with [] => false | _ => true end
  end.

(** [v[0]] *)
Definition getitem0 (v : json) : result json :=
  match v with
  | JList (x :: _) => Ok x
  | JList [] => Raise (Exn IndexError "list index out of range")
  | JStr s =>
      if String.eqb s "" then Raise (Exn IndexError "string index out of range")
      else Ok (JStr (py_prefix 1 s))
  | JDict _ => Raise (Exn KeyError "0")
  | _ => Raise (Exn TypeError ("'" ++ type_name v ++ "' object is not subscriptable"))
  end.

(** [v.get(key, default)] *)
Definition get (v : json) (key : string) (default : json) : result json :=
  match v with
  | JDict d =>
      match dict_get key d with
      | Some x => Ok x
      | None => Ok default
      end
  | _ =>
      Raise (Exn AttributeError
               ("'" ++ type_name v ++ "' object has no attribute 'get'"))
  end.

(** [str(v)]; [repr] is the interpreter's text for floats, lists and
    dicts. *)
Definition str (repr : json -> string) (v : json) : string :=
  match v with
  | JStr s => s
  | JInt z => str_of_Z z
  | JBool b => if b then "True" else "False"
  | JNull => "None"
  | _ => repr v
  end.

End Json.

(** ** The environment *)

(** What is behind a path that exists: its size in bytes and the database
    it holds. *)
Record File : Type := mkFile {
  file_size : Z;
  file_db : Database
}.

(** The statements the script sends through the cursor. *)
Inductive query : Type :=
| Q_tables                       (* SELECT name FROM sqlite_master WHERE type='table'; *)
| Q_table_info (table : string)  (* PRAGMA table_info(<table>); *)
| Q_count_all                    (* SELECT COUNT( * ) FROM dominant_colors *)
| Q_group_by_status              (* SELECT status, COUNT( * ) ... GROUP BY status *)
| Q_recent                       (* SELECT ... ORDER BY updated_at DESC LIMIT 5 *)
| Q_count_status (s : string).   (* SELECT COUNT( * ) ... WHERE status = '<s>' *)

(** A call into [sqlite3]: [sqlite3.connect], a [cursor.execute] together
    with the fetch that follows it, [conn.close]. *)
Inductive db_call : Type :=
| Connect (path : string)
| Execute (q : query)
| Close.

(** - [fs path] is what [os.path.exists] and [os.path.getsize] see;
    - [fault n], when it is [Some e], makes the [n]-th database call of the
      run (counted from 0, the connection) raise [e]: a locked or malformed
      file, a missing column, a table name [PRAGMA] cannot take, an
      interrupt;
    - [utc_offset] is the local time zone;
    - [py_repr] is the interpreter's text for floats, lists and dicts;
    - [json_limit s], when it is [Some e], makes [json.loads] raise [e] on
      the text [s]: the text has an integer of more digits than the
      interpreter converts, or a nesting deeper than its stack allows. *)
Record World : Type := mkWorld {
  fs : string -> option File;
  fault : nat -> option exn;
  utc_offset : Z -> option Z;
  py_repr : Json.json -> string;
  json_limit : string -> option exn
}.

(** ** Computations *)

(** What a run does, in order: the lines it prints, one per [print], and
    the database calls it makes, each with the exception it raised, if
    any. *)
Inductive event : Type :=
| Printed (line : string)
| Called (c : db_call) (raised : option exn).

Definition trace : Type := list event.

Fixpoint lines (t : trace) : list string :=
  match t with
  | [] => []
  | Printed l :: t' => l :: lines t'
  | Called _ _ :: t' => lines t'
  end.

Fixpoint db_calls (t : trace) : list db_call :=
  match t with
  | [] => []
  | Printed _ :: t' => db_calls t'
  | Called c _ :: t' => c :: db_calls t'
  end.

(** A computation takes the trace so far and gives a value or an exception,
    and the trace it has extended. *)
Definition M (A : Type) : Type := trace -> result A * trace.

Definition ret {A : Type} (a : A) : M A := fun t => (Ok a, t).

Definition bind {A B : Type} (m : M A) (k : A -> M B) : M B :=
  fun t =>
    match m t with
    | (Ok a, t') => k a t'
    | (Raise e, t') => (Raise e, t')
    end.

Declare Scope py_scope.
Delimit Scope py_scope with py.
Notation "x <- m ;; k" := (bind m (fun x => k))
  (at level 61, m at next level, right associativity) : py_scope.
Notation "m ;; k" := (bind m (fun _ => k))
  (at level 61, right associativity) : py_scope.
Local Open Scope py_scope.

(** [print(line)] *)
Definition print (line : string) : M unit :=
  fun t => (Ok tt, (t ++ [Printed line])%list).

(** The value of an expression that may raise. *)
Definition eval {A : Type} (r : result A) : M A := fun t => (r, t).

(** The text holds a lone surrogate: the byte 237 followed by a byte from
    160 on.  An escape of a JSON text can make one; a text of the database
    cannot, its bytes being UTF-8. *)
Fixpoint has_surrogate (s : string) : bool :=
  match s with
  | String a rest =>
      match rest with
      | String b _ =>
          (Nat.eqb (nat_of_ascii a) 237 && Nat.leb 160 (nat_of_ascii b))
          || has_surrogate rest
      | EmptyString => false
      end
  | EmptyString => false
  end.

(** [print(line)] for a line with text that [json.loads] decoded: standard
    output, which is UTF-8, encodes every character but a lone surrogate,
    and raises on that one before it writes anything. *)
Definition print_decoded (line : string) : M unit :=
  fun t =>
    if has_surrogate line then
      (Raise (Exn UnicodeEncodeError "surrogates not allowed"), t)
    else (Ok tt, (t ++ [Printed line])%list).

Definition raised {A : Type} (r : result A) : option exn :=
  match r with
  | Ok _ => None
  | Raise e => Some e
  end.

(** A database call.  It raises the world's fault when there is one for it;
    [answer] is what the database returns otherwise.  Either way the call is
    logged. *)
Definition db (w : World) (c : db_call) {A : Type} (answer : result A) : M A :=
  fun t =>
    match fault w (List.length (db_calls t)) with
    | Some e => (Raise e, (t ++ [Called c (Some e)])%list)
    | None => (answer, (t ++ [Called c (raised answer)])%list)
    end.

(** [for x in xs: body(x)] *)
Fixpoint for_each {A : Type} (xs : list A) (body : A -> M unit) : M unit :=
  match xs with
  | [] => ret tt
  | x :: xs' => body x ;; for_each xs' body
  end.

(** [try: m] with a bare [except: handler]. *)
Definition try_except_all (m : M unit) (handler : M unit) : M unit :=
  fun t =>
    match m t with
    | (Ok tt, t') => (Ok tt, t')
    | (Raise _, t') => handler t'
    end.

(** [try: m / except sqlite3.Error as e: on_db(e) /
     except Exception as e: on_other(e)] *)
Definition try_except (m : M unit) (on_db on_other : exn -> M unit) : M unit :=
  fun t =>
    match m t with
    | (Ok tt, t') => (Ok tt, t')
    | (Raise e, t') =>
        if is_sqlite_error e then on_db e t'
        else if is_Exception e then on_other e t'
        else (Raise e, t')
    end.

(** ** The script *)

Definition nl : string := String (ascii_of_nat 10) "".

(** The rows of [dominant_colors], or SQLite's error when there is no such
    table. *)
Definition table_rows (d : Database) : result (list Row) :=
  match dominant_colors d with
  | Some rows => Ok rows
  | None => Raise (Exn Sqlite3Error "no such table: dominant_colors")
  end.

Definition select {A : Type} (d : Database) (f : list Row -> A) : result A :=
  match table_rows d with
  | Ok rows => Ok (f rows)
  | Raise e => Raise e
  end.

(** [PRAGMA table_info(name)] *)
Definition table_info (d : Database) (name : string) : list Column :=
  match find (fun t => String.eqb (table_name t) name) (tables d) with
  | Some t => table_columns t
  | None => []
  end.

(** [colors != '[]'] *)
Definition differs_from_empty_array (v : sqlval) : bool :=
  match v with
  | SqlText s => negb (String.eqb s "[]")
  | _ => true
  end.

(** [colors[:50]] *)
Definition slice50 (v : sqlval) : result string :=
  match v with
  | SqlText s => Ok (py_prefix 50 s)
  | SqlInt _ => Raise (Exn TypeError "'int' object is not subscriptable")
  | SqlNull => Raise (Exn TypeError "'NoneType' object is not subscriptable")
  end.

(** Lines 74-83: what is printed about the colours of one record. *)
Definition show_colors (w : World) (colors : sqlval) : M unit :=
  if truthy colors && differs_from_empty_array colors then
    try_except_all
      (color_data <- eval (Json.loads (json_limit w) colors) ;;
       n <- eval (Json.len color_data) ;;
       print ("  颜色数量: " ++ str_of_nat n) ;;
       if Json.truthy color_data then
         first <- eval (Json.getitem0 color_data) ;;
         hex <- eval (Json.get first "hex" (Json.JStr "N/A")) ;;
         print_decoded ("  主色调: " ++ Json.str (py_repr w) hex)
       else ret tt)
      (text <- eval (slice50 colors) ;;
       print ("  颜色数据: " ++ text ++ "..."))
  else
    print "  颜色数据: 无".

(** [datetime.fromtimestamp(v).strftime('%Y-%m-%d %H:%M:%S')] *)
Definition time_text (w : World) (v : sqlval) : result string :=
  match Datetime.fromtimestamp (utc_offset w) v with
  | Ok dt => Ok (Datetime.strftime dt)
  | Raise e => Raise e
  end.

(** Lines 66-83: the body of the loop over the recent records. *)
Definition show_record (w : World) (r : Row) : M unit :=
  created_time <- eval (time_text w (created_at r)) ;;
  updated_time <- eval (time_text w (updated_at r)) ;;
  print (nl ++ "  文件: " ++ py_str (file_path r)) ;;
  print ("  状态: " ++ py_str (status r)) ;;
  print ("  创建时间: " ++ created_time) ;;
  print ("  更新时间: " ++ updated_time) ;;
  show_colors w (colors r).

(** [f'{count/total*100:.1f}'] *)
Definition percent (count total : Z) : result string :=
  match Float.int_truediv count total with
  | Ok x => Ok (Float.format_f 1 (Float.mul_int x 100))
  | Raise e => Raise e
  end.

(** [f'{size / 1024:.2f}'] *)
Definition kib (size : Z) : result string :=
  match Float.int_truediv size 1024 with
  | Ok x => Ok (Float.format_f 2 x)
  | Raise e => Raise e
  end.

(** Lines 28-37: the tables and their columns. *)
Definition list_schema (w : World) (d : Database) : M unit :=
  print (nl ++ "数据库表结构:") ;;
  names <- db w (Execute Q_tables) (Ok (map table_name (tables d))) ;;
  for_each names (fun name =>
    print ("  - " ++ name) ;;
    columns <- db w (Execute (Q_table_info name)) (Ok (table_info d name)) ;;
    for_each columns (fun col =>
      print ("    * " ++ col_name col ++ " (" ++ col_type col ++ ")"))).

(** Lines 40-42: the number of records. *)
Definition count_records (w : World) (d : Database) : M Z :=
  total_count <- db w (Execute Q_count_all) (select d Sql.count_all) ;;
  print (nl ++ "总记录数: " ++ str_of_Z total_count) ;;
  ret total_count.

(** Lines 45-49: the records of each status. *)
Definition count_by_status (w : World) (d : Database) : M unit :=
  status_counts <- db w (Execute Q_group_by_status) (select d Sql.group_by_status) ;;
  print (nl ++ "按状态统计:") ;;
  for_each status_counts (fun '(st, count) =>
    print ("  - " ++ py_str st ++ ": " ++ str_of_Z count ++ " 个文件")).

(** Lines 52-53: the size of the file. *)
Definition show_size (f : File) : M unit :=
  size <- eval (kib (file_size f)) ;;
  print (nl ++ "数据库文件大小: " ++ size ++ " KB").

(** Lines 56-83: the five records updated last. *)
Definition show_recent (w : World) (d : Database) : M unit :=
  print (nl ++ "最近处理的5个文件:") ;;
  recent_files <- db w (Execute Q_recent) (select d Sql.select_recent) ;;
  for_each recent_files (show_record w).

(** Lines 95-98: the three lines of the success rate. *)
Definition print_rates (extracted_count pending_count error_count total_count : Z)
  : M unit :=
  print (nl ++ "处理状态统计:") ;;
  p <- eval (percent extracted_count total_count) ;;
  print ("  已提取: " ++ str_of_Z extracted_count ++ " (" ++ p ++ "%)") ;;
  p <- eval (percent pending_count total_count) ;;
  print ("  待处理: " ++ str_of_Z pending_count ++ " (" ++ p ++ "%)") ;;
  p <- eval (percent error_count total_count) ;;
  print ("  错误: " ++ str_of_Z error_count ++ " (" ++ p ++ "%)").

(** Lines 86-98: the success rate. *)
Definition show_rates (w : World) (d : Database) (total_count : Z) : M unit :=
  extracted_count <-
    db w (Execute (Q_count_status "extracted")) (select d (Sql.count_status "extracted")) ;;
  pending_count <-
    db w (Execute (Q_count_status "pending")) (select d (Sql.count_status "pending")) ;;
  error_count <-
    db w (Execute (Q_count_status "error")) (select d (Sql.count_status "error")) ;;
  print_rates extracted_count pending_count error_count total_count.

(** Lines 24-100: the body of the [try]. *)
Definition report (w : World) (db_path : string) (f : File) : M unit :=
  let d := file_db f in
  db w (Connect db_path) (Ok tt) ;;
  list_schema w d ;;
  total_count <- count_records w d ;;
  count_by_status w d ;;
  show_size f ;;
  show_recent w d ;;
  show_rates w d total_count ;;
  db w Close (Ok tt).

Definition on_database_error (e : exn) : M unit :=
  print ("数据库错误: " ++ exn_msg e).

Definition on_other_error (e : exn) : M unit :=
  print ("未知错误: " ++ exn_msg e).

(** [query_colors_db(db_path)] *)
Definition query_colors_db (w : World) (db_path : string) : M unit :=
  match fs w db_path with
  | None => print ("数据库文件不存在: " ++ db_path)
  | Some f =>
      print ("正在查询数据库: " ++ db_path) ;;
      print (String.concat "" (repeat "=" 60)) ;;
      try_except (report w db_path f) on_database_error on_other_error
  end.

(** A run of the script: its outcome and everything it did. *)
Definition run (w : World) (db_path : string) : result unit * trace :=
  query_colors_db w db_path [].

(** The lines on standard output, in order. *)
Definition output (w : World) (db_path : string) : list string :=
  lines (snd (run w db_path)).

(** The database calls made, in order. *)
Definition calls_made (w : World) (db_path : string) : list db_call :=
  db_calls (snd (run w db_path)).

(** Lines 107-110: the script run as a program, on the path it names. *)
Definition default_db_path : string :=
  "C:\Users\Misaki\AppData\Roaming\com.aurora.gallery\colors.db".

Definition main (w : World) : M unit := query_colors_db w default_db_path.

(** ** Notions the statements use *)

(** No database call fails on account of the environment. *)
Definition calm (w : World) : Prop := forall n, fault w n = None.

(** The size is one a file can have ([off_t] is a signed 64-bit integer). *)
Definition size_fits (f : File) : Prop := 0 <= file_size f < 2 ^ 63.

(** What a computation does when nothing came before it. *)
Definition outcome_of {A : Type} (m : M A) : result A := fst (m []).
Definition events_of {A : Type} (m : M A) : trace := snd (m []).

(** A computation that does the same whatever came before it (it makes no
    database call). *)
Definition pure {A : Type} (m : M A) : Prop :=
  forall t, m t = (outcome_of m, (t ++ events_of m)%list).

(** The two lines every run on an existing file starts with. *)
Definition banner (db_path : string) : trace :=
  [Printed ("正在查询数据库: " ++ db_path);
   Printed (String.concat "" (repeat "=" 60))].

Definition is_ok {A : Type} (r : result A) : bool :=
  match r with
  | Ok _ => true
  | Raise _ => false
  end.

(** The record can be displayed: both timestamps convert, and [colors] is
    not a number other than zero. *)
Definition well_formed (w : World) (r : Row) : bool :=
  is_ok (time_text w (created_at r)) && is_ok (time_text w (updated_at r))
  && match colors r with
     | SqlInt z => z =? 0
     | _ => true
     end.

(** The exceptions that are neither database errors nor interrupts. *)
Definition ordinary (e : exn) : bool := is_Exception e && negb (is_sqlite_error e).

(** The four lines a record starts with, [created] and [updated] being its
    two times as text. *)
Definition record_head (r : Row) (created updated : string) : trace :=
  [Printed (nl ++ "  文件: " ++ py_str (file_path r));
   Printed ("  状态: " ++ py_str (status r));
   Printed ("  创建时间: " ++ created);
   Printed ("  更新时间: " ++ updated)].

(** The first line printed for a record. *)
Definition file_line (r : Row) : string := nl ++ "  文件: " ++ py_str (file_path r).

Fixpoint starts_with (p s : string) : bool :=
  match p with
  | EmptyString => true
  | String a p' =>
      match s with
      | String b s' => Ascii.eqb a b && starts_with p' s'
      | EmptyString => false
      end
  end.

Definition is_file_line (line : string) : bool := starts_with (nl ++ "  文件: ") line.

(** The line a handler of the top level prints for an exception. *)
Definition error_line (e : exn) : string :=
  (if is_sqlite_error e then "数据库错误: " else "未知错误: ") ++ exn_msg e.

(** A database call that raised. *)
Definition failed (ev : event) : bool :=
  match ev with
  | Called _ (Some _) => true
  | _ => false
  end.

(** No database call of the trace raised. *)
Definition clean (t : trace) : Prop := Forall (fun ev => failed ev = false) t.

(** A computation that only prints. *)
Definition quiet {A : Type} (m : M A) : Prop :=
  forall t, exists ls, snd (m t) = (t ++ map Printed ls)%list.

(** A computation that stops at the first database call that raises, with
    the exception of that call. *)
Definition careful {A : Type} (m : M A) : Prop :=
  forall t, exists ev,
    snd (m t) = (t ++ ev)%list /\
    (clean ev \/
     exists ev0 c e,
       ev = (ev0 ++ [Called c (Some e)])%list /\ clean ev0 /\ fst (m t) = Raise e).

(** The three kinds of lines about the colours of a record. *)
Definition count_line (n : nat) : string := "  颜色数量: " ++ str_of_nat n.

Definition hex_line (w : World) (entry : list (string * Json.json)) : string :=
  "  主色调: " ++
  match Json.dict_get "hex" entry with
  | Some hex => Json.str (py_repr w) hex
  | None => "N/A"
  end.

Definition fallback_line (s : string) : string :=
  "  颜色数据: " ++ py_prefix 50 s ++ "...".

Definition no_color_line : string := "  颜色数据: 无".

(** What the block prints for a text [s] that decodes to [v]. *)
Definition decoded_lines (w : World) (s : string) (v : Json.json) : list string :=
  match v with
  | Json.JNull | Json.JBool _ | Json.JInt _ | Json.JFloat _ => [fallback_line s]
  | Json.JStr x =>
      count_line (py_len x) :: (if String.eqb x "" then [] else [fallback_line s])
  | Json.JDict d =>
      count_line (List.length d) ::
      match d with
      | [] => []
      | _ :: _ => [fallback_line s]
      end
  | Json.JList [] => [count_line 0]
  | Json.JList (Json.JDict entry :: rest) =>
      [count_line (S (List.length rest));
       if has_surrogate (hex_line w entry) then fallback_line s else hex_line w entry]
  | Json.JList (_ :: rest) =>
      [count_line (S (List.length rest)); fallback_line s]
  end%list.

(** A line that starts with two spaces. *)
Definition indented (line : string) : bool := starts_with "  " line.

(** A line that is neither the first line of a record nor the header of
    the success rate. *)
Definition plain (line : string) : bool :=
  negb (is_file_line line) && negb (String.eqb line (nl ++ "处理状态统计:")).

(** The percentage as the success-rate lines show it. *)
Definition percent_text (count total : Z) : string :=
  Float.format_f 1 (Float.mul_int (Float.quotient count total) 100).

Definition rate_line (label : string) (count total : Z) : string :=
  label ++ str_of_Z count ++ " (" ++ percent_text count total ++ "%)".

(** The size as the file-size line shows it. *)
Definition kib_text (size : Z) : string :=
  Float.format_f 2 (Float.quotient size 1024).

(** What the schema listing does on a database that answers. *)
Definition schema_events (d : Database) : trace :=
  Printed (nl ++ "数据库表结构:") :: Called (Execute Q_tables) None ::
  flat_map
    (fun name =>
       Printed ("  - " ++ name) :: Called (Execute (Q_table_info name)) None ::
       map (fun col => Printed ("    * " ++ col_name col ++ " (" ++ col_type col ++ ")"))
         (table_info d name))
    (map table_name (tables d)).

(** What a run does between the banner and the loop over the recent
    records, on a database that answers and has the table. *)
Definition preamble (db_path : string) (f : File) (rows : list Row) : trace :=
  ([Called (Connect db_path) None] ++ schema_events (file_db f) ++
  [Called (Execute Q_count_all) None;
   Printed (nl ++ "总记录数: " ++ str_of_Z (Sql.count_all rows));
   Called (Execute Q_group_by_status) None;
   Printed (nl ++ "按状态统计:")] ++
  map (fun '(st, count) =>
         Printed ("  - " ++ py_str st ++ ": " ++ str_of_Z count ++ " 个文件"))
    (Sql.group_by_status rows) ++
  [Printed (nl ++ "数据库文件大小: " ++ kib_text (file_size f) ++ " KB");
   Printed (nl ++ "最近处理的5个文件:");
   Called (Execute Q_recent) None])%list.

(** The three queries of the success rate. *)
Definition rate_queries : trace :=
  [Called (Execute (Q_count_status "extracted")) None;
   Called (Execute (Q_count_status "pending")) None;
   Called (Execute (Q_count_status "error")) None].

Definition rates_header : string := nl ++ "处理状态统计:".

(** The three lines of the success rate. *)
Definition rate_lines (rows : list Row) : trace :=
  let total := Sql.count_all rows in
  [Printed (rate_line "  已提取: " (Sql.count_status "extracted" rows) total);
   Printed (rate_line "  待处理: " (Sql.count_status "pending" rows) total);
   Printed (rate_line "  错误: " (Sql.count_status "error" rows) total)].

(** [a] may come before [b] in descending order of [updated_at]. *)
Definition before (a b : Row) : Prop := Sql.leb (updated_at b) (updated_at a) = true.

(** Rows in descending order of [updated_at]. *)
Definition descending (rows : list Row) : Prop := StronglySorted before rows.

(** The statements of a complete report, in order. *)
Definition queries (d : Database) : list db_call :=
  (Execute Q_tables ::
   map (fun name => Execute (Q_table_info name)) (map table_name (tables d)) ++
   [Execute Q_count_all; Execute Q_group_by_status; Execute Q_recent;
    Execute (Q_count_status "extracted"); Execute (Q_count_status "pending");
    Execute (Q_count_status "error")])%list.

(** The database calls of a complete report, in order. *)
Definition full_script (db_path : string) (d : Database) : list db_call :=
  (Connect db_path :: queries d ++ [Close])%list.

(** Lines 24-98: the report up to the closing of the connection. *)
Definition stages (w : World) (db_path : string) (f : File) : M unit :=
  let d := file_db f in
  db w (Connect db_path) (Ok tt) ;;
  list_schema w d ;;
  total_count <- count_records w d ;;
  count_by_status w d ;;
  show_size f ;;
  show_recent w d ;;
  show_rates w d total_count.

(** Lines 40-100: the report after the schema. *)
Definition after_schema (w : World) (f : File) : M unit :=
  let d := file_db f in
  total_count <- count_records w d ;;
  count_by_status w d ;;
  show_size f ;;
  show_recent w d ;;
  show_rates w d total_count ;;
  db w Close (Ok tt).

(** A computation whose database calls are those of [cs], in order: all of
    them when it returns, the first ones when it raises.  [P] holds of the
    value it returns. *)
Definition follows {A : Type} (m : M A) (cs : list db_call) (P : A -> Prop) : Prop :=
  forall t, exists ev,
    snd (m t) = (t ++ ev)%list /\
    match fst (m t) with
    | Ok a => db_calls ev = cs /\ P a
    | Raise _ => exists rest, cs = (db_calls ev ++ rest)%list
    end.

(** The lines of the tables and their columns, as the catalogue has them. *)
Definition schema_lines (d : Database) : list string :=
  (nl ++ "数据库表结构:") ::
  flat_map
    (fun t =>
       ("  - " ++ table_name t) ::
       map (fun col => "    * " ++ col_name col ++ " (" ++ col_type col ++ ")")
         (table_columns t))
    (tables d).

(** The number the listing by status gives for the status [v]: zero when
    the status is not listed. *)
Definition listed (v : sqlval) (groups : list (sqlval * Z)) : Z :=
  match find (fun g => Sql.eqb (fst g) v) groups with
  | Some g => snd g
  | None => 0
  end.

(** The sum of the numbers of the listing. *)
Definition listed_total (groups : list (sqlval * Z)) : Z :=
  fold_right (fun g n => snd g + n) 0 groups.

(** Statuses in ascending order, each one once. *)
Definition ascending (groups : list (sqlval * Z)) : Prop :=
  StronglySorted (fun a b => Sql.compare (fst a) (fst b) = Lt) groups.

(** The status is one of the three of the success rate. *)
Definition is_known_status (v : sqlval) : bool :=
  Sql.eqb v (SqlText "extracted") || Sql.eqb v (SqlText "pending")
  || Sql.eqb v (SqlText "error").

(** The digit [d], from 0 to 9. *)
Definition digit (d : Z) : ascii := ascii_of_nat (48 + Z.to_nat d).

(** The last [k] digits of [n], the most significant first. *)
Fixpoint last_digits (k : nat) (n : Z) : string :=
  match k with
  | O => ""
  | S k' => last_digits k' (n / 10) ++ String (digit (n mod 10)) ""
  end.

(** The numeral of [n / 10^k] with [k] decimals, [n >= 0]: the integer part
    as [str] writes it, a point, and [k] digits. *)
Definition decimal (n : Z) (k : nat) : string :=
  str_of_Z (n / 10 ^ Z.of_nat k) ++ "." ++ last_digits k n.

(** [n] is the integer nearest to [num / den], the even one of the two when
    [num / den] is half way between them ([den > 0]). *)
Definition nearest_even (n num den : Z) : Prop :=
  2 * Z.abs (n * den - num) <= den /\
  (2 * Z.abs (n * den - num) = den -> Z.even n = true).

(** [n] tenths of a percent is the share of [count] in [total], rounded to
    an integer up to the rounding of the floats, [2^-39] of a tenth. *)
Definition share (n count total : Z) : Prop :=
  0 <= n <= 1000 /\
  2 ^ 39 * Z.abs (n * total - 1000 * count) <= (2 ^ 38 + 1) * total.

(** [n] hundredths of a KB is the size of [size] bytes, rounded to an
    integer: it is the nearest one, the even one of two that are as near, for
    a size below [2^53], which the float holds exactly, and it is within
    [2^-49] of the size, and half a hundredth, for the larger sizes. *)
Definition hundredths_of_kib (n size : Z) : Prop :=
  0 <= n /\
  2 ^ 49 * Z.abs (1024 * n - 100 * size) <= 2 ^ 58 + 100 * size /\
  (size < 2 ^ 53 -> nearest_even n (100 * size) 1024).

(** What a run does between the banner and the line of the file size, on a
    database that has the table and answers so far. *)
Definition before_size (db_path : string) (f : File) (rows : list Row) : trace :=
  ([Called (Connect db_path) None] ++ schema_events (file_db f) ++
  [Called (Execute Q_count_all) None;
   Printed (nl ++ "总记录数: " ++ str_of_Z (Sql.count_all rows));
   Called (Execute Q_group_by_status) None;
   Printed (nl ++ "按状态统计:")] ++
  map (fun '(st, count) =>
         Printed ("  - " ++ py_str st ++ ": " ++ str_of_Z count ++ " 个文件"))
    (Sql.group_by_status rows))%list.

(** Lines 56-100: the report after the file size. *)
Definition after_size (w : World) (f : File) (total_count : Z) : M unit :=
  let d := file_db f in
  show_recent w d ;;
  show_rates w d total_count ;;
  db w Close (Ok tt).

(** The rows the query of the recent records selects: none when there is no
    table. *)
Definition recent_records (d : Database) : list Row :=
  match dominant_colors d with
  | Some rows => Sql.select_recent rows
  | None => []
  end.


(** A computation that prints no first line of a record. *)
Definition unlisted {A : Type} (m : M A) : Prop :=
  forall t, exists ev,
    snd (m t) = (t ++ ev)%list /\ filter is_file_line (lines ev) = [].

(** A computation that lists the first records of [rs], in order. *)
Definition lists (rs : list Row) {A : Type} (m : M A) : Prop :=
  forall t, exists ev j,
    snd (m t) = (t ++ ev)%list /\
    filter is_file_line (lines ev) = map file_line (firstn j rs).


(** ** Sample worlds *)

Definition sample_columns : list Column :=
  [mkColumn 0 "file_path" "TEXT"; mkColumn 1 "status" "TEXT";
   mkColumn 2 "created_at" "INTEGER"; mkColumn 3 "updated_at" "INTEGER";
   mkColumn 4 "colors" "TEXT"].

(** A database with the rows [content] in [dominant_colors], or without
    that table. *)
Definition sample_db (content : option (list Row)) : Database :=
  mkDatabase
    match content with
    | Some _ => [mkTable "dominant_colors" sample_columns]
    | None => []
    end
    content.

Definition sample_file (content : option (list Row)) : File :=
  mkFile 12288 (sample_db content).

(** The limits of an interpreter with its default settings: [json.loads]
    converts no integer of more than 4300 digits, and follows no nesting
    deeper than some 990 arrays and objects.  The text is read outside its
    strings: [lx_run] counts the digits of the integer being read, [lx_fraction]
    tells the digits of a fraction or of an exponent, which are those of a
    float, and [lx_depth] counts the arrays and objects that are open. *)
Record lexer : Type := mkLexer {
  lx_in_string : bool;
  lx_escaped : bool;
  lx_fraction : bool;
  lx_run : nat;
  lx_longest : nat;
  lx_depth : nat;
  lx_deepest : nat
}.

Definition lexer_step (st : lexer) (c : ascii) : lexer :=
  let n := nat_of_ascii c in
  let seen := Nat.max (lx_longest st) (lx_run st) in
  if lx_in_string st then
    if lx_escaped st then
      mkLexer true false false 0 (lx_longest st) (lx_depth st) (lx_deepest st)
    else if Nat.eqb n 92 then
      mkLexer true true false 0 (lx_longest st) (lx_depth st) (lx_deepest st)
    else if Nat.eqb n 34 then
      mkLexer false false false 0 (lx_longest st) (lx_depth st) (lx_deepest st)
    else st
  else if Nat.eqb n 34 then mkLexer true false false 0 seen (lx_depth st) (lx_deepest st)
  else if Json.is_digit c then
    if lx_fraction st then st
    else
      mkLexer false false false (S (lx_run st)) (lx_longest st) (lx_depth st)
        (lx_deepest st)
  else if (Nat.eqb n 46 || Nat.eqb n 101 || Nat.eqb n 69)%bool then
    mkLexer false false true 0 (lx_longest st) (lx_depth st) (lx_deepest st)
  else if (Nat.eqb n 43 || Nat.eqb n 45)%bool then
    mkLexer false false (lx_fraction st) 0 seen (lx_depth st) (lx_deepest st)
  else if (Nat.eqb n 91 || Nat.eqb n 123)%bool then
    mkLexer false false false 0 seen (S (lx_depth st))
      (Nat.max (lx_deepest st) (S (lx_depth st)))
  else if (Nat.eqb n 93 || Nat.eqb n 125)%bool then
    mkLexer false false false 0 seen (Nat.pred (lx_depth st)) (lx_deepest st)
  else mkLexer false false false 0 seen (lx_depth st) (lx_deepest st).

Fixpoint lexer_run (st : lexer) (s : string) : lexer :=
  match s with
  | String c rest => lexer_run (lexer_step st c) rest
  | EmptyString => st
  end.

Definition python_limits (s : string) : option exn :=
  let st := lexer_run (mkLexer false false false 0 0 0 0) s in
  if Nat.ltb 4300 (Nat.max (lx_longest st) (lx_run st)) then
    Some (Exn ValueError "Exceeds the limit (4300 digits) for integer string conversion")
  else if Nat.ltb 990 (lx_deepest st) then
    Some (Exn RecursionError "maximum recursion depth exceeded")
  else None.

(** A world whose only file is [colors.db], with local time UTC and the
    limits of an interpreter with its default settings. *)
Definition sample_world (content : option (list Row)) (faults : nat -> option exn)
  : World :=
  mkWorld
    (fun path => if String.eqb path "colors.db" then Some (sample_file content) else None)
    faults
    (fun _ => Some 0)
    (fun _ => "")
    python_limits.

Definition no_fault : nat -> option exn := fun _ => None.

Definition red : sqlval := SqlText (dq "[{'hex':'#FF0000'}]").

(** Three records, one of each status. *)
Definition row_a : Row :=
  mkRow (SqlText "a.png") (SqlText "extracted") (SqlInt 1700000000) (SqlInt 1700000100) red.

Definition row_b : Row :=
  mkRow (SqlText "b.png") (SqlText "pending") (SqlInt 1700000000) (SqlInt 1700000200) SqlNull.

Definition row_c : Row :=
  mkRow (SqlText "c.png") (SqlText "error") (SqlInt 1700000000) (SqlInt 1700000050)
    (SqlText "not valid json").

Definition three_rows : list Row := [row_a; row_b; row_c].

(** A record that was never given its creation time. *)
Definition untimed_row : Row :=
  mkRow (SqlText "d.png") (SqlText "extracted") SqlNull (SqlInt 1700000150) red.

(** The first query after the schema listing finds the file locked. *)
Definition locked_after_schema : nat -> option exn :=
  fun n => if Nat.eqb n 3 then Some (Exn Sqlite3Error "database is locked") else None.

(** A record whose colours were stored as a number. *)
Definition numbered_row : Row :=
  mkRow (SqlText "e.png") (SqlText "extracted") (SqlInt 1700000000) (SqlInt 1700000150)
    (SqlInt 7).

(** The user interrupts the first query. *)
Definition interrupted : nat -> option exn :=
  fun n => if Nat.eqb n 1 then Some (Exn KeyboardInterrupt "interrupted") else None.

(** A world whose database file has the three records and a size of one's
    choice, and whose calls do not fail. *)
Definition sized_world (size : Z) : World :=
  mkWorld
    (fun path =>
       if String.eqb path "colors.db"
       then Some (mkFile size (sample_db (Some three_rows))) else None)
    no_fault
    (fun _ => Some 0)
    (fun _ => "")
    python_limits.

(** A record whose colours someone wrote by hand. *)
Definition handwritten : string :=
  "红色 #FF0000, 绿色 #00FF00, 蓝色 #0000FF: colours written by hand, not as JSON".

Definition handwritten_row : Row :=
  mkRow (SqlText "f.png") (SqlText "error") (SqlInt 1700000000) (SqlInt 1700000120)
    (SqlText handwritten).


(** * Facts *)

(** ** Floating point *)

Module FloatFacts.

Import Float.

Lemma digits2_pos_bounds (p : positive) :
  2 ^ (Z.pos (digits2_pos p) - 1) <= Z.pos p < 2 ^ Z.pos (digits2_pos p).
Proof.
  induction p as [p IH | p IH |]; simpl digits2_pos.
  - rewrite Pos2Z.inj_succ.
    replace (Z.succ (Z.pos (digits2_pos p)) - 1)
      with (Z.succ (Z.pos (digits2_pos p) - 1)) by lia.
    rewrite !Z.pow_succ_r by lia. lia.
  - rewrite Pos2Z.inj_succ.
    replace (Z.succ (Z.pos (digits2_pos p)) - 1)
      with (Z.succ (Z.pos (digits2_pos p) - 1)) by lia.
    rewrite !Z.pow_succ_r by lia. lia.
  - simpl. lia.
Qed.

Lemma Zdigits2_le (m k : Z) : 0 <= k -> 0 <= m < 2 ^ k -> Zdigits2 m <= k.
Proof.
  intros Hk [Hm Hlt]. destruct m as [|p|p]; simpl; try lia.
  pose proof (digits2_pos_bounds p) as [Hlo _].
  destruct (Z_le_gt_dec (Z.pos (digits2_pos p)) k) as [|Hgt]; [assumption|].
  assert (2 ^ k <= 2 ^ (Z.pos (digits2_pos p) - 1))
    by (apply Z.pow_le_mono_r; lia).
  lia.
Qed.

Section Shift.

Variable m0 : Z.

(** After [k] shifts to the right the mantissa is at most [m0 / 2^k]. *)
Definition halved (k : Z) (mrs : shr_record) : Prop :=
  0 <= shr_m mrs /\ shr_m mrs * 2 ^ k <= m0.

Lemma shr_1_halved k mrs :
  0 <= k -> halved k mrs -> halved (k + 1) (shr_1 mrs).
Proof.
  intros Hk [H0 H]. destruct mrs as [m r s]. unfold halved in *.
  simpl in H0, H.
  rewrite Z.pow_add_r, Z.pow_1_r by lia.
  assert (0 < 2 ^ k) by (apply Z.pow_pos_nonneg; lia).
  destruct m as [|[p|p|]|p]; simpl shr_m; try lia.
  all: split; lia.
Qed.

Lemma iter_shr_1_halved p : forall k mrs,
  0 <= k -> halved k mrs -> halved (k + Z.pos p) (iter_pos shr_1 p mrs).
Proof.
  induction p as [p IH | p IH |]; intros k mrs Hk H; simpl.
  - replace (k + Z.pos p~1) with (k + 1 + Z.pos p + Z.pos p) by lia.
    apply IH; [lia|]. apply IH; [lia|]. now apply shr_1_halved.
  - replace (k + Z.pos p~0) with (k + Z.pos p + Z.pos p) by lia.
    apply IH; [lia|]. now apply IH.
  - now apply shr_1_halved.
Qed.

End Shift.

Lemma shr_fexp_spec (m e : Z) (l : location) :
  0 <= m ->
  let '(mrs, e') := shr_fexp prec emax m e l in
  e' = Z.max e (fexp prec emax (Zdigits2 m + e)) /\
  0 <= shr_m mrs /\ shr_m mrs * 2 ^ (e' - e) <= m.
Proof.
  intros Hm. unfold shr_fexp, shr.
  set (n := fexp prec emax (Zdigits2 m + e) - e).
  assert (Hrec : halved m 0 (shr_record_of_loc m l)).
  { unfold halved. destruct l as [|[]]; simpl; lia. }
  destruct n as [|p|p] eqn:Hn.
  - split; [lia|]. replace (e - e) with 0 by lia. exact Hrec.
  - split; [lia|]. replace (e + Z.pos p - e) with (0 + Z.pos p) by lia.
    apply iter_shr_1_halved; [lia | exact Hrec].
  - split; [lia|]. replace (e - e) with 0 by lia. exact Hrec.
Qed.

Lemma round_nearest_even_bounds m l : m <= round_nearest_even m l <= m + 1.
Proof. destruct l as [|[]]; simpl; try lia. destruct (Z.even m); lia. Qed.

Definition is_finite (x : float) : bool :=
  match x with
  | S754_zero _ | S754_finite _ _ _ => true
  | _ => false
  end.

Lemma pow2_split (x y : Z) : 0 <= y <= x -> 2 ^ x = 2 ^ (x - y) * 2 ^ y.
Proof. intros. rewrite <- Z.pow_add_r by lia. f_equal. lia. Qed.

(** Rounding a value below [2^64] does not overflow. *)
Lemma binary_round_aux_finite s m e l :
  0 <= m -> e <= 0 -> m < 2 ^ (64 - e) ->
  is_finite (binary_round_aux prec emax s m e l) = true.
Proof.
  intros Hm He Hlt. unfold binary_round_aux.
  pose proof (shr_fexp_spec m e l Hm) as H1.
  destruct (shr_fexp prec emax m e l) as [mrs1 e1].
  destruct H1 as (He1 & Hm1 & Hs1).
  assert (Hd : Zdigits2 m <= 64 - e) by (apply Zdigits2_le; lia).
  assert (He1' : e <= e1 <= 11).
  { unfold fexp, emin, prec, emax in He1. lia. }
  assert (Hm1' : shr_m mrs1 < 2 ^ (64 - e1)).
  { rewrite (pow2_split (64 - e) (e1 - e)) in Hlt by lia.
    replace (64 - e - (e1 - e)) with (64 - e1) in Hlt by lia.
    assert (0 < 2 ^ (e1 - e)) by (apply Z.pow_pos_nonneg; lia).
    nia. }
  set (m2 := round_nearest_even (shr_m mrs1) (loc_of_shr_record mrs1)).
  pose proof (round_nearest_even_bounds (shr_m mrs1) (loc_of_shr_record mrs1)) as Hr.
  fold m2 in Hr.
  assert (Hm2 : 0 <= m2) by lia.
  pose proof (shr_fexp_spec m2 e1 loc_Exact Hm2) as H2.
  destruct (shr_fexp prec emax m2 e1 loc_Exact) as [mrs2 e2].
  destruct H2 as (He2 & Hm2' & _).
  assert (Hd2 : Zdigits2 m2 <= 65 - e1).
  { apply Zdigits2_le; [lia|]. split; [lia|].
    replace (65 - e1) with (Z.succ (64 - e1)) by lia.
    rewrite Z.pow_succ_r by lia. lia. }
  assert (e2 <= 12) by (unfold fexp, emin, prec, emax in He2; lia).
  destruct (shr_m mrs2) as [|p|p]; try reflexivity; [|lia].
  replace (e2 <=? emax - prec) with true; [reflexivity|].
  symmetry. apply Z.leb_le. unfold emax, prec. lia.
Qed.

(** A quotient below [2^64] is a finite float. *)
Lemma quotient_finite (a b : Z) :
  0 <= a -> 0 < b -> a < b * 2 ^ 64 -> is_finite (quotient a b) = true.
Proof.
  intros Ha Hb Hab. unfold quotient, SFdiv_core_binary.
  rewrite (Z.abs_eq a), (Z.abs_eq b) by lia.
  set (e := Z.min _ _).
  assert (He : e <= 0) by (subst e; lia).
  assert (Hm : (match 0 - 0 - e with
                | 0 => a
                | Z.pos _ => Z.shiftl a (0 - 0 - e)
                | Z.neg _ => 0
                end) = a * 2 ^ (- e)).
  { replace (0 - 0 - e) with (- e) by lia.
    destruct (- e) as [|p|p] eqn:E; [lia| |lia].
    rewrite Z.shiftl_mul_pow2 by lia. reflexivity. }
  rewrite Hm.
  assert (Hp : 0 < 2 ^ (- e)) by (apply Z.pow_pos_nonneg; lia).
  pose proof (Z_div_mod (a * 2 ^ (- e)) b ltac:(lia)) as Hdm.
  destruct (Z.div_eucl (a * 2 ^ (- e)) b) as [q r].
  destruct Hdm as [Hq Hr].
  apply binary_round_aux_finite; [nia | exact He |].
  replace (64 - e) with (64 + - e) by lia.
  rewrite Z.pow_add_r by lia. nia.
Qed.

Lemma Zdigits2_eq (m k : Z) : 0 < k -> 2 ^ (k - 1) <= m < 2 ^ k -> Zdigits2 m = k.
Proof.
  intros Hk [Hlo Hhi].
  assert (0 < 2 ^ (k - 1)) by (apply Z.pow_pos_nonneg; lia).
  pose proof (Zdigits2_le m k ltac:(lia) ltac:(lia)) as Hle.
  destruct m as [|p|p]; try lia. simpl in *.
  pose proof (digits2_pos_bounds p) as [_ Hup].
  destruct (Z_lt_le_dec (Z.pos (digits2_pos p)) k) as [Hlt|]; [|lia].
  assert (2 ^ Z.pos (digits2_pos p) <= 2 ^ (k - 1)) by (apply Z.pow_le_mono_r; lia).
  lia.
Qed.

Lemma compare_scale (k a b : Z) : 0 < k -> (k * a ?= k * b) = (a ?= b).
Proof.
  intros Hk.
  destruct (Z.compare_spec a b), (Z.compare_spec (k * a) (k * b));
    try reflexivity; nia.
Qed.

Lemma round_half_even_scale (k x den : Z) :
  0 < k -> 0 < den -> round_half_even (k * x) (k * den) = round_half_even x den.
Proof.
  intros Hk Hd. unfold round_half_even.
  rewrite Z.div_mul_cancel_l by lia.
  rewrite Z.mul_mod_distr_l by lia.
  replace (2 * (k * (x mod den))) with (k * (2 * (x mod den))) by lia.
  rewrite compare_scale by lia. reflexivity.
Qed.

(** The quotient by 1024 of an integer below 2^53 is exact. *)
Lemma quotient_1024 (p : positive) :
  Z.pos p < 2 ^ 53 ->
  exists m e,
    quotient (Z.pos p) 1024 = S754_finite false m e /\
    e < 0 /\ Z.pos m * 1024 = Z.pos p * 2 ^ (- e) /\ 10 <= - e.
Proof.
  intros Hp.
  pose proof (digits2_pos_bounds p) as [Hlo Hhi].
  set (d := Z.pos (digits2_pos p)) in *.
  assert (Hd : 1 <= d <= 53).
  { split; [subst d; lia|].
    destruct (Z_le_gt_dec d 53); [assumption|].
    assert (2 ^ 53 <= 2 ^ (d - 1)) by (apply Z.pow_le_mono_r; lia). lia. }
  assert (Hk : 0 < 2 ^ (53 - d)) by (apply Z.pow_pos_nonneg; lia).
  set (m := Z.pos p * 2 ^ (53 - d)).
  assert (Hm : 2 ^ 52 <= m < 2 ^ 53).
  { subst m. split.
    - replace 52 with ((d - 1) + (53 - d)) by lia. rewrite Z.pow_add_r by lia. nia.
    - replace 53 with (d + (53 - d)) at 2 by lia. rewrite Z.pow_add_r by lia. nia. }
  destruct m as [|pm|pm] eqn:Em; try lia.
  exists pm, (d - 63).
  split; [|split; [lia|split; [|lia]]].
  - unfold quotient, SFdiv_core_binary.
    change (Z.abs (Z.pos p)) with (Z.pos p). change (Z.abs 1024) with 1024.
    change (Zdigits2 (Z.pos p)) with d. change (Zdigits2 1024) with 11.
    replace (Z.min (fexp prec emax (d + 0 - (11 + 0))) (0 - 0)) with (d - 64)
      by (unfold fexp, emin, prec, emax; lia).
    replace (0 - 0 - (d - 64)) with (64 - d) by lia.
    assert (Hs : (match 64 - d with
                  | 0 => Z.pos p
                  | Z.pos _ => Z.shiftl (Z.pos p) (64 - d)
                  | Z.neg _ => 0
                  end) = Z.pos (pm~0) * 1024).
    { destruct (64 - d) as [|s|s] eqn:Es; try lia.
      rewrite Z.shiftl_mul_pow2 by lia. rewrite <- Es.
      replace (64 - d) with ((53 - d) + 11) by lia.
      rewrite Z.pow_add_r by lia. rewrite (Pos2Z.inj_xO pm).
      change (2 ^ 11) with 2048. rewrite Z.mul_assoc.
      unfold m in Em. rewrite Em. lia. }
    rewrite Hs.
    assert (Hdiv : Z.div_eucl (Z.pos pm~0 * 1024) 1024 = (Z.pos pm~0, 0)).
    { pose proof (Z.div_mul (Z.pos pm~0) 1024 ltac:(lia)) as Hq.
      pose proof (Z.mod_mul (Z.pos pm~0) 1024 ltac:(lia)) as Hr.
      unfold Z.div, Z.modulo in Hq, Hr.
      destruct (Z.div_eucl (Z.pos pm~0 * 1024) 1024) as [q r].
      simpl in Hq, Hr. congruence. }
    rewrite Hdiv.
    change (new_location 1024 0) with loc_Exact.
    unfold binary_round_aux, shr_fexp.
    assert (Hdq : Zdigits2 (Z.pos pm~0) = 54).
    { apply Zdigits2_eq; [lia|]. rewrite (Pos2Z.inj_xO pm).
      change (2 ^ (54 - 1)) with (2 * 2 ^ 52). change (2 ^ 54) with (2 * 2 ^ 53). lia. }
    rewrite Hdq.
    replace (fexp prec emax (54 + (d - 64)) - (d - 64)) with 1
      by (unfold fexp, emin, prec, emax; lia).
    cbn [shr shr_record_of_loc iter_pos shr_1 shr_m loc_of_shr_record
         round_nearest_even xorb orb Z.ltb Z.compare].
    assert (Hdm : Zdigits2 (Z.pos pm) = 53) by (apply Zdigits2_eq; lia).
    rewrite Hdm.
    replace (fexp prec emax (53 + (d - 64 + 1)) - (d - 64 + 1)) with 0
      by (unfold fexp, emin, prec, emax; lia).
    cbn [shr shr_record_of_loc shr_m].
    replace (d - 64 + 1 <=? emax - prec) with true
      by (symmetry; apply Z.leb_le; unfold emax, prec; lia).
    f_equal. lia.
  - replace (- (d - 63)) with ((53 - d) + 10) by lia.
    rewrite Z.pow_add_r by lia. change (2 ^ 10) with 1024. lia.
Qed.

(** Two decimals of the quotient by 1024, below [2^53]: the decimal
    rounding of the exact quotient. *)
Lemma format_quotient_1024 (a : Z) :
  0 <= a < 2 ^ 53 ->
  format_f 2 (quotient a 1024) = fixed_text false (round_half_even (a * 100) 1024) 2.
Proof.
  intros [Ha Hlt]. destruct a as [|p|p]; [reflexivity | | lia].
  destruct (quotient_1024 p Hlt) as (m & e & Hq & He & Hme & He10).
  rewrite Hq. unfold format_f.
  replace (0 <=? e) with false by (symmetry; apply Z.leb_gt; lia).
  change (10 ^ Z.of_nat 2) with 100.
  f_equal.
  set (k := 2 ^ (- e - 10)).
  assert (Hk : 0 < k) by (apply Z.pow_pos_nonneg; lia).
  assert (Hden : 2 ^ (- e) = k * 1024).
  { subst k. change 1024 with (2 ^ 10). rewrite <- Z.pow_add_r by lia.
    f_equal. lia. }
  assert (Hnum : Z.pos m = k * Z.pos p).
  { rewrite Hden in Hme. lia. }
  rewrite Hden, Hnum.
  replace (k * Z.pos p * 100) with (k * (Z.pos p * 100)) by lia.
  apply round_half_even_scale; lia.
Qed.

(** The division of the script's two kinds returns. *)
Lemma int_truediv_ok (a b : Z) :
  0 <= a -> 0 < b -> a < b * 2 ^ 64 ->
  int_truediv a b = Ok (quotient a b).
Proof.
  intros Ha Hb Hab. unfold int_truediv.
  replace (b =? 0) with false by (symmetry; apply Z.eqb_neq; lia).
  pose proof (quotient_finite a b Ha Hb Hab) as Hf.
  destruct (quotient a b); simpl in Hf; try reflexivity; discriminate.
Qed.

Lemma int_truediv_zero (a : Z) :
  int_truediv a 0 = Raise (Exn ZeroDivisionError "division by zero").
Proof. reflexivity. Qed.

End FloatFacts.

(** ** The JSON decoder *)

Module JsonFacts.

Import Json.

Lemma skip_ws_length (s : string) : (String.length (skip_ws s) <= String.length s)%nat.
Proof.
  induction s as [|c s IH]; simpl; [lia|].
  destruct (is_ws c); simpl; lia.
Qed.

Lemma strip_prefix_length (p : string) : forall s r,
  strip_prefix p s = Some r -> (String.length r + String.length p = String.length s)%nat.
Proof.
  induction p as [|a p IH]; intros s r; simpl.
  - intros [= ->]. lia.
  - destruct s as [|b s]; [discriminate|].
    destruct (Ascii.eqb a b); [|discriminate].
    intros H. apply IH in H. simpl. lia.
Qed.

Lemma span_digits_length (s : string) : forall ds r,
  span_digits s = (ds, r) -> (String.length ds + String.length r = String.length s)%nat.
Proof.
  induction s as [|c s IH]; intros ds r; simpl.
  - intros [= <- <-]. reflexivity.
  - destruct (is_digit c).
    + destruct (span_digits s) as [ds' r'] eqn:E. intros [= <- <-].
      specialize (IH _ _ eq_refl). simpl. lia.
    + intros [= <- <-]. reflexivity.
Qed.

Lemma prepend_some (pre : string) (x : option (string * string)) body r :
  prepend pre x = Some (body, r) -> exists body', x = Some (body', r).
Proof.
  destruct x as [[b r']|]; simpl; [|discriminate].
  intros [= _ <-]. now exists b.
Qed.

Lemma scan_string_length (s : string) : forall skip body r,
  scan_string skip s = Some (body, r) -> (String.length r < String.length s)%nat.
Proof.
  induction s as [|c s IH]; intros skip body r; simpl; [discriminate|].
  assert (Hrec : forall k pre, prepend pre (scan_string k s) = Some (body, r) ->
                   (String.length r < S (String.length s))%nat).
  { intros k pre H. apply prepend_some in H as (b' & H). apply IH in H. lia. }
  destruct skip as [|k].
  - destruct (Nat.eqb (nat_of_ascii c) 34); [intros [= _ <-]; lia|].
    destruct (Nat.eqb (nat_of_ascii c) 92).
    + destruct s as [|e s']; [discriminate|].
      destruct (simple_escape e); [apply Hrec|].
      destruct (Nat.eqb (nat_of_ascii e) 117); [|discriminate].
      destruct s' as [|h1 [|h2 [|h3 [|h4 s'']]]]; try discriminate.
      destruct (hex4 h1 h2 h3 h4) as [cp|]; [|discriminate].
      destruct (if is_high_surrogate cp then low_surrogate_escape s'' else None)
        as [[lo rest]|]; apply Hrec.
    + destruct (Nat.ltb (nat_of_ascii c) 32); [discriminate | apply Hrec].
  - intros H. apply IH in H. lia.
Qed.

Lemma scan_sign_length (s : string) :
  (String.length (snd (scan_sign s)) <= String.length s)%nat.
Proof.
  unfold scan_sign. destruct (strip_prefix "-" s) as [r|] eqn:E; simpl; [|lia].
  apply strip_prefix_length in E. lia.
Qed.

Lemma scan_int_length (s ds r : string) :
  scan_int s = (ds, r) -> ds <> "" -> (String.length r < String.length s)%nat.
Proof.
  unfold scan_int. destruct (strip_prefix "0" s) as [r0|] eqn:E.
  - intros [= <- <-] _. apply strip_prefix_length in E. simpl in E. lia.
  - intros H Hne. apply span_digits_length in H.
    destruct ds; [congruence | simpl in H; lia].
Qed.

Lemma scan_frac_length (s : string) :
  (String.length (snd (scan_frac s)) <= String.length s)%nat.
Proof.
  unfold scan_frac. destruct (strip_prefix "." s) as [r|] eqn:E; simpl; [|lia].
  apply strip_prefix_length in E.
  destruct (span_digits r) as [fd r'] eqn:Ed. apply span_digits_length in Ed.
  destruct (String.eqb fd ""); simpl in *; lia.
Qed.

Lemma scan_exp_length (s : string) :
  (String.length (snd (scan_exp s)) <= String.length s)%nat.
Proof.
  unfold scan_exp. destruct s as [|e r]; simpl; [lia|].
  destruct (Ascii.eqb e "e" || Ascii.eqb e "E")%bool; simpl; [|lia].
  destruct r as [|g r''].
  - simpl. lia.
  - destruct (Ascii.eqb g "+" || Ascii.eqb g "-")%bool.
    + destruct (span_digits r'') as [ed r3] eqn:Ed. apply span_digits_length in Ed.
      destruct (String.eqb ed ""); simpl in *; lia.
    + destruct (span_digits (String g r'')) as [ed r3] eqn:Ed.
      apply span_digits_length in Ed.
      destruct (String.eqb ed ""); simpl in *; lia.
Qed.

Lemma scan_number_length (s : string) v r :
  scan_number s = Some (v, r) -> (String.length r < String.length s)%nat.
Proof.
  unfold scan_number.
  pose proof (scan_sign_length s) as H1.
  destruct (scan_sign s) as [neg s1]. simpl in H1.
  destruct (scan_int s1) as [ds r1] eqn:E2.
  destruct (String.eqb ds "") eqn:Eds; [discriminate|].
  apply String.eqb_neq in Eds.
  pose proof (scan_int_length _ _ _ E2 Eds) as H2.
  pose proof (scan_frac_length r1) as H3.
  destruct (scan_frac r1) as [frac r2]. simpl in H3.
  pose proof (scan_exp_length r2) as H4.
  destruct (scan_exp r2) as [exp r3]. simpl in H4.
  match goal with |- (if ?b then _ else _) = _ -> _ => destruct b end;
    intros H; injection H as Hv Hr; subst r; lia.
Qed.

Lemma elements_length (value : string -> option (json * string)) :
  consuming value ->
  forall k acc s v r,
    elements value k acc s = Some (v, r) -> (String.length r < String.length s)%nat.
Proof.
  intros Hv. induction k as [|k IH]; intros acc s v r; simpl; [discriminate|].
  destruct (value s) as [[x r0]|] eqn:E; [|discriminate].
  apply Hv in E. pose proof (skip_ws_length r0) as Hw.
  destruct (skip_ws r0) as [|c r'] eqn:Er; [discriminate|]. simpl in Hw.
  destruct (Ascii.eqb c "]"); [intros [= _ <-]; lia|].
  destruct (Ascii.eqb c ","); [|discriminate].
  intros H. apply IH in H. pose proof (skip_ws_length r'). lia.
Qed.

Lemma members_length (value : string -> option (json * string)) :
  consuming value ->
  forall k acc s v r,
    members value k acc s = Some (v, r) -> (String.length r < String.length s)%nat.
Proof.
  intros Hv. induction k as [|k IH]; intros acc s v r; cbn [members]; [discriminate|].
  destruct (strip_prefix (String quote_char "") s) as [r0|] eqn:E0; [|discriminate].
  apply strip_prefix_length in E0.
  destruct (scan_string 0 r0) as [[key r1]|] eqn:E1; [|discriminate].
  apply scan_string_length in E1.
  pose proof (skip_ws_length r1) as Hw1.
  destruct (strip_prefix ":" (skip_ws r1)) as [r2|] eqn:E2; [|discriminate].
  apply strip_prefix_length in E2.
  pose proof (skip_ws_length r2) as Hw2.
  destruct (value (skip_ws r2)) as [[x r3]|] eqn:E3; [|discriminate].
  apply Hv in E3. pose proof (skip_ws_length r3) as Hw3.
  destruct (skip_ws r3) as [|c r'] eqn:Er; [discriminate|].
  cbn [String.length] in *.
  destruct (Ascii.eqb c "}"); [intros [= _ <-]; lia|].
  destruct (Ascii.eqb c ","); [|discriminate].
  intros H. apply IH in H. pose proof (skip_ws_length r'). lia.
Qed.

Lemma parse_value_consuming (depth : nat) : consuming (parse_value depth).
Proof.
  induction depth as [|d IH]; intros s v r; cbn [parse_value]; [discriminate|].
  destruct s as [|c rest]; [discriminate|].
  destruct (Ascii.eqb c quote_char).
  { destruct (scan_string 0 rest) as [[str r0]|] eqn:E; [|discriminate].
    apply scan_string_length in E. intros [= _ <-]. cbn [String.length]. lia. }
  pose proof (skip_ws_length rest) as Hw.
  destruct (Ascii.eqb c "[").
  { destruct (skip_ws rest) as [|c' r'] eqn:Er; [discriminate|].
    destruct (Ascii.eqb c' "]"); [intros [= _ <-]; cbn [String.length] in *; lia|].
    intros H. apply (elements_length _ IH) in H. cbn [String.length] in *. lia. }
  destruct (Ascii.eqb c "{").
  { destruct (skip_ws rest) as [|c' r'] eqn:Er; [discriminate|].
    destruct (Ascii.eqb c' "}"); [intros [= _ <-]; cbn [String.length] in *; lia|].
    intros H. apply (members_length _ IH) in H. cbn [String.length] in *. lia. }
  repeat match goal with
  | |- match strip_prefix ?p ?x with _ => _ end = _ -> _ =>
      let E := fresh "E" in
      destruct (strip_prefix p x) eqn:E;
        [apply strip_prefix_length in E; intros [= _ <-];
         cbn [String.length] in *; lia|]
  end.
  apply scan_number_length.
Qed.

(** The bound [k] of the two loops never stops them: above the length of
    the text it does not matter. *)
Lemma elements_bound (value : string -> option (json * string)) :
  consuming value ->
  forall k1 k2 acc s,
    (String.length s < k1)%nat -> (String.length s < k2)%nat ->
    elements value k1 acc s = elements value k2 acc s.
Proof.
  intros Hv. induction k1 as [|k1 IH]; intros k2 acc s H1 H2; [lia|].
  destruct k2 as [|k2]; [lia|]. cbn [elements].
  destruct (value s) as [[x r0]|] eqn:E; [|reflexivity].
  apply Hv in E. pose proof (skip_ws_length r0) as Hw.
  destruct (skip_ws r0) as [|c r']; [reflexivity|]. cbn [String.length] in Hw.
  destruct (Ascii.eqb c "]"); [reflexivity|].
  destruct (Ascii.eqb c ","); [|reflexivity].
  pose proof (skip_ws_length r'). apply IH; lia.
Qed.

Lemma members_bound (value : string -> option (json * string)) :
  consuming value ->
  forall k1 k2 acc s,
    (String.length s < k1)%nat -> (String.length s < k2)%nat ->
    members value k1 acc s = members value k2 acc s.
Proof.
  intros Hv. induction k1 as [|k1 IH]; intros k2 acc s H1 H2; [lia|].
  destruct k2 as [|k2]; [lia|]. cbn [members].
  destruct (strip_prefix (String quote_char "") s) as [r0|] eqn:E0; [|reflexivity].
  apply strip_prefix_length in E0.
  destruct (scan_string 0 r0) as [[key r1]|] eqn:E1; [|reflexivity].
  apply scan_string_length in E1.
  pose proof (skip_ws_length r1) as Hw1.
  destruct (strip_prefix ":" (skip_ws r1)) as [r2|] eqn:E2; [|reflexivity].
  apply strip_prefix_length in E2.
  pose proof (skip_ws_length r2) as Hw2.
  destruct (value (skip_ws r2)) as [[x r3]|] eqn:E3; [|reflexivity].
  apply Hv in E3. pose proof (skip_ws_length r3) as Hw3.
  destruct (skip_ws r3) as [|c r']; [reflexivity|].
  cbn [String.length] in *.
  destruct (Ascii.eqb c "}"); [reflexivity|].
  destruct (Ascii.eqb c ","); [|reflexivity].
  pose proof (skip_ws_length r'). apply IH; lia.
Qed.

(** Two parsers of a value that agree on the texts of length at most [n]
    give the same loops there. *)
Lemma elements_ext (value1 value2 : string -> option (json * string)) (n : nat) :
  consuming value1 ->
  (forall s, (String.length s <= n)%nat -> value1 s = value2 s) ->
  forall k acc s,
    (String.length s <= n)%nat -> elements value1 k acc s = elements value2 k acc s.
Proof.
  intros Hv Heq. induction k as [|k IH]; intros acc s Hs; [reflexivity|].
  cbn [elements]. rewrite <- (Heq s Hs).
  destruct (value1 s) as [[x r0]|] eqn:E; [|reflexivity].
  apply Hv in E. pose proof (skip_ws_length r0) as Hw.
  destruct (skip_ws r0) as [|c r']; [reflexivity|]. cbn [String.length] in Hw.
  destruct (Ascii.eqb c "]"); [reflexivity|].
  destruct (Ascii.eqb c ","); [|reflexivity].
  pose proof (skip_ws_length r'). apply IH; lia.
Qed.

Lemma members_ext (value1 value2 : string -> option (json * string)) (n : nat) :
  consuming value1 ->
  (forall s, (String.length s <= n)%nat -> value1 s = value2 s) ->
  forall k acc s,
    (String.length s <= n)%nat -> members value1 k acc s = members value2 k acc s.
Proof.
  intros Hv Heq. induction k as [|k IH]; intros acc s Hs; [reflexivity|].
  cbn [members].
  destruct (strip_prefix (String quote_char "") s) as [r0|] eqn:E0; [|reflexivity].
  apply strip_prefix_length in E0.
  destruct (scan_string 0 r0) as [[key r1]|] eqn:E1; [|reflexivity].
  apply scan_string_length in E1.
  pose proof (skip_ws_length r1) as Hw1.
  destruct (strip_prefix ":" (skip_ws r1)) as [r2|] eqn:E2; [|reflexivity].
  apply strip_prefix_length in E2.
  pose proof (skip_ws_length r2) as Hw2.
  rewrite <- (Heq (skip_ws r2)) by lia.
  destruct (value1 (skip_ws r2)) as [[x r3]|] eqn:E3; [|reflexivity].
  apply Hv in E3. pose proof (skip_ws_length r3) as Hw3.
  destruct (skip_ws r3) as [|c r']; [reflexivity|].
  cbn [String.length] in *.
  destruct (Ascii.eqb c "}"); [reflexivity|].
  destruct (Ascii.eqb c ","); [|reflexivity].
  pose proof (skip_ws_length r'). apply IH; lia.
Qed.

(** The bound on the nesting never stops the parser either: above the
    length of the text it does not matter. *)
Lemma parse_value_depth (n : nat) : forall s d1 d2,
  (String.length s <= n)%nat ->
  (String.length s < d1)%nat -> (String.length s < d2)%nat ->
  parse_value d1 s = parse_value d2 s.
Proof.
  induction n as [|n IH]; intros s d1 d2 Hn H1 H2;
    (destruct d1 as [|d1]; [lia|]); (destruct d2 as [|d2]; [lia|]);
    cbn [parse_value]; (destruct s as [|c rest]; [reflexivity|]);
    cbn [String.length] in *; [lia|].
  assert (Hsub : forall s', (String.length s' <= String.length rest)%nat ->
                   parse_value d1 s' = parse_value d2 s').
  { intros s' Hs'. apply IH; lia. }
  pose proof (skip_ws_length rest) as Hw.
  destruct (Ascii.eqb c quote_char); [reflexivity|].
  destruct (Ascii.eqb c "[").
  { destruct (skip_ws rest) as [|c' r'] eqn:Er; [reflexivity|].
    destruct (Ascii.eqb c' "]"); [reflexivity|].
    apply (elements_ext _ _ (String.length rest));
      [apply parse_value_consuming | exact Hsub | exact Hw]. }
  destruct (Ascii.eqb c "{"); [|reflexivity].
  destruct (skip_ws rest) as [|c' r'] eqn:Er; [reflexivity|].
  destruct (Ascii.eqb c' "}"); [reflexivity|].
  apply (members_ext _ _ (String.length rest));
    [apply parse_value_consuming | exact Hsub | exact Hw].
Qed.

(** The decoder gives what the parser gives with any bound on the nesting
    above the length of the text. *)
Lemma decode_depth (s : string) (depth : nat) :
  (String.length s < depth)%nat ->
  parse_value depth (skip_ws s) = parse_value (S (String.length s)) (skip_ws s).
Proof.
  intros H. pose proof (skip_ws_length s).
  apply (parse_value_depth (String.length s)); lia.
Qed.

End JsonFacts.

(** ** Computations *)

Local Open Scope list_scope.

Section Computations.

Context {A B : Type}.

Lemma bind_ok (m : M A) (k : A -> M B) t a t' :
  m t = (Ok a, t') -> bind m k t = k a t'.
Proof. intros H. unfold bind. now rewrite H. Qed.

Lemma bind_raise (m : M A) (k : A -> M B) t e t' :
  m t = (Raise e, t') -> bind m k t = (Raise e, t').
Proof. intros H. unfold bind. now rewrite H. Qed.

Lemma bind_print (l : string) (k : unit -> M B) t :
  bind (print l) k t = k tt (t ++ [Printed l]).
Proof. reflexivity. Qed.

Lemma bind_eval_ok (a : A) (k : A -> M B) t : bind (eval (Ok a)) k t = k a t.
Proof. reflexivity. Qed.

Lemma bind_eval_raise (e : exn) (k : A -> M B) t :
  bind (eval (Raise e)) k t = (Raise e, t).
Proof. reflexivity. Qed.

Lemma db_calm (w : World) (c : db_call) (answer : result A) t :
  calm w -> db w c answer t = (answer, t ++ [Called c (raised answer)]).
Proof. intros H. unfold db. now rewrite H. Qed.

Lemma bind_db_calm (w : World) (c : db_call) (a : A) (k : A -> M B) t :
  calm w -> bind (db w c (Ok a)) k t = k a (t ++ [Called c None]).
Proof. intros H. apply bind_ok. now rewrite db_calm. Qed.

End Computations.

Lemma bind_assoc {A B C : Type} (m : M A) (k : A -> M B) (h : B -> M C) t :
  bind (bind m k) h t = bind m (fun a => bind (k a) h) t.
Proof. unfold bind. destruct (m t) as [[a|e] t']; reflexivity. Qed.

Lemma filter_none {X : Type} (f : X -> bool) (xs : list X) :
  Forall (fun x => f x = false) xs -> filter f xs = [].
Proof.
  induction 1 as [|x xs Hx _ IH]; simpl; [reflexivity | now rewrite Hx].
Qed.

Lemma lines_app (t u : trace) : lines (t ++ u) = lines t ++ lines u.
Proof.
  induction t as [|[l|c r] t IH]; simpl; [reflexivity | now rewrite IH | exact IH].
Qed.

Lemma db_calls_app (t u : trace) : db_calls (t ++ u) = db_calls t ++ db_calls u.
Proof.
  induction t as [|[l|c r] t IH]; simpl; [reflexivity | exact IH | now rewrite IH].
Qed.

Lemma for_each_prints {X : Type} (f : X -> string) (xs : list X) t :
  for_each xs (fun x => print (f x)) t = (Ok tt, t ++ map (fun x => Printed (f x)) xs).
Proof.
  revert t. induction xs as [|x xs IH]; intros t; simpl.
  - unfold ret. now rewrite app_nil_r.
  - rewrite bind_print, IH, <- app_assoc. reflexivity.
Qed.

Lemma for_each_app {X : Type} (xs ys : list X) (body : X -> M unit) t :
  for_each (xs ++ ys) body t = bind (for_each xs body) (fun _ => for_each ys body) t.
Proof.
  revert t. induction xs as [|x xs IH]; intros t; simpl.
  - reflexivity.
  - unfold bind in *. destruct (body x t) as [[[]|e] t1]; [apply IH | reflexivity].
Qed.

(** *** Computations that make no database call *)

Section Pure.

Context {A B : Type}.

Lemma pure_ret (a : A) : pure (ret a).
Proof. intros t. unfold ret, outcome_of, events_of. simpl. now rewrite app_nil_r. Qed.

Lemma pure_print (l : string) : pure (print l).
Proof. intros t. reflexivity. Qed.

Lemma pure_eval (r : result A) : pure (eval r).
Proof. intros t. unfold eval, outcome_of, events_of. simpl. now rewrite app_nil_r. Qed.

Lemma pure_print_decoded (l : string) : pure (print_decoded l).
Proof.
  intros t. unfold print_decoded, outcome_of, events_of.
  destruct (has_surrogate l); simpl; [now rewrite app_nil_r | reflexivity].
Qed.

Lemma outcome_bind (m : M A) (k : A -> M B) :
  pure m -> (forall a, pure (k a)) ->
  outcome_of (bind m k) =
    match outcome_of m with
    | Ok a => outcome_of (k a)
    | Raise e => Raise e
    end.
Proof.
  intros Hm Hk. unfold outcome_of at 1. unfold bind. rewrite (Hm []). simpl.
  destruct (outcome_of m) as [a|e]; [|reflexivity].
  now rewrite (Hk a).
Qed.

Lemma events_bind (m : M A) (k : A -> M B) :
  pure m -> (forall a, pure (k a)) ->
  events_of (bind m k) =
    events_of m ++ match outcome_of m with
                   | Ok a => events_of (k a)
                   | Raise e => []
                   end.
Proof.
  intros Hm Hk. unfold events_of at 1. unfold bind. rewrite (Hm []). simpl.
  destruct (outcome_of m) as [a|e]; [|now rewrite app_nil_r].
  now rewrite (Hk a).
Qed.

Lemma pure_bind (m : M A) (k : A -> M B) :
  pure m -> (forall a, pure (k a)) -> pure (bind m k).
Proof.
  intros Hm Hk t. rewrite outcome_bind, events_bind by assumption.
  unfold bind. rewrite (Hm t).
  destruct (outcome_of m) as [a|e]; [|now rewrite app_nil_r].
  now rewrite (Hk a), app_assoc.
Qed.

End Pure.

Lemma pure_for_each {X : Type} (xs : list X) (body : X -> M unit) :
  (forall x, pure (body x)) -> pure (for_each xs body).
Proof.
  intros Hb. induction xs as [|x xs IH]; simpl.
  - apply pure_ret.
  - apply pure_bind; [apply Hb | intros _; exact IH].
Qed.

Lemma pure_try_except_all (m handler : M unit) :
  pure m -> pure handler -> pure (try_except_all m handler).
Proof.
  intros Hm Hh t. unfold outcome_of, events_of, try_except_all.
  rewrite (Hm t), (Hm []). simpl.
  destruct (outcome_of m) as [[]|e]; [reflexivity|].
  rewrite (Hh (t ++ events_of m)), (Hh (events_of m)). simpl.
  now rewrite app_assoc.
Qed.

Ltac pure_tac :=
  repeat first
    [ apply pure_print | apply pure_print_decoded | apply pure_eval | apply pure_ret
    | apply pure_bind; [|intros ?] | apply pure_try_except_all ].

Lemma pure_show_colors (w : World) (c : sqlval) : pure (show_colors w c).
Proof.
  unfold show_colors.
  destruct (truthy c && differs_from_empty_array c); [|apply pure_print].
  apply pure_try_except_all.
  - apply pure_bind; [apply pure_eval | intros v].
    apply pure_bind; [apply pure_eval | intros n].
    apply pure_bind; [apply pure_print | intros _].
    destruct (Json.truthy v); [|apply pure_ret].
    pure_tac.
  - pure_tac.
Qed.

Lemma pure_show_record (w : World) (r : Row) : pure (show_record w r).
Proof.
  unfold show_record.
  repeat (apply pure_bind; [first [apply pure_eval | apply pure_print] | intros ?]).
  apply pure_show_colors.
Qed.

Lemma pure_show_records (w : World) (rs : list Row) :
  pure (for_each rs (show_record w)).
Proof. apply pure_for_each. intros r. apply pure_show_record. Qed.

(** ** One record *)

Lemma shown_text (s : string) :
  s <> "" -> s <> "[]" ->
  truthy (SqlText s) && differs_from_empty_array (SqlText s) = true.
Proof.
  intros H1 H2. simpl.
  apply String.eqb_neq in H1. apply String.eqb_neq in H2.
  now rewrite H1, H2.
Qed.

Ltac run_block :=
  cbv beta iota delta
    [show_colors try_except_all bind eval print print_decoded ret slice50].

(** The colours are absent: the value is [NULL], the empty text or zero. *)
Lemma show_colors_absent (w : World) (c : sqlval) t :
  truthy c = false ->
  show_colors w c t = (Ok tt, t ++ [Printed "  颜色数据: 无"]).
Proof. intros H. unfold show_colors. rewrite H. reflexivity. Qed.

Lemma show_colors_empty_array (w : World) t :
  show_colors w (SqlText "[]") t = (Ok tt, t ++ [Printed "  颜色数据: 无"]).
Proof. reflexivity. Qed.

(** [json.loads] raises, whatever the reason. *)
Lemma show_colors_not_loaded (w : World) (s : string) (e : exn) t :
  s <> "" -> s <> "[]" -> Json.loads (json_limit w) (SqlText s) = Raise e ->
  show_colors w (SqlText s) t =
    (Ok tt, t ++ [Printed ("  颜色数据: " ++ py_prefix 50 s ++ "...")]).
Proof.
  intros H1 H2 He. unfold show_colors. rewrite shown_text by assumption.
  run_block. rewrite He. reflexivity.
Qed.

(** A text that decodes is a text of the grammar. *)
Lemma loads_decode (limit : string -> option exn) (s : string) (v : Json.json) :
  Json.loads limit (SqlText s) = Ok v -> Json.decode s = Ok v.
Proof. unfold Json.loads. destruct (limit s); [discriminate | trivial]. Qed.

(** The text is no JSON document. *)
Lemma show_colors_malformed (w : World) (s : string) (e : exn) t :
  s <> "" -> s <> "[]" -> Json.decode s = Raise e ->
  show_colors w (SqlText s) t =
    (Ok tt, t ++ [Printed ("  颜色数据: " ++ py_prefix 50 s ++ "...")]).
Proof.
  intros H1 H2 He.
  destruct (Json.loads (json_limit w) (SqlText s)) as [v|e'] eqn:Hl.
  - apply loads_decode in Hl. congruence.
  - now apply (show_colors_not_loaded w s e').
Qed.

(** The text is a JSON document of a type without a length. *)
Lemma show_colors_no_len (w : World) (s : string) (v : Json.json) (e : exn) t :
  s <> "" -> s <> "[]" -> Json.loads (json_limit w) (SqlText s) = Ok v ->
  Json.len v = Raise e ->
  show_colors w (SqlText s) t =
    (Ok tt, t ++ [Printed ("  颜色数据: " ++ py_prefix 50 s ++ "...")]).
Proof.
  intros H1 H2 Hv He. unfold show_colors. rewrite shown_text by assumption.
  run_block. rewrite Hv, He. reflexivity.
Qed.

(** The text is an empty JSON array, object or string (and not the two
    characters of the empty array). *)
Lemma show_colors_empty (w : World) (s : string) (v : Json.json) t :
  s <> "" -> s <> "[]" -> Json.loads (json_limit w) (SqlText s) = Ok v ->
  Json.len v = Ok O -> Json.truthy v = false ->
  show_colors w (SqlText s) t = (Ok tt, t ++ [Printed ("  颜色数量: " ++ str_of_nat 0)]).
Proof.
  intros H1 H2 Hv Hn Ht. unfold show_colors. rewrite shown_text by assumption.
  run_block. rewrite Hv, Hn, Ht. reflexivity.
Qed.

(** The text is a JSON array that starts with an object: the number of
    entries, then the [hex] of the object, or the raw text when standard
    output cannot take that line. *)
Lemma show_colors_object (w : World) (s : string) d rest t :
  s <> "" -> s <> "[]" ->
  Json.loads (json_limit w) (SqlText s) = Ok (Json.JList (Json.JDict d :: rest)) ->
  show_colors w (SqlText s) t =
    (Ok tt,
     t ++ [Printed (count_line (S (List.length rest)));
           Printed (if has_surrogate (hex_line w d) then fallback_line s
                    else hex_line w d)]).
Proof.
  intros H1 H2 Hv. unfold show_colors. rewrite shown_text by assumption.
  run_block. rewrite Hv. cbn [Json.len Json.truthy Json.getitem0 Json.get List.length].
  unfold hex_line, fallback_line, count_line.
  destruct (Json.dict_get "hex" d); cbn [Json.str];
    match goal with
    | |- context [has_surrogate ?l] => destruct (has_surrogate l)
    end; now rewrite <- app_assoc.
Qed.

(** The text is a JSON document with a length and a first entry that has no
    [get]: the number of entries is printed, then the raw text. *)
Lemma show_colors_no_get (w : World) (s : string) (v first : Json.json) n e t :
  s <> "" -> s <> "[]" -> Json.loads (json_limit w) (SqlText s) = Ok v ->
  Json.len v = Ok n -> Json.truthy v = true ->
  Json.getitem0 v = Ok first -> Json.get first "hex" (Json.JStr "N/A") = Raise e ->
  show_colors w (SqlText s) t =
    (Ok tt,
     t ++ [Printed ("  颜色数量: " ++ str_of_nat n);
           Printed ("  颜色数据: " ++ py_prefix 50 s ++ "...")]).
Proof.
  intros H1 H2 Hv Hn Ht Hf He. unfold show_colors. rewrite shown_text by assumption.
  run_block. rewrite Hv, Hn, Ht, Hf, He. now rewrite <- app_assoc.
Qed.

(** The text is a JSON document with a length and no entry 0 (an object
    that is not empty): the number of entries is printed, then the raw
    text. *)
Lemma show_colors_no_item (w : World) (s : string) (v : Json.json) n e t :
  s <> "" -> s <> "[]" -> Json.loads (json_limit w) (SqlText s) = Ok v ->
  Json.len v = Ok n -> Json.truthy v = true -> Json.getitem0 v = Raise e ->
  show_colors w (SqlText s) t =
    (Ok tt,
     t ++ [Printed ("  颜色数量: " ++ str_of_nat n);
           Printed ("  颜色数据: " ++ py_prefix 50 s ++ "...")]).
Proof.
  intros H1 H2 Hv Hn Ht Hf. unfold show_colors. rewrite shown_text by assumption.
  run_block. rewrite Hv, Hn, Ht, Hf. now rewrite <- app_assoc.
Qed.

(** A number other than zero: [json.loads] refuses it, and so does the
    slice of the handler. *)
Lemma show_colors_number (w : World) (z : Z) t :
  z <> 0 ->
  show_colors w (SqlInt z) t =
    (Raise (Exn TypeError "'int' object is not subscriptable"), t).
Proof.
  intros Hz. unfold show_colors, truthy, differs_from_empty_array.
  apply Z.eqb_neq in Hz. rewrite Hz. reflexivity.
Qed.

(** A text never makes the block raise. *)
Lemma show_colors_text_ok (w : World) (s : string) :
  outcome_of (show_colors w (SqlText s)) = Ok tt.
Proof.
  unfold outcome_of, show_colors.
  destruct (truthy (SqlText s) && differs_from_empty_array (SqlText s)); [|reflexivity].
  run_block. destruct (Json.loads (json_limit w) (SqlText s)) as [v|e]; [|reflexivity].
  destruct (Json.len v) as [n|e]; [|reflexivity].
  destruct (Json.truthy v); [|reflexivity].
  destruct (Json.getitem0 v) as [x|e]; [|reflexivity].
  destruct (Json.get x "hex" (Json.JStr "N/A")) as [h|e]; [|reflexivity].
  destruct (has_surrogate ("  主色调: " ++ Json.str (py_repr w) h)); reflexivity.
Qed.

Lemma show_colors_outcome (w : World) (c : sqlval) :
  outcome_of (show_colors w c) = Ok tt \/
  exists e, outcome_of (show_colors w c) = Raise e /\ ordinary e = true.
Proof.
  destruct c as [|z|s].
  - left. reflexivity.
  - destruct (Z.eq_dec z 0) as [->|Hz]; [left; reflexivity|].
    right. eexists. unfold outcome_of. rewrite show_colors_number by assumption.
    split; reflexivity.
  - left. apply show_colors_text_ok.
Qed.

(** Every line of the block starts with two spaces. *)
Lemma show_colors_indented (w : World) (c : sqlval) :
  Forall (fun l => indented l = true) (lines (events_of (show_colors w c))).
Proof.
  unfold events_of, show_colors.
  destruct (truthy c && differs_from_empty_array c);
    [|repeat constructor].
  cbv beta iota delta [try_except_all bind eval print print_decoded ret].
  destruct (Json.loads (json_limit w) c) as [v|e].
  - destruct (Json.len v) as [n|e].
    + destruct (Json.truthy v).
      * destruct (Json.getitem0 v) as [x|e].
        -- destruct (Json.get x "hex" (Json.JStr "N/A")) as [h|e].
           ++ destruct (has_surrogate ("  主色调: " ++ Json.str (py_repr w) h)).
              ** destruct (slice50 c); repeat constructor.
              ** repeat constructor.
           ++ destruct (slice50 c); repeat constructor.
        -- destruct (slice50 c); repeat constructor.
      * repeat constructor.
    + destruct (slice50 c); repeat constructor.
  - destruct (slice50 c); repeat constructor.
Qed.

Lemma indented_plain (l : string) : indented l = true -> plain l = true.
Proof.
  unfold indented. intros H.
  destruct l as [|a [|b l]]; cbn [starts_with] in H.
  - discriminate.
  - apply andb_true_iff in H as [_ H]. discriminate.
  - apply andb_true_iff in H as [Ha H]. apply andb_true_iff in H as [Hb _].
    apply Ascii.eqb_eq in Ha. apply Ascii.eqb_eq in Hb. subst a b. reflexivity.
Qed.

Lemma plain_not_file_line (l : string) : plain l = true -> is_file_line l = false.
Proof.
  unfold plain. intros H. apply andb_true_iff in H as [H _].
  now apply negb_true_iff in H.
Qed.

Lemma plain_not_rates_header (l : string) : plain l = true -> l <> rates_header.
Proof.
  unfold plain. intros H. apply andb_true_iff in H as [_ H].
  apply negb_true_iff in H. now apply String.eqb_neq in H.
Qed.

(** No line of the block is the first line of a record. *)
Lemma show_colors_lines (w : World) (c : sqlval) :
  Forall (fun l => is_file_line l = false) (lines (events_of (show_colors w c))).
Proof.
  eapply Forall_impl; [|apply show_colors_indented].
  intros l H. now apply plain_not_file_line, indented_plain.
Qed.

Lemma time_text_ordinary (w : World) (v : sqlval) (e : exn) :
  time_text w v = Raise e -> ordinary e = true.
Proof.
  unfold time_text, Datetime.fromtimestamp.
  destruct v as [|z|s]; try (intros [= <-]; reflexivity).
  destruct (utc_offset w z) as [off|]; [|intros [= <-]; reflexivity].
  destruct (Datetime.civil_from_days ((z + off) / 86400)) as [[y m] d].
  destruct ((1 <=? y) && (y <=? 9999)); [discriminate|].
  intros [= <-]. reflexivity.
Qed.

Lemma show_record_timed (w : World) (r : Row) (c u : string) t :
  time_text w (created_at r) = Ok c -> time_text w (updated_at r) = Ok u ->
  show_record w r t = show_colors w (colors r) (t ++ record_head r c u).
Proof.
  intros Hc Hu. unfold show_record. rewrite Hc, Hu.
  rewrite !bind_eval_ok, !bind_print. unfold record_head.
  repeat rewrite <- app_assoc. reflexivity.
Qed.

Lemma show_record_bad_created (w : World) (r : Row) (e : exn) t :
  time_text w (created_at r) = Raise e -> show_record w r t = (Raise e, t).
Proof. intros H. unfold show_record. rewrite H. reflexivity. Qed.

Lemma show_record_bad_updated (w : World) (r : Row) (c : string) (e : exn) t :
  time_text w (created_at r) = Ok c -> time_text w (updated_at r) = Raise e ->
  show_record w r t = (Raise e, t).
Proof. intros Hc H. unfold show_record. rewrite Hc, H. reflexivity. Qed.

Lemma show_record_timed_outcome (w : World) (r : Row) (c u : string) :
  time_text w (created_at r) = Ok c -> time_text w (updated_at r) = Ok u ->
  outcome_of (show_record w r) = outcome_of (show_colors w (colors r)).
Proof.
  intros Hc Hu. unfold outcome_of at 1.
  rewrite (show_record_timed w r c u) by assumption.
  now rewrite (pure_show_colors w (colors r)).
Qed.

Lemma show_record_timed_events (w : World) (r : Row) (c u : string) :
  time_text w (created_at r) = Ok c -> time_text w (updated_at r) = Ok u ->
  events_of (show_record w r) =
    record_head r c u ++ events_of (show_colors w (colors r)).
Proof.
  intros Hc Hu. unfold events_of at 1.
  rewrite (show_record_timed w r c u) by assumption.
  now rewrite (pure_show_colors w (colors r)).
Qed.

(** Whatever a record raises is an ordinary exception. *)
Lemma show_record_outcome (w : World) (r : Row) :
  outcome_of (show_record w r) = Ok tt \/
  exists e, outcome_of (show_record w r) = Raise e /\ ordinary e = true.
Proof.
  destruct (time_text w (created_at r)) as [c|e] eqn:Hc.
  - destruct (time_text w (updated_at r)) as [u|e] eqn:Hu.
    + rewrite (show_record_timed_outcome w r c u) by assumption.
      apply show_colors_outcome.
    + unfold outcome_of. rewrite (show_record_bad_updated w r c e) by assumption.
      right. exists e. split; [reflexivity | eapply time_text_ordinary; eassumption].
  - unfold outcome_of. rewrite (show_record_bad_created w r e) by assumption.
    right. exists e. split; [reflexivity | eapply time_text_ordinary; eassumption].
Qed.

Lemma well_formed_times (w : World) (r : Row) :
  well_formed w r = true ->
  exists c u, time_text w (created_at r) = Ok c /\ time_text w (updated_at r) = Ok u.
Proof.
  unfold well_formed. intros H.
  apply andb_true_iff in H as [H _]. apply andb_true_iff in H as [Hc Hu].
  destruct (time_text w (created_at r)) as [c|]; [|discriminate].
  destruct (time_text w (updated_at r)) as [u|]; [|discriminate].
  now exists c, u.
Qed.

Lemma well_formed_outcome (w : World) (r : Row) :
  well_formed w r = true -> outcome_of (show_record w r) = Ok tt.
Proof.
  intros H. destruct (well_formed_times w r H) as (c & u & Hc & Hu).
  rewrite (show_record_timed_outcome w r c u) by assumption.
  unfold well_formed in H. apply andb_true_iff in H as [_ H].
  destruct (colors r) as [|z|s].
  - reflexivity.
  - apply Z.eqb_eq in H. subst z. reflexivity.
  - apply show_colors_text_ok.
Qed.

(** A record that is well formed starts with its four lines. *)
Lemma well_formed_events (w : World) (r : Row) :
  well_formed w r = true ->
  exists c u,
    time_text w (created_at r) = Ok c /\ time_text w (updated_at r) = Ok u /\
    events_of (show_record w r) =
      record_head r c u ++ events_of (show_colors w (colors r)).
Proof.
  intros H. destruct (well_formed_times w r H) as (c & u & Hc & Hu).
  exists c, u. repeat split; try assumption.
  now apply show_record_timed_events.
Qed.

(** ** The loop over the recent records *)

Lemma outcome_for_each_cons {X : Type} (x : X) (xs : list X) (body : X -> M unit) :
  (forall y, pure (body y)) ->
  outcome_of (for_each (x :: xs) body) =
    match outcome_of (body x) with
    | Ok _ => outcome_of (for_each xs body)
    | Raise e => Raise e
    end.
Proof.
  intros Hb. simpl for_each.
  rewrite outcome_bind; [reflexivity | apply Hb | intros _; now apply pure_for_each].
Qed.

Lemma events_for_each_cons {X : Type} (x : X) (xs : list X) (body : X -> M unit) :
  (forall y, pure (body y)) ->
  events_of (for_each (x :: xs) body) =
    events_of (body x) ++ match outcome_of (body x) with
                          | Ok _ => events_of (for_each xs body)
                          | Raise e => []
                          end.
Proof.
  intros Hb. simpl for_each.
  rewrite events_bind; [reflexivity | apply Hb | intros _; now apply pure_for_each].
Qed.

(** When every record is well formed the loop runs to its end. *)
Lemma show_records_complete (w : World) (rs : list Row) :
  forallb (well_formed w) rs = true ->
  outcome_of (for_each rs (show_record w)) = Ok tt /\
  events_of (for_each rs (show_record w)) =
    flat_map (fun r => events_of (show_record w r)) rs.
Proof.
  induction rs as [|r rs IH]; intros H.
  - split; reflexivity.
  - simpl in H. apply andb_true_iff in H as [Hr Hrs].
    destruct (IH Hrs) as [IHo IHe].
    rewrite outcome_for_each_cons, events_for_each_cons by apply pure_show_record.
    rewrite (well_formed_outcome w r Hr). split; [exact IHo|].
    simpl flat_map. now rewrite IHe.
Qed.

(** Whatever the loop raises is an ordinary exception. *)
Lemma show_records_outcome (w : World) (rs : list Row) :
  outcome_of (for_each rs (show_record w)) = Ok tt \/
  exists e, outcome_of (for_each rs (show_record w)) = Raise e /\ ordinary e = true.
Proof.
  induction rs as [|r rs IH].
  - left. reflexivity.
  - rewrite outcome_for_each_cons by apply pure_show_record.
    destruct (show_record_outcome w r) as [-> | (e & -> & He)].
    + exact IH.
    + right. now exists e.
Qed.

(** A record whose time does not convert ends the loop: what the loop has
    printed by then is what it prints for the records before that one. *)
Lemma show_records_bad_time (w : World) (pre post : list Row) (bad : Row) :
  is_ok (time_text w (created_at bad)) && is_ok (time_text w (updated_at bad)) = false ->
  (exists e, outcome_of (for_each (pre ++ bad :: post) (show_record w)) = Raise e
             /\ ordinary e = true) /\
  events_of (for_each (pre ++ bad :: post) (show_record w)) =
    events_of (for_each pre (show_record w)).
Proof.
  intros Hbad.
  assert (Hb : exists e, show_record w bad = (fun t => (Raise e, t)) /\ ordinary e = true).
  { destruct (time_text w (created_at bad)) as [c|e] eqn:Hc.
    - destruct (time_text w (updated_at bad)) as [u|e] eqn:Hu; [discriminate|].
      exists e. split; [|eapply time_text_ordinary; eassumption].
      unfold show_record. rewrite Hc, Hu. reflexivity.
    - exists e. split; [|eapply time_text_ordinary; eassumption].
      unfold show_record. rewrite Hc. reflexivity. }
  destruct Hb as (e & Hb & He).
  unfold outcome_of, events_of.
  rewrite for_each_app. unfold bind at 1 2.
  rewrite (pure_show_records w pre []). simpl app.
  destruct (show_records_outcome w pre) as [-> | (e' & -> & He')].
  - simpl for_each. unfold bind. rewrite Hb. simpl. split; [now exists e | reflexivity].
  - simpl. split; [now exists e' | reflexivity].
Qed.

Lemma record_head_file_lines (r : Row) (c u : string) :
  filter is_file_line (lines (record_head r c u)) = [file_line r].
Proof. reflexivity. Qed.

(** The first lines of records the loop prints are those of the first [j]
    records, for some [j]: all of them when the loop runs to its end. *)
Lemma show_records_file_lines (w : World) (rs : list Row) :
  exists j,
    filter is_file_line (lines (events_of (for_each rs (show_record w)))) =
      map file_line (firstn j rs) /\
    (outcome_of (for_each rs (show_record w)) = Ok tt -> j = List.length rs).
Proof.
  induction rs as [|r rs (j & IHl & IHj)].
  - exists O. split; reflexivity.
  - rewrite outcome_for_each_cons, events_for_each_cons by apply pure_show_record.
    destruct (time_text w (created_at r)) as [c|e] eqn:Hc;
      [destruct (time_text w (updated_at r)) as [u|e] eqn:Hu|].
    + pose proof (show_record_timed_events w r c u Hc Hu) as He.
      pose proof (show_record_timed_outcome w r c u Hc Hu) as Ho.
      assert (Hf : filter is_file_line (lines (events_of (show_record w r))) = [file_line r]).
      { rewrite He, lines_app, filter_app, record_head_file_lines.
        pose proof (show_colors_lines w (colors r)) as Hno.
        replace (filter is_file_line (lines (events_of (show_colors w (colors r)))))
          with (@nil string); [reflexivity|].
        symmetry. apply filter_none. exact Hno. }
      rewrite lines_app, filter_app, Hf, Ho.
      destruct (outcome_of (show_colors w (colors r))) as [[]|e].
      * exists (S j). split; [simpl; now rewrite IHl | intros H; simpl; now rewrite IHj].
      * exists 1%nat. split; [reflexivity | discriminate].
    + exists O. unfold outcome_of, events_of.
      rewrite (show_record_bad_updated w r c e) by assumption.
      split; [reflexivity | discriminate].
    + exists O. unfold outcome_of, events_of.
      rewrite (show_record_bad_created w r e) by assumption.
      split; [reflexivity | discriminate].
Qed.

(** ** The steps before and after the loop *)

Lemma count_status_bounds (st : string) (rows : list Row) :
  0 <= Sql.count_status st rows <= Sql.count_all rows.
Proof.
  unfold Sql.count_status, Sql.count_all.
  pose proof (filter_length_le (fun r => Sql.eqb (status r) (SqlText st)) rows).
  lia.
Qed.

Lemma percent_ok (count total : Z) :
  0 <= count <= total -> 0 < total -> percent count total = Ok (percent_text count total).
Proof.
  intros Hc Ht. unfold percent.
  rewrite FloatFacts.int_truediv_ok; [reflexivity | lia | lia |].
  assert (1 <= 2 ^ 64) by (apply Z.pow_le_mono_r with (a := 2) (b := 0); lia).
  nia.
Qed.

Lemma percent_zero (count : Z) :
  percent count 0 = Raise (Exn ZeroDivisionError "division by zero").
Proof. reflexivity. Qed.

Lemma kib_text_exact (size : Z) :
  0 <= size < 2 ^ 53 ->
  kib_text size =
    Float.fixed_text false (Float.round_half_even (size * 100) 1024) 2.
Proof. apply FloatFacts.format_quotient_1024. Qed.

Lemma kib_ok (size : Z) : 0 <= size < 2 ^ 63 -> kib size = Ok (kib_text size).
Proof.
  intros Hs. unfold kib.
  rewrite FloatFacts.int_truediv_ok; [reflexivity | lia | lia |].
  assert (2 ^ 63 <= 1024 * 2 ^ 64) by (vm_compute; discriminate).
  lia.
Qed.

Lemma for_each_status_lines (groups : list (sqlval * Z)) t :
  for_each groups (fun '(st, count) =>
    print ("  - " ++ py_str st ++ ": " ++ str_of_Z count ++ " 个文件")) t =
  (Ok tt,
   t ++ map (fun '(st, count) =>
               Printed ("  - " ++ py_str st ++ ": " ++ str_of_Z count ++ " 个文件"))
          groups).
Proof.
  revert t. induction groups as [|[st count] groups IH]; intros t; simpl.
  - unfold ret. now rewrite app_nil_r.
  - rewrite bind_print, IH, <- app_assoc. reflexivity.
Qed.

Section Calm.

Variable w : World.
Hypothesis Hcalm : calm w.

Lemma tables_loop_calm (d : Database) (names : list string) t :
  for_each names
    (fun name =>
       print ("  - " ++ name) ;;
       columns <- db w (Execute (Q_table_info name)) (Ok (table_info d name)) ;;
       for_each columns (fun col =>
         print ("    * " ++ col_name col ++ " (" ++ col_type col ++ ")"))) t =
  (Ok tt,
   t ++ flat_map
          (fun name =>
             Printed ("  - " ++ name) :: Called (Execute (Q_table_info name)) None ::
             map (fun col => Printed ("    * " ++ col_name col ++ " (" ++ col_type col ++ ")"))
               (table_info d name)) names).
Proof.
  revert t. induction names as [|name names IH]; intros t; simpl.
  - unfold ret. now rewrite app_nil_r.
  - rewrite bind_assoc, bind_print, bind_assoc, (bind_db_calm w) by assumption.
    erewrite bind_ok by apply for_each_prints.
    rewrite IH. f_equal. rewrite <- !app_assoc. reflexivity.
Qed.

Lemma list_schema_calm (d : Database) t :
  list_schema w d t = (Ok tt, t ++ schema_events d).
Proof.
  unfold list_schema, schema_events.
  rewrite bind_print, (bind_db_calm w) by assumption.
  rewrite tables_loop_calm. f_equal. rewrite <- !app_assoc. reflexivity.
Qed.

Variable db_path : string.
Variable f : File.
Variable rows : list Row.
Hypothesis Hrows : dominant_colors (file_db f) = Some rows.
Hypothesis Hsize : size_fits f.

Lemma select_rows {X : Type} (g : list Row -> X) :
  select (file_db f) g = Ok (g rows).
Proof. unfold select, table_rows. now rewrite Hrows. Qed.

(** Up to the loop. *)
Lemma report_calm t :
  report w db_path f t =
    bind (for_each (Sql.select_recent rows) (show_record w))
      (fun _ => bind (show_rates w (file_db f) (Sql.count_all rows))
                  (fun _ => db w Close (Ok tt)))
      (t ++ preamble db_path f rows).
Proof.
  unfold report, preamble.
  rewrite (bind_db_calm w) by assumption.
  erewrite bind_ok by apply list_schema_calm.
  unfold count_records. rewrite bind_assoc, select_rows, (bind_db_calm w) by assumption.
  rewrite bind_assoc, bind_print. unfold ret at 1. unfold bind at 1.
  unfold count_by_status.
  rewrite bind_assoc, select_rows, (bind_db_calm w), bind_assoc, bind_print by assumption.
  erewrite bind_ok by apply for_each_status_lines.
  unfold show_size. rewrite (kib_ok (file_size f) Hsize).
  rewrite bind_assoc, bind_eval_ok, bind_print.
  unfold show_recent.
  rewrite bind_assoc, bind_print, bind_assoc, select_rows, (bind_db_calm w) by assumption.
  f_equal. rewrite <- !app_assoc. reflexivity.
Qed.

(** The success rate of a table that is not empty. *)
Lemma show_rates_calm t :
  0 < Sql.count_all rows ->
  show_rates w (file_db f) (Sql.count_all rows) t =
    (Ok tt, t ++ rate_queries ++ [Printed rates_header] ++ rate_lines rows).
Proof.
  intros Hn. unfold show_rates, print_rates.
  rewrite !select_rows.
  rewrite !(bind_db_calm w) by assumption.
  rewrite bind_print.
  pose proof (count_status_bounds "extracted" rows).
  pose proof (count_status_bounds "pending" rows).
  pose proof (count_status_bounds "error" rows).
  rewrite !percent_ok by lia.
  rewrite bind_eval_ok, bind_print, bind_eval_ok, bind_print, bind_eval_ok.
  unfold print. f_equal. rewrite <- !app_assoc. reflexivity.
Qed.

(** The success rate of an empty table: the header, then the division
    raises. *)
Lemma show_rates_empty t :
  Sql.count_all rows = 0 ->
  show_rates w (file_db f) (Sql.count_all rows) t =
    (Raise (Exn ZeroDivisionError "division by zero"),
     t ++ rate_queries ++ [Printed rates_header]).
Proof.
  intros Hn. unfold show_rates, print_rates.
  rewrite !select_rows, Hn.
  rewrite !(bind_db_calm w) by assumption.
  rewrite bind_print, percent_zero, bind_eval_raise.
  f_equal. rewrite <- !app_assoc. reflexivity.
Qed.

End Calm.

(** What the block prints for a text that decodes. *)
Lemma show_colors_decoded (w : World) (s : string) (v : Json.json) t :
  s <> "[]" -> Json.loads (json_limit w) (SqlText s) = Ok v ->
  show_colors w (SqlText s) t = (Ok tt, t ++ map Printed (decoded_lines w s v)).
Proof.
  intros Hne Hv.
  assert (Hs : s <> "").
  { intros ->. apply loads_decode in Hv. discriminate Hv. }
  destruct v as [|b|z|x|x|l|d].
  1-4: cbn [decoded_lines map];
       eapply show_colors_no_len; try eassumption; reflexivity.
  - unfold decoded_lines. destruct (String.eqb x "") eqn:Ex.
    + apply String.eqb_eq in Ex. subst x.
      now apply (show_colors_empty w s (Json.JStr "")).
    + cbn [map].
      eapply (show_colors_no_get w s (Json.JStr x) (Json.JStr (py_prefix 1 x)));
        try eassumption; try reflexivity.
      * simpl. now rewrite Ex.
      * simpl. now rewrite Ex.
  - destruct l as [|first rest].
    + now apply (show_colors_empty w s (Json.JList [])).
    + destruct first as [|b|z|x|x|l|entry].
      1-6: cbn [decoded_lines map];
           eapply show_colors_no_get; try eassumption; reflexivity.
      now apply show_colors_object.
  - destruct d as [|item d].
    + now apply (show_colors_empty w s (Json.JDict [])).
    + cbn [decoded_lines map].
      eapply show_colors_no_item; try eassumption; reflexivity.
Qed.

(** ** The order of the recent records *)

Module SqlFacts.

Import Sql.

Lemma ascii_compare_cases (a b : ascii) :
  match Ascii.compare a b with
  | Eq => a = b
  | Lt => (N_of_ascii a < N_of_ascii b)%N
  | Gt => (N_of_ascii b < N_of_ascii a)%N
  end.
Proof.
  destruct (Ascii.compare a b) eqn:E.
  - now apply Ascii.compare_eq_iff.
  - unfold Ascii.compare in E. now apply N.compare_lt_iff.
  - unfold Ascii.compare in E. now apply N.compare_gt_iff.
Qed.

Lemma ascii_compare_refl (a : ascii) : Ascii.compare a a = Eq.
Proof. unfold Ascii.compare. apply N.compare_refl. Qed.

Lemma string_le_trans (a : string) : forall b c,
  String.compare a b <> Gt -> String.compare b c <> Gt -> String.compare a c <> Gt.
Proof.
  induction a as [|x a IH]; intros [|y b] [|z c]; simpl; try congruence.
  pose proof (ascii_compare_cases x y) as Hxy.
  pose proof (ascii_compare_cases y z) as Hyz.
  pose proof (ascii_compare_cases x z) as Hxz.
  destruct (Ascii.compare x y); destruct (Ascii.compare y z);
    destruct (Ascii.compare x z); subst; try congruence; try lia; try apply IH.
Qed.

Lemma compare_antisym (a b : sqlval) : compare a b = CompOpp (compare b a).
Proof.
  destruct a as [|x|x], b as [|y|y]; simpl; try reflexivity.
  - apply Z.compare_antisym.
  - apply String.compare_antisym.
Qed.

Lemma leb_total (a b : sqlval) : leb a b = true \/ leb b a = true.
Proof.
  unfold leb. rewrite (compare_antisym b a).
  destruct (compare a b); simpl; auto.
Qed.

Lemma ltb_false_leb (a b : sqlval) : ltb a b = false -> leb b a = true.
Proof.
  unfold ltb, leb. rewrite (compare_antisym b a).
  destruct (compare a b); simpl; congruence.
Qed.

Lemma ltb_leb (a b : sqlval) : ltb a b = true -> leb a b = true.
Proof. unfold ltb, leb. destruct (compare a b); congruence. Qed.

Lemma leb_trans (a b c : sqlval) :
  leb a b = true -> leb b c = true -> leb a c = true.
Proof.
  unfold leb.
  destruct a as [|x|x], b as [|y|y], c as [|z|z]; simpl; try congruence.
  - destruct (Z.compare_spec x y), (Z.compare_spec y z), (Z.compare_spec x z);
      try congruence; lia.
  - intros Hxy Hyz.
    pose proof (string_le_trans x y z) as H.
    destruct (String.compare x y); destruct (String.compare y z);
      destruct (String.compare x z); try congruence; exfalso; apply H; congruence.
Qed.

Lemma insert_desc_perm (r : Row) (l : list Row) :
  Permutation (r :: l) (insert_desc r l).
Proof.
  induction l as [|e l IH]; simpl.
  - apply Permutation_refl.
  - destruct (ltb (updated_at r) (updated_at e)).
    + eapply Permutation_trans; [apply perm_swap|]. now apply perm_skip.
    + apply Permutation_refl.
Qed.

Lemma order_perm (rows : list Row) :
  Permutation rows (order_by_updated_at_desc rows).
Proof.
  induction rows as [|r rows IH]; simpl.
  - apply perm_nil.
  - eapply Permutation_trans; [|apply insert_desc_perm]. now apply perm_skip.
Qed.

Lemma insert_desc_sorted (r : Row) (l : list Row) :
  StronglySorted before l -> StronglySorted before (insert_desc r l).
Proof.
  induction 1 as [|e l Hs IH Hall]; simpl.
  - repeat constructor.
  - destruct (ltb (updated_at r) (updated_at e)) eqn:E.
    + constructor; [exact IH|].
      apply (Permutation_Forall (insert_desc_perm r l)).
      constructor; [|exact Hall].
      unfold before. now apply ltb_leb.
    + apply ltb_false_leb in E.
      constructor; [now constructor|].
      constructor; [exact E|].
      eapply Forall_impl; [|exact Hall].
      intros x Hx. unfold before in *. eapply leb_trans; eassumption.
Qed.

Lemma order_sorted (rows : list Row) :
  StronglySorted before (order_by_updated_at_desc rows).
Proof.
  induction rows as [|r rows IH]; simpl; [constructor | now apply insert_desc_sorted].
Qed.

Lemma sorted_firstn (n : nat) (l : list Row) :
  StronglySorted before l -> StronglySorted before (firstn n l).
Proof.
  intros H. revert n. induction H as [|e l Hs IH Hall]; intros [|n]; simpl;
    try constructor.
  - apply IH.
  - rewrite Forall_forall in *. intros x Hx. apply Hall.
    rewrite <- (firstn_skipn n l). apply in_or_app. now left.
Qed.

(** The selection: at most five rows, in descending order, the first of
    the whole table in that order. *)
Lemma select_recent_spec (rows : list Row) :
  (List.length (select_recent rows) <= 5)%nat /\
  StronglySorted before (select_recent rows) /\
  exists rest,
    Permutation rows (select_recent rows ++ rest) /\
    StronglySorted before (select_recent rows ++ rest).
Proof.
  unfold select_recent. split; [apply firstn_le_length|].
  split; [apply sorted_firstn, order_sorted|].
  exists (skipn 5 (order_by_updated_at_desc rows)).
  rewrite firstn_skipn. split; [apply order_perm | apply order_sorted].
Qed.

(** A table of fewer than five rows is selected whole. *)
Lemma select_recent_all (rows : list Row) :
  (List.length rows < 5)%nat -> Permutation rows (select_recent rows).
Proof.
  intros H. unfold select_recent. rewrite firstn_all2; [apply order_perm|].
  rewrite <- (Permutation_length (order_perm rows)). lia.
Qed.

End SqlFacts.

(** ** Whole runs *)

Lemma calm_no_fault (content : option (list Row)) : calm (sample_world content no_fault).
Proof. intros n. reflexivity. Qed.

Lemma sample_size_fits (content : option (list Row)) : size_fits (sample_file content).
Proof. split; [discriminate | reflexivity]. Qed.

Section Runs.

Variable w : World.
Variable db_path : string.
Variable f : File.
Variable rows : list Row.
Hypothesis Hfile : fs w db_path = Some f.
Hypothesis Hcalm : calm w.
Hypothesis Hrows : dominant_colors (file_db f) = Some rows.
Hypothesis Hsize : size_fits f.

Let recent := Sql.select_recent rows.
Let loop := for_each recent (show_record w).

Lemma run_unfold :
  run w db_path =
    try_except (report w db_path f) on_database_error on_other_error (banner db_path).
Proof. unfold run, query_colors_db. rewrite Hfile. reflexivity. Qed.

(** The loop runs to its end and the table is not empty: the whole
    report. *)
Lemma run_complete :
  outcome_of loop = Ok tt -> 0 < Sql.count_all rows ->
  run w db_path =
    (Ok tt,
     banner db_path ++ preamble db_path f rows ++ events_of loop ++
     rate_queries ++ [Printed rates_header] ++ rate_lines rows ++
     [Called Close None]).
Proof.
  intros Hloop Hn. rewrite run_unfold. unfold try_except.
  rewrite (report_calm w Hcalm db_path f rows Hrows Hsize).
  fold recent. fold loop. unfold bind at 1.
  rewrite (pure_show_records w recent). fold loop. rewrite Hloop.
  erewrite bind_ok by (apply (show_rates_calm w Hcalm f rows Hrows); exact Hn).
  rewrite db_calm by assumption. simpl raised.
  rewrite <- !app_assoc. reflexivity.
Qed.

(** The loop raises: the report ends there, with the message for errors
    that are not the database's. *)
Lemma run_loop_raises (e : exn) :
  outcome_of loop = Raise e -> ordinary e = true ->
  run w db_path =
    (Ok tt,
     banner db_path ++ preamble db_path f rows ++ events_of loop ++
     [Printed ("未知错误: " ++ exn_msg e)]).
Proof.
  intros Hloop He. rewrite run_unfold. unfold try_except.
  rewrite (report_calm w Hcalm db_path f rows Hrows Hsize).
  fold recent. fold loop. unfold bind at 1.
  rewrite (pure_show_records w recent). fold loop. rewrite Hloop.
  unfold ordinary in He. apply andb_true_iff in He as [He1 He2].
  apply negb_true_iff in He2. rewrite He1, He2.
  unfold on_other_error, print. rewrite <- !app_assoc. reflexivity.
Qed.

(** The table is empty: the report ends at the first percentage. *)
Lemma run_empty :
  rows = [] ->
  run w db_path =
    (Ok tt,
     banner db_path ++ preamble db_path f [] ++ rate_queries ++
     [Printed rates_header; Printed "未知错误: division by zero"]).
Proof.
  intros Hnil. rewrite run_unfold. unfold try_except.
  rewrite (report_calm w Hcalm db_path f rows Hrows Hsize).
  subst rows. simpl for_each. unfold bind at 1. unfold ret at 1.
  erewrite bind_raise
    by (apply (show_rates_empty w Hcalm f [] Hrows); reflexivity).
  cbv beta iota delta [is_sqlite_error is_Exception exn_cls exn_msg on_other_error print].
  rewrite <- !app_assoc. reflexivity.
Qed.

End Runs.

(** ** The lines of a run, by kind *)

Lemma lines_printed {X : Type} (g : X -> string) (xs : list X) :
  lines (map (fun x => Printed (g x)) xs) = map g xs.
Proof. induction xs as [|x xs IH]; simpl; [reflexivity | now rewrite IH]. Qed.

Lemma schema_plain (d : Database) :
  Forall (fun l => plain l = true) (lines (schema_events d)).
Proof.
  unfold schema_events. simpl lines. constructor; [reflexivity|].
  induction (map table_name (tables d)) as [|name names IH]; simpl; [constructor|].
  constructor; [reflexivity|].
  rewrite lines_app. apply Forall_app. split; [|exact IH].
  rewrite lines_printed. apply Forall_map.
  apply Forall_forall. intros col _. reflexivity.
Qed.

Lemma groups_plain (groups : list (sqlval * Z)) :
  Forall (fun l => plain l = true)
    (lines (map (fun '(st, count) =>
                   Printed ("  - " ++ py_str st ++ ": " ++ str_of_Z count ++ " 个文件"))
              groups)).
Proof.
  induction groups as [|[st count] groups IH]; simpl; constructor;
    [reflexivity | exact IH].
Qed.

Lemma preamble_plain (db_path : string) (f : File) (rows : list Row) :
  Forall (fun l => plain l = true) (lines (preamble db_path f rows)).
Proof.
  unfold preamble. rewrite !lines_app. repeat (apply Forall_app; split).
  - constructor.
  - apply schema_plain.
  - repeat constructor.
  - apply groups_plain.
  - repeat constructor.
Qed.

Lemma banner_plain (db_path : string) :
  Forall (fun l => plain l = true) (lines (banner db_path)).
Proof. repeat constructor. Qed.

Lemma rate_lines_plain (rows : list Row) :
  Forall (fun l => plain l = true) (lines (rate_lines rows)).
Proof. repeat constructor. Qed.

Lemma unknown_error_plain (msg : string) : plain ("未知错误: " ++ msg) = true.
Proof. reflexivity. Qed.

Lemma rates_header_not_file_line : is_file_line rates_header = false.
Proof. reflexivity. Qed.

(** The lines of the loop are first lines of records or start with two
    spaces: the header of the success rate is not among them. *)
Lemma show_records_lines (w : World) (rs : list Row) :
  Forall (fun l => l <> rates_header)
    (lines (events_of (for_each rs (show_record w)))).
Proof.
  induction rs as [|r rs IH]; [constructor|].
  rewrite events_for_each_cons by apply pure_show_record.
  rewrite lines_app. apply Forall_app. split.
  - destruct (time_text w (created_at r)) as [c|e] eqn:Hc;
      [destruct (time_text w (updated_at r)) as [u|e] eqn:Hu|].
    + rewrite (show_record_timed_events w r c u Hc Hu), lines_app.
      apply Forall_app. split.
      * repeat constructor; discriminate.
      * eapply Forall_impl; [|apply show_colors_indented].
        intros l H. now apply plain_not_rates_header, indented_plain.
    + unfold events_of. rewrite (show_record_bad_updated w r c e) by assumption.
      constructor.
    + unfold events_of. rewrite (show_record_bad_created w r e) by assumption.
      constructor.
  - destruct (outcome_of (show_record w r)); [exact IH | constructor].
Qed.

Lemma filter_plain (ls : list string) :
  Forall (fun l => plain l = true) ls -> filter is_file_line ls = [].
Proof.
  intros H. apply filter_none. eapply Forall_impl; [|exact H].
  intros l. apply plain_not_file_line.
Qed.

Lemma not_in_plain (ls : list string) :
  Forall (fun l => plain l = true) ls -> ~ In rates_header ls.
Proof.
  intros H Hin. rewrite Forall_forall in H.
  now apply (plain_not_rates_header _ (H _ Hin)).
Qed.

(** The two outcomes of a run on a database that answers: either the whole
    report, or the lines up to a failure followed by the message for it. *)
Lemma run_cases (w : World) (db_path : string) (f : File) (rows : list Row) :
  fs w db_path = Some f -> calm w ->
  dominant_colors (file_db f) = Some rows -> size_fits f ->
  exists rest, run w db_path = (Ok tt, banner db_path ++ preamble db_path f rows ++ rest).
Proof.
  intros Hfile Hcalm Hrows Hsize.
  destruct (show_records_outcome w (Sql.select_recent rows)) as [Hok | (e & He & Hord)].
  - destruct rows as [|r rows'] eqn:E.
    + eexists. now apply (run_empty w db_path f [] Hfile Hcalm Hrows Hsize).
    + eexists. rewrite <- E in *.
      apply (run_complete w db_path f rows Hfile Hcalm Hrows Hsize Hok).
      subst rows. unfold Sql.count_all. simpl List.length. lia.
  - eexists. apply (run_loop_raises w db_path f rows Hfile Hcalm Hrows Hsize e He Hord).
Qed.

(** The first lines of records in the output of a run are those of the
    first [j] recent records, for some [j]: all of them when they are all
    well formed. *)
Lemma run_file_lines (w : World) (db_path : string) (f : File) (rows : list Row) :
  fs w db_path = Some f -> calm w ->
  dominant_colors (file_db f) = Some rows -> size_fits f ->
  exists j,
    filter is_file_line (output w db_path) =
      map file_line (firstn j (Sql.select_recent rows)) /\
    (forallb (well_formed w) (Sql.select_recent rows) = true ->
     j = List.length (Sql.select_recent rows)).
Proof.
  intros Hfile Hcalm Hrows Hsize.
  destruct (show_records_file_lines w (Sql.select_recent rows)) as (j & Hl & Hj).
  exists j. split.
  - unfold output.
    destruct (show_records_outcome w (Sql.select_recent rows)) as [Hok | (e & He & Hord)].
    + destruct rows as [|r rows'] eqn:E.
      * rewrite (run_empty w db_path f [] Hfile Hcalm Hrows Hsize eq_refl).
        cbn [snd]. rewrite !lines_app, !filter_app.
        rewrite (filter_plain _ (banner_plain db_path)).
        rewrite (filter_plain _ (preamble_plain db_path f [])).
        destruct j; reflexivity.
      * rewrite <- E in *.
        rewrite (run_complete w db_path f rows Hfile Hcalm Hrows Hsize Hok)
          by (subst rows; unfold Sql.count_all; simpl List.length; lia).
        cbn [snd]. rewrite !lines_app, !filter_app.
        rewrite (filter_plain _ (banner_plain db_path)).
        rewrite (filter_plain _ (preamble_plain db_path f rows)).
        rewrite (filter_plain _ (rate_lines_plain rows)).
        rewrite Hl. cbn. now rewrite app_nil_r.
    + rewrite (run_loop_raises w db_path f rows Hfile Hcalm Hrows Hsize e He Hord).
      cbn [snd]. rewrite !lines_app, !filter_app.
      rewrite (filter_plain _ (banner_plain db_path)).
      rewrite (filter_plain _ (preamble_plain db_path f rows)).
      rewrite Hl. cbn. now rewrite app_nil_r.
  - intros Hwf. apply Hj. now apply show_records_complete.
Qed.

Lemma in_lines (l : string) (t : trace) : In (Printed l) t -> In l (lines t).
Proof.
  induction t as [|[l'|c r] t IH]; simpl; [tauto | | ].
  - intros [[= ->]|H]; [now left | right; now apply IH].
  - intros [H|H]; [discriminate H | now apply IH].
Qed.

Lemma in_db_calls (c : db_call) (r : option exn) (t : trace) :
  In (Called c r) t -> In c (db_calls t).
Proof.
  induction t as [|[l'|c' r'] t IH]; simpl; [tauto | | ].
  - intros [H|H]; [discriminate H | now apply IH].
  - intros [[= -> _]|H]; [now left | right; now apply IH].
Qed.

(** ** Database calls that raise *)

Lemma clean_printed (ls : list string) : clean (map Printed ls).
Proof. induction ls; constructor; [reflexivity | assumption]. Qed.

Lemma clean_app (t u : trace) : clean t -> clean u -> clean (t ++ u).
Proof. intros Ht Hu. apply Forall_app. now split. Qed.

Section Quiet.

Context {A B : Type}.

Lemma quiet_ret (a : A) : quiet (ret a).
Proof. intros t. exists []. simpl. now rewrite app_nil_r. Qed.

Lemma quiet_print (l : string) : quiet (print l).
Proof. intros t. now exists [l]. Qed.

Lemma quiet_eval (r : result A) : quiet (eval r).
Proof. intros t. exists []. simpl. now rewrite app_nil_r. Qed.

Lemma quiet_print_decoded (l : string) : quiet (print_decoded l).
Proof.
  intros t. unfold print_decoded. destruct (has_surrogate l).
  - exists []. simpl. now rewrite app_nil_r.
  - now exists [l].
Qed.

Lemma quiet_bind (m : M A) (k : A -> M B) :
  quiet m -> (forall a, quiet (k a)) -> quiet (bind m k).
Proof.
  intros Hm Hk t. unfold bind. destruct (Hm t) as (ls & Hls).
  destruct (m t) as [[a|e] t1]; simpl in Hls; subst t1.
  - destruct (Hk a (t ++ map Printed ls)) as (ls' & Hls').
    exists (ls ++ ls'). now rewrite Hls', map_app, app_assoc.
  - now exists ls.
Qed.

End Quiet.

Lemma quiet_try_except_all (m handler : M unit) :
  quiet m -> quiet handler -> quiet (try_except_all m handler).
Proof.
  intros Hm Hh t. unfold try_except_all. destruct (Hm t) as (ls & Hls).
  destruct (m t) as [[[]|e] t1]; simpl in Hls; subst t1.
  - now exists ls.
  - destruct (Hh (t ++ map Printed ls)) as (ls' & Hls').
    exists (ls ++ ls'). now rewrite Hls', map_app, app_assoc.
Qed.

Lemma quiet_for_each {X : Type} (xs : list X) (body : X -> M unit) :
  (forall x, quiet (body x)) -> quiet (for_each xs body).
Proof.
  intros Hb. induction xs as [|x xs IH]; simpl.
  - apply quiet_ret.
  - apply quiet_bind; [apply Hb | intros _; exact IH].
Qed.

Ltac quiet_tac :=
  repeat first
    [ apply quiet_print | apply quiet_print_decoded | apply quiet_eval | apply quiet_ret
    | apply quiet_bind; [|intros ?] | apply quiet_try_except_all ].

Lemma quiet_show_colors (w : World) (c : sqlval) : quiet (show_colors w c).
Proof.
  unfold show_colors.
  destruct (truthy c && differs_from_empty_array c); [|apply quiet_print].
  apply quiet_try_except_all.
  - apply quiet_bind; [apply quiet_eval | intros v].
    apply quiet_bind; [apply quiet_eval | intros n].
    apply quiet_bind; [apply quiet_print | intros _].
    destruct (Json.truthy v); [|apply quiet_ret].
    quiet_tac.
  - quiet_tac.
Qed.

Lemma quiet_show_record (w : World) (r : Row) : quiet (show_record w r).
Proof.
  unfold show_record.
  repeat (apply quiet_bind; [first [apply quiet_eval | apply quiet_print] | intros ?]).
  apply quiet_show_colors.
Qed.

Section Careful.

Context {A B : Type}.

Lemma quiet_careful (m : M A) : quiet m -> careful m.
Proof.
  intros Hm t. destruct (Hm t) as (ls & Hls).
  exists (map Printed ls). split; [exact Hls | left; apply clean_printed].
Qed.

Lemma careful_db (w : World) (c : db_call) (answer : result A) :
  careful (db w c answer).
Proof.
  intros t. unfold db.
  destruct (fault w (List.length (db_calls t))) as [e|].
  - exists [Called c (Some e)]. split; [reflexivity|].
    right. exists [], c, e. repeat split. constructor.
  - exists [Called c (raised answer)]. split; [reflexivity|].
    destruct answer as [a|e]; simpl.
    + left. repeat constructor.
    + right. exists [], c, e. repeat split. constructor.
Qed.

Lemma careful_bind (m : M A) (k : A -> M B) :
  careful m -> (forall a, careful (k a)) -> careful (bind m k).
Proof.
  intros Hm Hk t. unfold bind.
  destruct (Hm t) as (ev & Hev & Hcase).
  destruct (m t) as [[a|e] t1]; simpl in Hev, Hcase; subst t1.
  - destruct Hcase as [Hclean | (ev0 & c & e & _ & _ & Hr)]; [|discriminate Hr].
    destruct (Hk a (t ++ ev)) as (ev' & Hev' & Hcase').
    exists (ev ++ ev'). split; [now rewrite Hev', app_assoc|].
    destruct Hcase' as [Hclean' | (ev0 & c & e & -> & Hc0 & Hr)].
    + left. now apply clean_app.
    + right. exists (ev ++ ev0), c, e.
      split; [now rewrite app_assoc|]. split; [now apply clean_app | exact Hr].
  - exists ev. split; [reflexivity|].
    destruct Hcase as [Hclean | (ev0 & c & e0 & Hev0 & Hc0 & [= <-])].
    + now left.
    + right. now exists ev0, c, e.
Qed.

End Careful.

Lemma careful_for_each {X : Type} (xs : list X) (body : X -> M unit) :
  (forall x, careful (body x)) -> careful (for_each xs body).
Proof.
  intros Hb. induction xs as [|x xs IH]; simpl.
  - apply quiet_careful, quiet_ret.
  - apply careful_bind; [apply Hb | intros _; exact IH].
Qed.

Ltac careful_tac :=
  repeat first
    [ apply careful_db
    | apply quiet_careful, quiet_show_record
    | apply quiet_careful; first [apply quiet_print | apply quiet_eval | apply quiet_ret]
    | apply careful_bind; [|intros ?]
    | apply careful_for_each; intros ?
    | match goal with x : (sqlval * Z)%type |- _ => destruct x end ].

Lemma careful_report (w : World) (db_path : string) (f : File) :
  careful (report w db_path f).
Proof.
  unfold report, list_schema, count_records, count_by_status, show_size,
    show_recent, show_rates, print_rates.
  careful_tac.
Qed.

Lemma clean_not_failed (t : trace) (c : db_call) (e : exn) :
  clean t -> ~ In (Called c (Some e)) t.
Proof.
  intros Hc Hin. unfold clean in Hc. rewrite Forall_forall in Hc.
  specialize (Hc _ Hin). discriminate Hc.
Qed.

Lemma banner_clean (db_path : string) : clean (banner db_path).
Proof. repeat constructor. Qed.

(** An exception of class [Exception] that the body of the [try] raises is
    caught: its line is printed and the run returns. *)
Lemma exception_caught (w : World) (db_path : string) (f : File) (e : exn) t :
  fs w db_path = Some f ->
  report w db_path f (banner db_path) = (Raise e, t) ->
  is_Exception e = true ->
  run w db_path = (Ok tt, t ++ [Printed (error_line e)]).
Proof.
  intros Hfile Hr He. rewrite (run_unfold w db_path f Hfile).
  unfold try_except. rewrite Hr, He. unfold error_line.
  destruct (is_sqlite_error e); reflexivity.
Qed.

(** Only an exception outside the class [Exception] leaves the function. *)
Lemma no_exception_escapes (w : World) (db_path : string) (e : exn) :
  fst (run w db_path) = Raise e -> is_Exception e = false.
Proof.
  destruct (fs w db_path) as [f|] eqn:Hfile.
  - rewrite (run_unfold w db_path f Hfile). unfold try_except.
    destruct (report w db_path f (banner db_path)) as [[[]|e'] t]; [discriminate|].
    destruct (is_sqlite_error e'); [discriminate|].
    destruct (is_Exception e') eqn:He'; [discriminate|].
    now intros [= <-].
  - unfold run, query_colors_db. rewrite Hfile. discriminate.
Qed.

(** ** Examples *)

Example decode_red :
  Json.decode (dq "[{'hex':'#FF0000'}]") =
    Ok (Json.JList [Json.JDict [("hex", Json.JStr "#FF0000")]]).
Proof. reflexivity. Qed.

Example decode_nested :
  Json.decode (dq " {'a': [1, -2.5e3, true, null], 'b': {}, 'a': 'xé'} ") =
    Ok (Json.JDict [("a", Json.JStr "xé"); ("b", Json.JDict [])]).
Proof. reflexivity. Qed.

Example decode_not_json : is_ok (Json.decode "not valid json") = false.
Proof. reflexivity. Qed.

Example decode_trailing_comma : is_ok (Json.decode "[1,]") = false.
Proof. reflexivity. Qed.

(** An integer of 4301 digits and an array nested 1200 deep: the grammar has
    both, and an interpreter with its default limits refuses them. *)
Example loads_too_many_digits :
  is_ok (Json.decode (String.concat "" (repeat "7" 4301))) = true /\
  Json.loads python_limits (SqlText (String.concat "" (repeat "7" 4301))) =
    Raise (Exn ValueError "Exceeds the limit (4300 digits) for integer string conversion").
Proof. split; vm_compute; reflexivity. Qed.

Example loads_too_deep :
  Json.loads python_limits
    (SqlText (String.concat "" (repeat "[" 1200) ++ String.concat "" (repeat "]" 1200))) =
    Raise (Exn RecursionError "maximum recursion depth exceeded").
Proof. vm_compute. reflexivity. Qed.

(** A [hex] field that is a lone surrogate: the count is printed, the line
    of the field is not, and the handler prints the raw text. *)
Example hex_lone_surrogate :
  lines (events_of (show_colors (sample_world None no_fault)
                      (SqlText (dq "[{'hex':'\ud800'}]")))) =
    ["  颜色数量: 1"; ("  颜色数据: " ++ dq "[{'hex':'\ud800'}]" ++ "...")%string].
Proof. vm_compute. reflexivity. Qed.

(** A surrogate pair is one character, which standard output encodes. *)
Example hex_surrogate_pair :
  lines (events_of (show_colors (sample_world None no_fault)
                      (SqlText (dq "[{'hex':'\ud83d\ude00'}]")))) =
    ["  颜色数量: 1"; "  主色调: 😀"].
Proof. vm_compute. reflexivity. Qed.

Example percent_third : percent 1 3 = Ok "33.3".
Proof. reflexivity. Qed.

Example percent_two_thirds : percent 2 3 = Ok "66.7".
Proof. reflexivity. Qed.

(** [1/2000*100] is the float just above 0.05. *)
Example percent_above_half : percent 1 2000 = Ok "0.1".
Proof. reflexivity. Qed.

(** [1/16*100] is 6.25 exactly: a tie, rounded to the even digit. *)
Example percent_tie : percent 1 16 = Ok "6.2".
Proof. reflexivity. Qed.

Example percent_all : percent 7 7 = Ok "100.0".
Proof. reflexivity. Qed.

Example kib_tie : kib 128 = Ok "0.12".
Proof. reflexivity. Qed.

Example kib_twelve : kib 12288 = Ok "12.00".
Proof. reflexivity. Qed.

(** [2^53 + 1] bytes: the quotient by 1024 is half way between two floats,
    and the even one is a whole number of KB. *)
Example kib_large : kib 9007199254740993 = Ok "8796093022208.00".
Proof. reflexivity. Qed.

Example time_text_leap_day :
  time_text (sample_world None no_fault) (SqlInt 951782400) = Ok "2000-02-29 00:00:00".
Proof. reflexivity. Qed.

Example prefix_counts_code_points : py_prefix 3 "颜色数量" = "颜色数".
Proof. reflexivity. Qed.

(** The report on the three sample records. *)
Example sample_report :
  output (sample_world (Some three_rows) no_fault) "colors.db" =
    [ "正在查询数据库: colors.db";
      "============================================================";
      nl ++ "数据库表结构:";
      "  - dominant_colors";
      "    * file_path (TEXT)";
      "    * status (TEXT)";
      "    * created_at (INTEGER)";
      "    * updated_at (INTEGER)";
      "    * colors (TEXT)";
      nl ++ "总记录数: 3";
      nl ++ "按状态统计:";
      "  - error: 1 个文件";
      "  - extracted: 1 个文件";
      "  - pending: 1 个文件";
      nl ++ "数据库文件大小: 12.00 KB";
      nl ++ "最近处理的5个文件:";
      nl ++ "  文件: b.png";
      "  状态: pending";
      "  创建时间: 2023-11-14 22:13:20";
      "  更新时间: 2023-11-14 22:16:40";
      "  颜色数据: 无";
      nl ++ "  文件: a.png";
      "  状态: extracted";
      "  创建时间: 2023-11-14 22:13:20";
      "  更新时间: 2023-11-14 22:15:00";
      "  颜色数量: 1";
      "  主色调: #FF0000";
      nl ++ "  文件: c.png";
      "  状态: error";
      "  创建时间: 2023-11-14 22:13:20";
      "  更新时间: 2023-11-14 22:14:10";
      "  颜色数据: not valid json...";
      nl ++ "处理状态统计:";
      "  已提取: 1 (33.3%)";
      "  待处理: 1 (33.3%)";
      "  错误: 1 (33.3%)" ]%string.
Proof. vm_compute. reflexivity. Qed.

Example sample_calls :
  calls_made (sample_world (Some three_rows) no_fault) "colors.db" =
    [ Connect "colors.db"; Execute Q_tables; Execute (Q_table_info "dominant_colors");
      Execute Q_count_all; Execute Q_group_by_status; Execute Q_recent;
      Execute (Q_count_status "extracted"); Execute (Q_count_status "pending");
      Execute (Q_count_status "error"); Close ].
Proof. reflexivity. Qed.

(** A locked file: the first query raises. *)
Example sample_locked :
  run (sample_world (Some three_rows)
         (fun n => if Nat.eqb n 1 then Some (Exn Sqlite3Error "database is locked") else None))
      "colors.db" =
    (Ok tt,
     [ Printed "正在查询数据库: colors.db";
       Printed "============================================================";
       Called (Connect "colors.db") None;
       Printed (nl ++ "数据库表结构:");
       Called (Execute Q_tables) (Some (Exn Sqlite3Error "database is locked"));
       Printed "数据库错误: database is locked" ]).
Proof. vm_compute. reflexivity. Qed.

(** ** The accuracy of the percentages *)

Module FloatError.

Import Float FloatFacts.

Section Shift2.

Variable m0 : Z.

(** After [k] shifts to the right the mantissa is [m0 / 2^k], rounded
    down. *)
Definition shifted (k : Z) (mrs : shr_record) : Prop :=
  0 <= shr_m mrs /\ shr_m mrs * 2 ^ k <= m0 < (shr_m mrs + 1) * 2 ^ k.

Lemma shr_1_shifted k mrs : 0 <= k -> shifted k mrs -> shifted (k + 1) (shr_1 mrs).
Proof.
  intros Hk (H0 & Hlo & Hhi). destruct mrs as [m r s]. unfold shifted in *.
  cbn [shr_m] in H0, Hlo, Hhi.
  rewrite Z.pow_add_r, Z.pow_1_r by lia.
  assert (0 < 2 ^ k) by (apply Z.pow_pos_nonneg; lia).
  destruct m as [|[p|p|]|p]; cbn [shr_1 shr_m]; try lia.
  all: try rewrite (Pos2Z.inj_xI p) in *; try rewrite (Pos2Z.inj_xO p) in *.
  all: split; [lia|]; split; nia.
Qed.

Lemma iter_shr_1_shifted p : forall k mrs,
  0 <= k -> shifted k mrs -> shifted (k + Z.pos p) (iter_pos shr_1 p mrs).
Proof.
  induction p as [p IH | p IH |]; intros k mrs Hk H; simpl.
  - replace (k + Z.pos p~1) with (k + 1 + Z.pos p + Z.pos p) by lia.
    apply IH; [lia|]. apply IH; [lia|]. now apply shr_1_shifted.
  - replace (k + Z.pos p~0) with (k + Z.pos p + Z.pos p) by lia.
    apply IH; [lia|]. now apply IH.
  - now apply shr_1_shifted.
Qed.

End Shift2.

Lemma shr_fexp_shifted (m e : Z) (l : location) :
  0 <= m ->
  let '(mrs, e') := shr_fexp prec emax m e l in
  e' = Z.max e (fexp prec emax (Zdigits2 m + e)) /\
  shifted m (e' - e) mrs.
Proof.
  intros Hm. unfold shr_fexp, shr.
  set (n := fexp prec emax (Zdigits2 m + e) - e).
  assert (Hrec : shifted m 0 (shr_record_of_loc m l)).
  { unfold shifted. destruct l as [|[]]; simpl; lia. }
  destruct n as [|p|p] eqn:Hn.
  - split; [lia|]. replace (e - e) with 0 by lia. exact Hrec.
  - split; [lia|]. replace (e + Z.pos p - e) with (0 + Z.pos p) by lia.
    apply iter_shr_1_shifted; [lia | exact Hrec].
  - split; [lia|]. replace (e - e) with 0 by lia. exact Hrec.
Qed.

(** The float of a mantissa and an exponent: a zero when the mantissa is
    zero. *)
Definition float_of (s : bool) (m e : Z) : float :=
  match m with
  | Z.pos p => S754_finite s p e
  | _ => S754_zero s
  end.

(** Rounding [m * 2^e], a value below [2^k]: the result is [m' * 2^e'] with
    [e'] at most the exponent of the floats below [2^(k+1)], and it is off by
    at most two units of its last place. *)
Lemma binary_round_aux_error s m e l k :
  0 <= m -> m < 2 ^ (k - e) -> 0 <= k <= 1000 -> e <= fexp prec emax (k + 1) ->
  exists m' e',
    binary_round_aux prec emax s m e l = float_of s m' e' /\
    0 <= m' /\ (e <= e' <= fexp prec emax (k + 1)) /\
    (m - 2 * 2 ^ (e' - e) <= m' * 2 ^ (e' - e) <= m + 2 ^ (e' - e)).
Proof.
  intros Hm Hlt Hk He. unfold binary_round_aux.
  assert (Hek : e <= k) by (unfold fexp, emin, prec, emax in He; lia).
  pose proof (shr_fexp_shifted m e l Hm) as H1.
  destruct (shr_fexp prec emax m e l) as [mrs1 e1].
  destruct H1 as (He1 & Hm1 & Hlo1 & Hhi1).
  assert (Hd : Zdigits2 m <= k - e) by (apply Zdigits2_le; lia).
  assert (He1' : e <= e1 <= fexp prec emax (k + 1)).
  { clear Hlt Hlo1 Hhi1. unfold fexp, emin, prec, emax in *. lia. }
  assert (Hp1 : 0 < 2 ^ (e1 - e)) by (apply Z.pow_pos_nonneg; lia).
  assert (He1k : e1 <= k).
  { clear Hlt Hlo1 Hhi1. unfold fexp, emin, prec, emax in *. lia. }
  assert (Hm1' : shr_m mrs1 < 2 ^ (k - e1)).
  { rewrite (pow2_split (k - e) (e1 - e)) in Hlt by lia.
    replace (k - e - (e1 - e)) with (k - e1) in Hlt by lia. nia. }
  set (m2 := round_nearest_even (shr_m mrs1) (loc_of_shr_record mrs1)).
  pose proof (round_nearest_even_bounds (shr_m mrs1) (loc_of_shr_record mrs1)) as Hr.
  fold m2 in Hr.
  assert (Hm2 : 0 <= m2) by lia.
  pose proof (shr_fexp_shifted m2 e1 loc_Exact Hm2) as H2.
  destruct (shr_fexp prec emax m2 e1 loc_Exact) as [mrs2 e2].
  destruct H2 as (He2 & Hm3 & Hlo2 & Hhi2).
  assert (Hd2 : Zdigits2 m2 <= k + 1 - e1).
  { apply Zdigits2_le; [lia|]. split; [lia|].
    replace (k + 1 - e1) with (Z.succ (k - e1)) by lia.
    rewrite Z.pow_succ_r by lia. lia. }
  assert (He2' : e1 <= e2 <= fexp prec emax (k + 1)).
  { clear Hlt Hlo1 Hhi1 Hlo2 Hhi2 Hm1' Hp1. unfold fexp, emin, prec, emax in *. lia. }
  assert (Hp2 : 0 < 2 ^ (e2 - e1)) by (apply Z.pow_pos_nonneg; lia).
  exists (shr_m mrs2), e2.
  split; [|split; [exact Hm3|split; [lia|]]].
  - destruct (shr_m mrs2) as [|p|p]; try reflexivity; [|lia].
    replace (e2 <=? emax - prec) with true; [reflexivity|].
    symmetry. apply Z.leb_le.
    clear Hlt Hlo1 Hhi1 Hlo2 Hhi2 Hm1' Hp1 Hp2. unfold fexp, emin, emax, prec in *. lia.
  - replace (e2 - e) with ((e2 - e1) + (e1 - e)) by lia.
    rewrite Z.pow_add_r by lia.
    set (a := 2 ^ (e2 - e1)) in *. set (b := 2 ^ (e1 - e)) in *.
    set (m1 := shr_m mrs1) in *. set (m3 := shr_m mrs2) in *.
    assert (1 <= a) by lia. assert (1 <= b) by lia.
    split; nia.
Qed.


Lemma Zdigits2_bound (m : Z) : 0 <= m -> m < 2 ^ Zdigits2 m.
Proof.
  intros Hm. destruct m as [|p|p]; [reflexivity | | lia].
  apply digits2_pos_bounds.
Qed.

Lemma Zdigits2_nonneg (m : Z) : 0 <= Zdigits2 m.
Proof. destruct m; simpl; lia. Qed.

Lemma Zdigits2_mono (a b : Z) : 0 <= a <= b -> Zdigits2 a <= Zdigits2 b.
Proof.
  intros H. apply Zdigits2_le; [apply Zdigits2_nonneg|].
  pose proof (Zdigits2_bound b ltac:(lia)). lia.
Qed.

(** The quotient of a count by the total: [mx * 2^ex], within two units of
    its last place of [q * 2^(-s)], where [q] is the exact quotient scaled by
    [2^s] and rounded down. *)
Lemma quotient_error (a b : Z) :
  0 <= a <= b -> 0 < b ->
  exists s q mx ex,
    quotient a b = float_of false mx ex /\
    (53 <= s <= 1074) /\ (- s <= ex <= - 51) /\ 0 <= mx /\
    (q * b <= a * 2 ^ s < (q + 1) * b) /\
    (q - 2 * 2 ^ (ex + s) <= mx * 2 ^ (ex + s) <= q + 2 ^ (ex + s)).
Proof.
  intros Ha Hb. unfold quotient, SFdiv_core_binary.
  rewrite (Z.abs_eq a), (Z.abs_eq b) by lia.
  replace (a <? 0) with false by (symmetry; apply Z.ltb_ge; lia).
  replace (b <? 0) with false by (symmetry; apply Z.ltb_ge; lia).
  cbn [xorb].
  pose proof (Zdigits2_mono a b Ha) as Hd.
  set (e := Z.min _ _).
  assert (He : - 1074 <= e <= - 53).
  { subst e. unfold fexp, emin, prec, emax. lia. }
  assert (Hm : (match 0 - 0 - e with
                | 0 => a
                | Z.pos _ => Z.shiftl a (0 - 0 - e)
                | Z.neg _ => 0
                end) = a * 2 ^ (- e)).
  { replace (0 - 0 - e) with (- e) by lia.
    destruct (- e) as [|p|p] eqn:E; [lia| |lia].
    rewrite Z.shiftl_mul_pow2 by lia. reflexivity. }
  rewrite Hm.
  assert (Hp : 0 < 2 ^ (- e)) by (apply Z.pow_pos_nonneg; lia).
  pose proof (Z_div_mod (a * 2 ^ (- e)) b ltac:(lia)) as Hdm.
  destruct (Z.div_eucl (a * 2 ^ (- e)) b) as [q r].
  destruct Hdm as [Hq Hr].
  assert (Hq0 : 0 <= q) by nia.
  assert (Hq1 : q <= 2 ^ (- e)) by nia.
  destruct (binary_round_aux_error false q e (new_location b r) 1)
    as (mx & ex & Hx & Hmx & Hex & Herr).
  - exact Hq0.
  - replace (1 - e) with (Z.succ (- e)) by lia. rewrite Z.pow_succ_r by lia. lia.
  - lia.
  - unfold fexp, emin, prec, emax. lia.
  - exists (- e), q, mx, ex. rewrite Hx.
    replace (ex + - e) with (ex - e) by lia.
    split; [reflexivity|]. split; [lia|].
    split; [unfold fexp, emin, prec, emax in Hex; lia|].
    split; [exact Hmx|]. split; [nia | exact Herr].
Qed.

(** The constant [100.0]. *)
Lemma of_int_100 : of_int 100 = S754_finite false 7036874417766400 (- 46).
Proof. reflexivity. Qed.

(** The product by [100.0] of a float below [1 + 2^-50]. *)
Lemma mul_100_error (p : positive) (ex : Z) :
  - 1200 <= ex <= - 51 -> Z.pos p <= 2 ^ (- ex) + 1 ->
  exists my ey,
    mul_int (S754_finite false p ex) 100 = float_of false my ey /\
    0 <= my /\ (ex - 46 <= ey <= - 45) /\
    (Z.pos p * 7036874417766400 - 2 * 2 ^ (ey - (ex - 46))
      <= my * 2 ^ (ey - (ex - 46))
      <= Z.pos p * 7036874417766400 + 2 ^ (ey - (ex - 46))).
Proof.
  intros Hex Hp. unfold mul_int. rewrite of_int_100.
  cbn [SFmul xorb].
  rewrite Pos2Z.inj_mul.
  destruct (binary_round_aux_error false (Z.pos p * 7036874417766400)
              (ex + - 46) loc_Exact 7)
    as (my & ey & Hy & Hmy & Hey & Herr).
  - lia.
  - replace (7 - (ex + - 46)) with (53 + - ex) by lia.
    rewrite Z.pow_add_r by lia.
    assert (2 ^ 51 <= 2 ^ (- ex)) by (apply Z.pow_le_mono_r; lia).
    change (2 ^ 53) with 9007199254740992.
    change (2 ^ 51) with 2251799813685248 in *. nia.
  - lia.
  - unfold fexp, emin, prec, emax. lia.
  - exists my, ey. rewrite Hy.
    replace (ex - 46) with (ex + - 46) by lia.
    split; [reflexivity|]. split; [exact Hmy|].
    split; [unfold fexp, emin, prec, emax in Hey; lia | exact Herr].
Qed.

Lemma round_half_even_error (num den : Z) :
  0 < den ->
  - den <= 2 * (round_half_even num den * den - num) <= den.
Proof.
  intros Hd. unfold round_half_even.
  pose proof (Z.div_mod num den ltac:(lia)) as Hdm.
  pose proof (Z.mod_pos_bound num den Hd) as Hr.
  set (q := num / den) in *. set (r := num mod den) in *.
  destruct (Z.compare_spec (2 * r) den) as [E|E|E];
    [destruct (Z.even q)| |]; nia.
Qed.

(** From the three roundings to the number printed: [n] tenths against the
    exact [1000 * E / N]. *)
Lemma percent_chain (N E q mx my n a A1 A2 D : Z) :
  0 < N -> 0 <= E ->
  q * N <= E * a < (q + 1) * N ->
  q - 2 * A1 <= mx * A1 <= q + A1 ->
  mx * 7036874417766400 - 2 * A2 <= my * A2 <= mx * 7036874417766400 + A2 ->
  - D <= 2 * (n * D - my * 10) <= D ->
  0 < A1 -> 0 < A2 -> 2 ^ 45 <= D -> 2 ^ 51 * A1 <= a -> 2 ^ 53 <= a ->
  D * A2 * A1 = 2 ^ 46 * a ->
  2 ^ 39 * Z.abs (n * N - 1000 * E) <= (2 ^ 38 + 1) * N.
Proof.
  intros HN HE H0 H1 H2 H3 HA1 HA2 HD Ha1 Ha HSc.
  change (2 ^ 45) with 35184372088832 in *.
  change (2 ^ 51) with 2251799813685248 in *.
  change (2 ^ 53) with 9007199254740992 in *.
  change (2 ^ 46) with 70368744177664 in *.
  change (2 ^ 39) with 549755813888.
  change (2 ^ 38) with 274877906944.
  set (X := A1 * N). set (Y := A2 * X). set (W := a * N).
  assert (HX : 0 < X) by (subst X; nia).
  assert (HY : 0 < Y) by (subst Y; nia).
  assert (B1 : 2251799813685248 * X <= W) by (subst X W; nia).
  assert (HDY : D * Y = 70368744177664 * W).
  { subst Y X W. replace (D * (A2 * (A1 * N))) with (D * A2 * A1 * N) by ring.
    rewrite HSc. ring. }
  assert (B2 : 35184372088832 * Y <= 70368744177664 * W) by nia.
  assert (B3 : 9007199254740992 * N <= W) by (subst W; nia).
  set (nW := n * W). set (myY := my * Y). set (mxX := mx * X).
  set (qN := q * N) in *. set (Ea := E * a) in *.
  assert (C3 : - (70368744177664 * W) <= 2 * (70368744177664 * nW - 10 * myY)
               <= 70368744177664 * W).
  { rewrite <- HDY.
    replace (2 * (70368744177664 * nW - 10 * myY))
      with (2 * (n * D - my * 10) * Y).
    - split; nia.
    - subst nW myY. 
      replace (2 * (n * D - my * 10) * Y) with (2 * (n * (D * Y) - 10 * (my * Y))) by ring.
      rewrite HDY. ring. }
  assert (C2 : 7036874417766400 * mxX - 2 * Y <= myY <= 7036874417766400 * mxX + Y).
  { subst myY mxX Y.
    replace (my * (A2 * X)) with (my * A2 * X) by ring.
    replace (7036874417766400 * (mx * X) - 2 * (A2 * X))
      with ((mx * 7036874417766400 - 2 * A2) * X) by ring.
    replace (7036874417766400 * (mx * X) + A2 * X)
      with ((mx * 7036874417766400 + A2) * X) by ring.
    split; apply Z.mul_le_mono_nonneg_r; lia. }
  assert (C1 : qN - 2 * X <= mxX <= qN + X).
  { subst mxX qN X.
    replace (mx * (A1 * N)) with (mx * A1 * N) by ring.
    replace (q * N - 2 * (A1 * N)) with ((q - 2 * A1) * N) by ring.
    replace (q * N + A1 * N) with ((q + A1) * N) by ring.
    split; apply Z.mul_le_mono_nonneg_r; lia. }
  assert (C0 : qN <= Ea < qN + N) by (subst qN; lia).
  assert (Hfin : 549755813888 * Z.abs (70368744177664 * nW - 70368744177664000 * Ea)
                 <= (274877906944 + 1) * (70368744177664 * W)) by lia.
  assert (Heq : 70368744177664 * nW - 70368744177664000 * Ea
                = (70368744177664 * a) * (n * N - 1000 * E)).
  { subst nW W Ea. ring. }
  rewrite Heq, Z.abs_mul in Hfin.
  rewrite (Z.abs_eq (70368744177664 * a)) in Hfin by lia.
  assert (HK : 0 < 70368744177664 * a) by lia.
  set (K := 70368744177664 * a) in *.
  set (v := Z.abs (n * N - 1000 * E)) in *.
  replace (70368744177664 * W) with (N * K) in Hfin by (subst K W; ring).
  nia.
Qed.

Lemma pow2_pos (k : Z) : 0 <= k -> 0 < 2 ^ k.
Proof. intros. apply Z.pow_pos_nonneg; lia. Qed.

(** The percentage printed for [E] records out of [N]: [n] tenths, the
    exact [1000 * E / N] rounded to an integer up to [2^-39]. *)
Lemma percent_text_error (E N : Z) :
  0 <= E <= N -> 0 < N ->
  exists n,
    percent_text E N = fixed_text false n 1 /\
    2 ^ 39 * Z.abs (n * N - 1000 * E) <= (2 ^ 38 + 1) * N.
Proof.
  intros HE HN. unfold percent_text.
  destruct (quotient_error E N HE HN) as (s & q & mx & ex & Hx & Hs & Hex & Hmx & Hq & H1).
  rewrite Hx.
  assert (HA1 : 0 < 2 ^ (ex + s)) by (apply pow2_pos; lia).
  assert (Hsplit : 2 ^ s = 2 ^ (- ex) * 2 ^ (ex + s)).
  { rewrite <- Z.pow_add_r by lia. f_equal. lia. }
  assert (H51 : 2 ^ 51 <= 2 ^ (- ex)) by (apply Z.pow_le_mono_r; lia).
  assert (H53 : 2 ^ 53 <= 2 ^ s) by (apply Z.pow_le_mono_r; lia).
  assert (Ha1 : 2 ^ 51 * 2 ^ (ex + s) <= 2 ^ s) by (rewrite Hsplit; nia).
  destruct mx as [|p|p]; [| |lia].
  - (* the quotient is rounded to zero *)
    exists 0. split; [reflexivity|].
    apply (percent_chain N E q 0 0 0 (2 ^ s) (2 ^ (ex + s)) (2 ^ (- ex + 1)) (2 ^ 45));
      try lia; try (apply pow2_pos; lia).
    rewrite <- !Z.pow_add_r by lia. f_equal. lia.
  - cbn [float_of].
    assert (Hq1 : q <= 2 ^ s) by nia.
    assert (Hp : Z.pos p <= 2 ^ (- ex) + 1).
    { rewrite Hsplit in Hq1. nia. }
    destruct (mul_100_error p ex ltac:(lia) Hp) as (my & ey & Hy & Hmy & Hey & H2).
    rewrite Hy.
    assert (HA2 : 0 < 2 ^ (ey - (ex - 46))) by (apply pow2_pos; lia).
    assert (HD : 2 ^ 45 <= 2 ^ (- ey)) by (apply Z.pow_le_mono_r; lia).
    assert (HSc : 2 ^ (- ey) * 2 ^ (ey - (ex - 46)) * 2 ^ (ex + s) = 2 ^ 46 * 2 ^ s).
    { rewrite <- !Z.pow_add_r by lia. f_equal. lia. }
    destruct my as [|pm|pm]; [| |lia].
    + exists 0. split; [reflexivity|].
      apply (percent_chain N E q (Z.pos p) 0 0 (2 ^ s) (2 ^ (ex + s))
               (2 ^ (ey - (ex - 46))) (2 ^ (- ey))); try lia.
    + exists (round_half_even (Z.pos pm * 10) (2 ^ (- ey))). split.
      * cbn [float_of format_f].
        replace (0 <=? ey) with false by (symmetry; apply Z.leb_gt; lia).
        reflexivity.
      * apply (percent_chain N E q (Z.pos p) (Z.pos pm) _ (2 ^ s) (2 ^ (ex + s))
                 (2 ^ (ey - (ex - 46))) (2 ^ (- ey))); try lia.
        apply round_half_even_error. lia.
Qed.

End FloatError.

Lemma tenths_bounds (n E N : Z) :
  0 <= E <= N -> 0 < N ->
  2 ^ 39 * Z.abs (n * N - 1000 * E) <= (2 ^ 38 + 1) * N ->
  0 <= n <= 1000.
Proof.
  intros HE HN H.
  change (2 ^ 39) with 549755813888 in H. change (2 ^ 38) with 274877906944 in H.
  split.
  - destruct (Z_le_gt_dec 0 n) as [|Hn]; [assumption|]. exfalso.
    assert (n * N - 1000 * E <= - N) by nia. lia.
  - destruct (Z_le_gt_dec n 1000) as [|Hn]; [assumption|]. exfalso.
    assert (N <= n * N - 1000 * E) by nia. lia.
Qed.




(** ** The database calls of a run *)

Lemma db_calls_printed (ls : list string) : db_calls (map Printed ls) = [].
Proof. induction ls as [|l ls IH]; [reflexivity | exact IH]. Qed.

Section Follows.

Context {A B : Type}.

Lemma follows_quiet (m : M A) : quiet m -> follows m [] (fun _ => True).
Proof.
  intros Hm t. destruct (Hm t) as (ls & Hls).
  exists (map Printed ls). split; [exact Hls|].
  rewrite db_calls_printed.
  destruct (fst (m t)); [now split | now exists []].
Qed.

Lemma follows_db (w : World) (c : db_call) (answer : result A) :
  follows (db w c answer) [c] (fun a => answer = Ok a).
Proof.
  intros t. unfold db.
  destruct (fault w (List.length (db_calls t))) as [e|].
  - exists [Called c (Some e)]. split; [reflexivity|]. now exists [].
  - exists [Called c (raised answer)]. split; [reflexivity|].
    destruct answer as [a|e]; simpl; [now split | now exists []].
Qed.

Lemma follows_weaken (m : M A) (cs : list db_call) (P Q : A -> Prop) :
  (forall a, P a -> Q a) -> follows m cs P -> follows m cs Q.
Proof.
  intros HPQ Hm t. destruct (Hm t) as (ev & Hev & H).
  exists ev. split; [exact Hev|].
  destruct (fst (m t)); [|exact H].
  destruct H as [H1 H2]. split; [exact H1 | now apply HPQ].
Qed.

Lemma follows_bind (m : M A) (k : A -> M B) (cs1 cs2 : list db_call)
    (P : A -> Prop) (Q : B -> Prop) :
  follows m cs1 P -> (forall a, P a -> follows (k a) cs2 Q) ->
  follows (bind m k) (cs1 ++ cs2) Q.
Proof.
  intros Hm Hk t. unfold bind.
  destruct (Hm t) as (ev & Hev & H).
  destruct (m t) as [[a|e] t1]; simpl in Hev, H; subst t1.
  - destruct H as [Hcs Ha].
    destruct (Hk a Ha (t ++ ev)) as (ev' & Hev' & H').
    exists (ev ++ ev'). split; [now rewrite Hev', app_assoc|].
    rewrite db_calls_app, Hcs.
    destruct (fst (k a (t ++ ev))).
    + destruct H' as [H1 H2]. now rewrite H1.
    + destruct H' as (rest & ->). exists rest. now rewrite app_assoc.
  - exists ev. split; [reflexivity|]. simpl.
    destruct H as (rest & ->). exists (rest ++ cs2). now rewrite app_assoc.
Qed.

End Follows.

Lemma follows_for_each {X : Type} (xs : list X) (body : X -> M unit)
    (g : X -> list db_call) :
  (forall x, follows (body x) (g x) (fun _ => True)) ->
  follows (for_each xs body) (flat_map g xs) (fun _ => True).
Proof.
  intros Hb. induction xs as [|x xs IH]; simpl.
  - apply follows_quiet, quiet_ret.
  - eapply follows_bind; [apply Hb | intros _ _; exact IH].
Qed.

Lemma follows_script {A : Type} (m : M A) (cs cs' : list db_call) (P : A -> Prop) :
  follows m cs P -> cs = cs' -> follows m cs' P.
Proof. now intros H <-. Qed.

Lemma flat_map_single {X Y : Type} (g : X -> Y) (xs : list X) :
  flat_map (fun x => [g x]) xs = map g xs.
Proof. induction xs as [|x xs IH]; simpl; [reflexivity | now rewrite IH]. Qed.

Lemma follows_list_schema (w : World) (d : Database) :
  follows (list_schema w d)
    (Execute Q_tables ::
     map (fun name => Execute (Q_table_info name)) (map table_name (tables d)))
    (fun _ => True).
Proof.
  unfold list_schema.
  eapply follows_script.
  - eapply follows_bind; [apply follows_quiet, quiet_print | intros _ _].
    eapply follows_bind; [apply follows_db | intros names [= <-]].
    apply follows_for_each with (g := fun name => [Execute (Q_table_info name)]).
    intros name.
    eapply follows_script.
    + eapply follows_bind; [apply follows_quiet, quiet_print | intros _ _].
      eapply follows_bind; [apply follows_db | intros columns _].
      apply follows_quiet, quiet_for_each. intros col. apply quiet_print.
    + reflexivity.
  - simpl. now rewrite flat_map_single.
Qed.

Lemma follows_count_records (w : World) (d : Database) :
  follows (count_records w d) [Execute Q_count_all] (fun _ => True).
Proof.
  unfold count_records.
  eapply follows_script.
  - eapply follows_bind; [apply follows_db | intros total _].
    eapply follows_bind; [apply follows_quiet, quiet_print | intros _ _].
    apply follows_quiet, quiet_ret.
  - reflexivity.
Qed.

Lemma follows_count_by_status (w : World) (d : Database) :
  follows (count_by_status w d) [Execute Q_group_by_status] (fun _ => True).
Proof.
  unfold count_by_status.
  eapply follows_script.
  - eapply follows_bind; [apply follows_db | intros groups _].
    eapply follows_bind; [apply follows_quiet, quiet_print | intros _ _].
    apply follows_quiet, quiet_for_each. intros [st count]. apply quiet_print.
  - reflexivity.
Qed.

Lemma quiet_show_size (f : File) : quiet (show_size f).
Proof.
  unfold show_size. apply quiet_bind; [apply quiet_eval | intros size; apply quiet_print].
Qed.

Lemma follows_show_recent (w : World) (d : Database) :
  follows (show_recent w d) [Execute Q_recent] (fun _ => True).
Proof.
  unfold show_recent.
  eapply follows_script.
  - eapply follows_bind; [apply follows_quiet, quiet_print | intros _ _].
    eapply follows_bind; [apply follows_db | intros recent _].
    apply follows_quiet, quiet_for_each. intros r. apply quiet_show_record.
  - reflexivity.
Qed.

Lemma quiet_print_rates (e p r n : Z) : quiet (print_rates e p r n).
Proof.
  unfold print_rates.
  repeat (apply quiet_bind; [first [apply quiet_eval | apply quiet_print] | intros ?]).
  apply quiet_print.
Qed.

Lemma follows_show_rates (w : World) (d : Database) (total : Z) :
  follows (show_rates w d total)
    [Execute (Q_count_status "extracted"); Execute (Q_count_status "pending");
     Execute (Q_count_status "error")]
    (fun _ => True).
Proof.
  unfold show_rates.
  eapply follows_script.
  - eapply follows_bind; [apply follows_db | intros e _].
    eapply follows_bind; [apply follows_db | intros p _].
    eapply follows_bind; [apply follows_db | intros r _].
    apply follows_quiet, quiet_print_rates.
  - reflexivity.
Qed.

(** Up to the closing of the connection. *)
Lemma follows_stages (w : World) (db_path : string) (f : File) :
  follows (stages w db_path f) (Connect db_path :: queries (file_db f)) (fun _ => True).
Proof.
  unfold stages.
  eapply follows_script.
  - eapply follows_bind; [apply follows_db | intros _ _].
    eapply follows_bind; [apply follows_list_schema | intros _ _].
    eapply follows_bind; [apply follows_count_records | intros total _].
    eapply follows_bind; [apply follows_count_by_status | intros _ _].
    eapply follows_bind; [apply follows_quiet, quiet_show_size | intros _ _].
    eapply follows_bind; [apply follows_show_recent | intros _ _].
    apply follows_show_rates.
  - reflexivity.
Qed.

Lemma report_stages (w : World) (db_path : string) (f : File) t :
  report w db_path f t = bind (stages w db_path f) (fun _ => db w Close (Ok tt)) t.
Proof.
  unfold report, stages, bind.
  destruct (db w (Connect db_path) (Ok tt) t) as [[[]|e] t1]; [|reflexivity].
  destruct (list_schema w (file_db f) t1) as [[[]|e] t2]; [|reflexivity].
  destruct (count_records w (file_db f) t2) as [[total|e] t3]; [|reflexivity].
  destruct (count_by_status w (file_db f) t3) as [[[]|e] t4]; [|reflexivity].
  destruct (show_size f t4) as [[[]|e] t5]; [|reflexivity].
  destruct (show_recent w (file_db f) t5) as [[[]|e] t6]; [|reflexivity].
  destruct (show_rates w (file_db f) total t6) as [[[]|e] t7]; reflexivity.
Qed.

Lemma follows_report (w : World) (db_path : string) (f : File) :
  follows (report w db_path f) (full_script db_path (file_db f)) (fun _ => True).
Proof.
  intros t. rewrite report_stages. revert t.
  change (follows (bind (stages w db_path f) (fun _ => db w Close (Ok tt)))
            (full_script db_path (file_db f)) (fun _ => True)).
  eapply follows_script.
  - eapply follows_bind; [apply follows_stages | intros _ _].
    eapply follows_weaken; [|apply follows_db]. trivial.
  - reflexivity.
Qed.

(** The handlers only print: the calls of a run are those of the body of the
    [try]. *)
Lemma run_calls (w : World) (db_path : string) (f : File) :
  fs w db_path = Some f ->
  calls_made w db_path = db_calls (snd (report w db_path f (banner db_path))).
Proof.
  intros Hfile. unfold calls_made. rewrite (run_unfold w db_path f Hfile).
  unfold try_except.
  destruct (report w db_path f (banner db_path)) as [[[]|e] t]; [reflexivity|].
  destruct (is_sqlite_error e).
  - unfold on_database_error, print. cbn [snd]. rewrite db_calls_app. simpl.
    now rewrite app_nil_r.
  - destruct (is_Exception e); [|reflexivity].
    unfold on_other_error, print. cbn [snd]. rewrite db_calls_app. simpl.
    now rewrite app_nil_r.
Qed.

Lemma close_not_queried (db_path : string) (d : Database) :
  ~ In Close (Connect db_path :: queries d).
Proof.
  unfold queries. intros [H|[H|H]]; try discriminate H.
  apply in_app_or in H as [H|H].
  - apply in_map_iff in H as (name & H & _). discriminate H.
  - simpl in H. repeat destruct H as [H|H]; try discriminate H. exact H.
Qed.

Lemma connect_in_script (db_path path : string) (d : Database) :
  In (Connect path) (full_script db_path d) -> path = db_path.
Proof.
  unfold full_script, queries. intros [[= ->]|H]; [reflexivity|].
  exfalso. simpl in H. destruct H as [H|H]; [discriminate H|].
  apply in_app_or in H as [H|H].
  - apply in_app_or in H as [H|H].
    + apply in_map_iff in H as (name & H & _). discriminate H.
    + simpl in H. repeat destruct H as [H|H]; try discriminate H. exact H.
  - simpl in H. destruct H as [H|H]; [discriminate H | exact H].
Qed.

Lemma calls_prefix (w : World) (db_path : string) (f : File) :
  fs w db_path = Some f ->
  exists rest, full_script db_path (file_db f) = calls_made w db_path ++ rest.
Proof.
  intros Hfile. rewrite (run_calls w db_path f Hfile).
  destruct (follows_report w db_path f (banner db_path)) as (ev & Hev & H).
  rewrite Hev, db_calls_app. simpl db_calls at 1. simpl app.
  destruct (fst (report w db_path f (banner db_path))).
  - destruct H as [-> _]. exists []. now rewrite app_nil_r.
  - exact H.
Qed.

Lemma full_script_length (db_path : string) (d : Database) :
  List.length (full_script db_path d) = (9 + List.length (tables d))%nat.
Proof.
  unfold full_script, queries. simpl. rewrite !length_app, !length_map. simpl. lia.
Qed.

(** When the connection is closed every call of the report has been made. *)
Lemma close_means_complete (w : World) (db_path : string) (f : File) :
  fs w db_path = Some f -> In Close (calls_made w db_path) ->
  calls_made w db_path = full_script db_path (file_db f).
Proof.
  intros Hfile Hin. destruct (calls_prefix w db_path f Hfile) as (rest & Hrest).
  destruct rest as [|x rest']; [now rewrite app_nil_r in Hrest|].
  exfalso.
  destruct (exists_last (l := x :: rest') ltac:(discriminate)) as (l & a & Hl).
  rewrite Hl in Hrest. unfold full_script in Hrest.
  rewrite app_assoc in Hrest.
  change (Connect db_path :: queries (file_db f) ++ [Close])
    with ((Connect db_path :: queries (file_db f)) ++ [Close]) in Hrest.
  apply app_inj_tail in Hrest as [Hrest _].
  apply (close_not_queried db_path (file_db f)).
  rewrite Hrest. apply in_or_app. now left.
Qed.



(** ** The schema listing *)

Lemma db_at {A : Type} (w : World) (c : db_call) (answer : result A) t :
  fault w (List.length (db_calls t)) = None ->
  db w c answer t = (answer, t ++ [Called c (raised answer)]).
Proof. intros H. unfold db. now rewrite H. Qed.

Lemma db_calls_printed_map {X : Type} (g : X -> string) (xs : list X) :
  db_calls (map (fun x => Printed (g x)) xs) = [].
Proof. induction xs as [|x xs IH]; [reflexivity | exact IH]. Qed.

Lemma tables_loop_until (w : World) (d : Database) (names : list string) t :
  (forall n, (n < List.length (db_calls t) + List.length names)%nat -> fault w n = None) ->
  for_each names
    (fun name =>
       print ("  - " ++ name) ;;
       columns <- db w (Execute (Q_table_info name)) (Ok (table_info d name)) ;;
       for_each columns (fun col =>
         print ("    * " ++ col_name col ++ " (" ++ col_type col ++ ")"))) t =
  (Ok tt,
   t ++ flat_map
          (fun name =>
             Printed ("  - " ++ name) :: Called (Execute (Q_table_info name)) None ::
             map (fun col => Printed ("    * " ++ col_name col ++ " (" ++ col_type col ++ ")"))
               (table_info d name)) names).
Proof.
  revert t. induction names as [|name names IH]; intros t Hf; simpl.
  - unfold ret. now rewrite app_nil_r.
  - rewrite bind_assoc, bind_print, bind_assoc.
    erewrite bind_ok; cycle 1.
    { apply db_at. apply Hf. rewrite db_calls_app. simpl. rewrite app_nil_r. simpl. lia. }
    erewrite bind_ok by apply for_each_prints.
    rewrite IH.
    + f_equal. simpl raised. rewrite <- !app_assoc. reflexivity.
    + intros n Hn. apply Hf.
      rewrite !db_calls_app, db_calls_printed_map in Hn. simpl in Hn.
      rewrite !app_nil_r, !length_app in Hn. simpl in Hn |- *. lia.
Qed.

Lemma list_schema_until (w : World) (d : Database) t :
  (forall n, (n < List.length (db_calls t) + 1 + List.length (tables d))%nat ->
             fault w n = None) ->
  list_schema w d t = (Ok tt, t ++ schema_events d).
Proof.
  intros Hf. unfold list_schema, schema_events.
  rewrite bind_print.
  erewrite bind_ok; cycle 1.
  { apply db_at. apply Hf. rewrite db_calls_app. simpl. rewrite app_nil_r. lia. }
  rewrite tables_loop_until.
  - f_equal. simpl raised. rewrite <- !app_assoc. reflexivity.
  - intros n Hn. apply Hf.
    rewrite !db_calls_app in Hn. simpl in Hn.
    rewrite !app_nil_r, !length_app, length_map in Hn. simpl in Hn. lia.
Qed.

Lemma find_table (ts : list Table) (t : Table) :
  NoDup (map table_name ts) -> In t ts ->
  find (fun t' => String.eqb (table_name t') (table_name t)) ts = Some t.
Proof.
  induction ts as [|t0 ts IH]; intros Hnd Hin; [destruct Hin|].
  simpl in Hnd. inversion Hnd as [|? ? Hnotin Hnd']; subst.
  simpl. destruct (String.eqb (table_name t0) (table_name t)) eqn:E.
  - destruct Hin as [->|Hin]; [reflexivity|].
    exfalso. apply Hnotin. apply String.eqb_eq in E. rewrite E.
    now apply in_map.
  - destruct Hin as [->|Hin]; [now rewrite String.eqb_refl in E|].
    now apply IH.
Qed.

Lemma flat_map_ext_in {X Y : Type} (g h : X -> list Y) (xs : list X) :
  (forall x, In x xs -> g x = h x) -> flat_map g xs = flat_map h xs.
Proof.
  induction xs as [|x xs IH]; intros H; simpl; [reflexivity|].
  rewrite (H x) by now left. rewrite IH; [reflexivity|].
  intros y Hy. apply H. now right.
Qed.

Lemma lines_flat_map {X : Type} (g : X -> trace) (xs : list X) :
  lines (flat_map g xs) = flat_map (fun x => lines (g x)) xs.
Proof.
  induction xs as [|x xs IH]; simpl; [reflexivity|].
  now rewrite lines_app, IH.
Qed.

(** With table names that are distinct, as SQLite has them, each table is
    listed with its own columns. *)
Lemma schema_events_lines (d : Database) :
  NoDup (map table_name (tables d)) -> lines (schema_events d) = schema_lines d.
Proof.
  intros Hnd. unfold schema_events, schema_lines. simpl lines. f_equal.
  rewrite lines_flat_map, flat_map_concat_map, map_map, <- flat_map_concat_map.
  apply flat_map_ext_in. intros t Hin. simpl lines. f_equal.
  rewrite lines_printed. unfold table_info.
  now rewrite (find_table (tables d) t Hnd Hin).
Qed.

Lemma db_calls_schema (d : Database) :
  List.length (db_calls (schema_events d)) = S (List.length (tables d)).
Proof.
  unfold schema_events. simpl. f_equal.
  rewrite <- (length_map table_name (tables d)).
  induction (map table_name (tables d)) as [|name names IH]; simpl; [reflexivity|].
  rewrite db_calls_app, db_calls_printed_map. simpl. now rewrite IH.
Qed.

Lemma report_split (w : World) (db_path : string) (f : File) t :
  report w db_path f t =
    bind (db w (Connect db_path) (Ok tt))
      (fun _ => bind (list_schema w (file_db f)) (fun _ => after_schema w f)) t.
Proof. reflexivity. Qed.

Lemma careful_after_schema (w : World) (f : File) : careful (after_schema w f).
Proof.
  unfold after_schema, count_records, count_by_status, show_size,
    show_recent, show_rates, print_rates.
  careful_tac.
Qed.

(** Up to the end of the schema listing, when the calls it makes do not
    fail. *)
Lemma report_until_schema (w : World) (db_path : string) (f : File) :
  (forall n, (n < 2 + List.length (tables (file_db f)))%nat -> fault w n = None) ->
  report w db_path f (banner db_path) =
    after_schema w f
      (banner db_path ++ Called (Connect db_path) None :: schema_events (file_db f)).
Proof.
  intros Hf. rewrite report_split.
  erewrite bind_ok; cycle 1.
  { apply db_at. apply Hf. simpl. lia. }
  erewrite bind_ok; cycle 1.
  { apply list_schema_until. intros n Hn. apply Hf.
    rewrite db_calls_app in Hn. simpl in Hn. lia. }
  simpl raised. rewrite <- app_assoc. reflexivity.
Qed.

(** What a run prints extends what the body of the [try] did. *)
Lemma run_extends (w : World) (db_path : string) (f : File) :
  fs w db_path = Some f ->
  exists tail,
    snd (run w db_path) = snd (report w db_path f (banner db_path)) ++ tail.
Proof.
  intros Hfile. rewrite (run_unfold w db_path f Hfile). unfold try_except.
  destruct (report w db_path f (banner db_path)) as [[[]|e] t].
  - exists []. now rewrite app_nil_r.
  - destruct (is_sqlite_error e); [now eexists|].
    destruct (is_Exception e); [now eexists|].
    exists []. now rewrite app_nil_r.
Qed.



(** ** The records of each status *)

Module GroupFacts.

Import Sql SqlFacts.

Lemma compare_eq (a b : sqlval) : compare a b = Eq -> a = b.
Proof.
  destruct a as [|x|x], b as [|y|y]; simpl; try discriminate; try reflexivity.
  - intros H. apply Z.compare_eq in H. now subst.
  - intros H. apply String.compare_eq_iff in H. now subst.
Qed.

Lemma string_compare_refl (s : string) : String.compare s s = Eq.
Proof.
  induction s as [|a s IH]; simpl; [reflexivity|].
  now rewrite ascii_compare_refl.
Qed.

Lemma compare_refl (a : sqlval) : compare a a = Eq.
Proof.
  destruct a as [|x|x]; simpl;
    [reflexivity | apply Z.compare_refl | apply string_compare_refl].
Qed.

Lemma eqb_eq (a b : sqlval) : eqb a b = true <-> a = b.
Proof.
  unfold eqb. split.
  - destruct (compare a b) eqn:E; try discriminate. intros _. now apply compare_eq.
  - intros ->. now rewrite compare_refl.
Qed.

Lemma compare_lt_trans (a b c : sqlval) :
  compare a b = Lt -> compare b c = Lt -> compare a c = Lt.
Proof.
  intros Hab Hbc.
  assert (Hle : leb a c = true).
  { apply (leb_trans a b c); unfold leb; [now rewrite Hab | now rewrite Hbc]. }
  unfold leb in Hle. destruct (compare a c) eqn:E; [|reflexivity|discriminate].
  apply compare_eq in E. subst c.
  rewrite (compare_antisym b a), Hab in Hbc. discriminate.
Qed.

Lemma group_add_total (v : sqlval) (g : list (sqlval * Z)) :
  listed_total (group_add v g) = listed_total g + 1.
Proof.
  unfold listed_total.
  induction g as [|[k c] g IH]; [reflexivity|].
  cbn [group_add]. destruct (compare v k); cbn [fold_right snd]; lia.
Qed.

Lemma group_add_positive (v : sqlval) (g : list (sqlval * Z)) :
  Forall (fun kc => 1 <= snd kc) g -> Forall (fun kc => 1 <= snd kc) (group_add v g).
Proof.
  induction 1 as [|[k c] g Hk Hg IH]; simpl.
  - repeat constructor. simpl. lia.
  - destruct (compare v k).
    + constructor; [simpl in *; lia | exact Hg].
    + constructor; [simpl; lia|]. now constructor.
    + now constructor.
Qed.

Lemma group_add_keys (v : sqlval) (g : list (sqlval * Z)) (x : sqlval * Z) :
  In x (group_add v g) -> fst x = v \/ exists y, In y g /\ fst x = fst y.
Proof.
  induction g as [|[k c] g IH]; simpl.
  - intros [<-|[]]. now left.
  - destruct (compare v k) eqn:E.
    + intros [<-|H]; right; [exists (k, c) | exists x]; simpl; auto.
    + intros [<-|[<-|H]]; [now left | right; exists (k, c) | right; exists x];
        simpl; auto.
    + intros [<-|H]; [right; exists (k, c); simpl; auto|].
      destruct (IH H) as [?|(y & Hy & ?)]; [now left | right; exists y; auto].
Qed.

Lemma group_add_ascending (v : sqlval) (g : list (sqlval * Z)) :
  ascending g -> ascending (group_add v g).
Proof.
  unfold ascending.
  induction 1 as [|[k c] g Hs IH Hall]; simpl.
  - repeat constructor.
  - destruct (compare v k) eqn:E.
    + constructor; [exact Hs | exact Hall].
    + constructor; [now constructor|].
      constructor; [exact E|].
      eapply Forall_impl; [|exact Hall].
      intros x Hx. simpl in *. eapply compare_lt_trans; eassumption.
    + constructor; [exact IH|].
      rewrite Forall_forall in *. intros x Hx.
      destruct (group_add_keys v g x Hx) as [->|(y & Hy & ->)].
      * simpl. rewrite (compare_antisym k v), E. reflexivity.
      * now apply Hall.
Qed.

Lemma listed_absent (v : sqlval) (g : list (sqlval * Z)) :
  Forall (fun kc => compare v (fst kc) = Lt) g -> listed v g = 0.
Proof.
  unfold listed. induction 1 as [|[k c] g Hk Hg IH]; simpl; [reflexivity|].
  simpl in Hk. unfold eqb at 1. rewrite (compare_antisym k v), Hk. simpl. exact IH.
Qed.

Lemma listed_cons (v k : sqlval) (c : Z) (g : list (sqlval * Z)) :
  listed v ((k, c) :: g) = if eqb k v then c else listed v g.
Proof. unfold listed. simpl. now destruct (eqb k v). Qed.

Lemma group_add_listed (u v : sqlval) (g : list (sqlval * Z)) :
  ascending g ->
  listed v (group_add u g) = listed v g + (if eqb u v then 1 else 0).
Proof.
  unfold ascending.
  induction 1 as [|[k c] g Hs IH Hall]; simpl.
  - rewrite listed_cons. unfold listed. simpl. destruct (eqb u v); lia.
  - destruct (compare u k) eqn:E.
    + apply compare_eq in E. subst k. rewrite !listed_cons.
      destruct (eqb u v); lia.
    + rewrite !listed_cons. destruct (eqb u v) eqn:Euv.
      * apply eqb_eq in Euv. subst v.
        unfold eqb at 1. rewrite (compare_antisym k u), E. simpl.
        rewrite listed_absent; [lia|].
        eapply Forall_impl; [|exact Hall].
        intros x Hx. simpl in Hx. eapply compare_lt_trans; eassumption.
      * lia.
    + rewrite !listed_cons. destruct (eqb k v) eqn:Ekv.
      * apply eqb_eq in Ekv. subst v.
        unfold eqb. rewrite E. lia.
      * exact IH.
Qed.

Lemma fold_group_add (P : list (sqlval * Z) -> Prop) (rows : list Row) :
  (forall v g, P g -> P (group_add v g)) ->
  forall g, P g -> P (fold_left (fun g r => group_add (status r) g) rows g).
Proof.
  intros Hstep. induction rows as [|r rows IH]; intros g Hg; simpl; [exact Hg|].
  apply IH. now apply Hstep.
Qed.

Lemma group_by_status_ascending (rows : list Row) : ascending (group_by_status rows).
Proof.
  unfold group_by_status. apply fold_group_add.
  - intros v g. apply group_add_ascending.
  - constructor.
Qed.

Lemma group_by_status_positive (rows : list Row) :
  Forall (fun kc => 1 <= snd kc) (group_by_status rows).
Proof.
  unfold group_by_status. apply fold_group_add.
  - intros v g. apply group_add_positive.
  - constructor.
Qed.

Lemma fold_total (rows : list Row) : forall g,
  listed_total (fold_left (fun g r => group_add (status r) g) rows g) =
    listed_total g + Z.of_nat (List.length rows).
Proof.
  induction rows as [|r rows IH]; intros g; simpl List.length; simpl fold_left.
  - lia.
  - rewrite IH, group_add_total. lia.
Qed.

Lemma group_by_status_total (rows : list Row) :
  listed_total (group_by_status rows) = count_all rows.
Proof. unfold group_by_status, count_all. now rewrite fold_total. Qed.

Lemma fold_listed (v : sqlval) (rows : list Row) : forall g,
  ascending g ->
  listed v (fold_left (fun g r => group_add (status r) g) rows g) =
    listed v g + Z.of_nat (List.length (filter (fun r => eqb (status r) v) rows)).
Proof.
  induction rows as [|r rows IH]; intros g Hg; simpl fold_left; simpl filter.
  - simpl. lia.
  - rewrite IH by now apply group_add_ascending.
    rewrite group_add_listed by assumption.
    destruct (eqb (status r) v); simpl List.length; lia.
Qed.

Lemma group_by_status_listed (v : sqlval) (rows : list Row) :
  listed v (group_by_status rows) =
    Z.of_nat (List.length (filter (fun r => eqb (status r) v) rows)).
Proof.
  unfold group_by_status. rewrite fold_listed by constructor. reflexivity.
Qed.

Lemma known_counts (rows : list Row) :
  count_status "extracted" rows + count_status "pending" rows + count_status "error" rows
  = Z.of_nat (List.length (filter (fun r => is_known_status (status r)) rows)).
Proof.
  unfold count_status.
  induction rows as [|r rows IH]; [reflexivity|].
  simpl filter. unfold is_known_status at 1.
  destruct (eqb (status r) (SqlText "extracted")) eqn:E1;
    destruct (eqb (status r) (SqlText "pending")) eqn:E2;
    destruct (eqb (status r) (SqlText "error")) eqn:E3;
    try (apply eqb_eq in E1); try (apply eqb_eq in E2); try (apply eqb_eq in E3);
    try congruence; cbn [orb List.length]; lia.
Qed.

Lemma filter_all {X : Type} (p : X -> bool) (xs : list X) :
  List.length (filter p xs) = List.length xs <-> forallb p xs = true.
Proof.
  induction xs as [|x xs IH]; simpl; [tauto|].
  pose proof (filter_length_le p xs) as Hle.
  destruct (p x); simpl; [|split; [lia | discriminate]].
  rewrite <- IH. lia.
Qed.

End GroupFacts.



(** ** The fallback line *)

Lemma py_prefix_all (n : nat) (s : string) :
  (py_len s <= n)%nat -> py_prefix n s = s.
Proof.
  revert n. induction s as [|c s IH]; intros n H; simpl in *; [reflexivity|].
  destruct (is_continuation c).
  - now rewrite IH.
  - destruct n as [|n]; [lia|]. rewrite IH; [reflexivity | lia].
Qed.

Lemma py_prefix_len (n : nat) (s : string) :
  py_len (py_prefix n s) = Nat.min n (py_len s).
Proof.
  revert n. induction s as [|c s IH]; intros n; simpl.
  - now rewrite Nat.min_0_r.
  - destruct (is_continuation c) eqn:E; simpl.
    + rewrite E. apply IH.
    + destruct n as [|n]; [reflexivity|]. simpl. rewrite E, IH. reflexivity.
Qed.

Lemma py_prefix_split (n : nat) (s : string) :
  exists rest, s = (py_prefix n s ++ rest)%string.
Proof.
  revert n. induction s as [|c s IH]; intros n; simpl.
  - now exists "".
  - destruct (is_continuation c).
    + destruct (IH n) as (rest & Hrest). exists rest. simpl. now rewrite <- Hrest.
    + destruct n as [|n]; [now exists (String c s)|].
      destruct (IH n) as (rest & Hrest). exists rest. simpl. now rewrite <- Hrest.
Qed.


(** ** A record whose colours are a number *)

Lemma show_record_number (w : World) (r : Row) (c u : string) (z : Z) t :
  time_text w (created_at r) = Ok c -> time_text w (updated_at r) = Ok u ->
  colors r = SqlInt z -> z <> 0 ->
  show_record w r t =
    (Raise (Exn TypeError "'int' object is not subscriptable"), t ++ record_head r c u).
Proof.
  intros Hc Hu Hz Hne.
  rewrite (show_record_timed w r c u) by assumption.
  rewrite Hz. now apply show_colors_number.
Qed.

Lemma loop_stops (w : World) (pre post : list Row) (bad : Row) (e : exn) (ev : trace) :
  forallb (well_formed w) pre = true ->
  (forall t, show_record w bad t = (Raise e, t ++ ev)) ->
  outcome_of (for_each (pre ++ bad :: post) (show_record w)) = Raise e /\
  events_of (for_each (pre ++ bad :: post) (show_record w)) =
    events_of (for_each pre (show_record w)) ++ ev.
Proof.
  intros Hpre Hbad.
  destruct (show_records_complete w pre Hpre) as [Hok _].
  unfold outcome_of at 1, events_of at 1 2.
  rewrite for_each_app. unfold bind at 1 2.
  rewrite (pure_show_records w pre []). rewrite Hok. simpl app.
  simpl for_each. unfold bind. rewrite Hbad. split; reflexivity.
Qed.


(** ** When the report completes *)

Lemma not_well_formed_raises (w : World) (r : Row) :
  well_formed w r = false -> exists e, outcome_of (show_record w r) = Raise e.
Proof.
  unfold well_formed. intros H.
  destruct (time_text w (created_at r)) as [c|e] eqn:Hc.
  - destruct (time_text w (updated_at r)) as [u|e] eqn:Hu.
    + rewrite (show_record_timed_outcome w r c u Hc Hu).
      destruct (colors r) as [|z|s]; try discriminate H.
      simpl in H. apply Z.eqb_neq in H.
      eexists. unfold outcome_of. now rewrite show_colors_number.
    + exists e. unfold outcome_of. now rewrite (show_record_bad_updated w r c e).
  - exists e. unfold outcome_of. now rewrite (show_record_bad_created w r e).
Qed.

Lemma loop_raises_if (w : World) (rs : list Row) :
  forallb (well_formed w) rs = false ->
  exists e, outcome_of (for_each rs (show_record w)) = Raise e.
Proof.
  induction rs as [|r rs IH]; intros H; [discriminate H|].
  cbn [forallb] in H. rewrite outcome_for_each_cons by apply pure_show_record.
  destruct (well_formed w r) eqn:Hr.
  - rewrite (well_formed_outcome w r Hr). now apply IH.
  - destruct (not_well_formed_raises w r Hr) as (e & ->). now exists e.
Qed.

Lemma db_calls_quiet {A : Type} (m : M A) : quiet m -> db_calls (events_of m) = [].
Proof.
  intros Hm. destruct (Hm []) as (ls & Hls).
  unfold events_of. rewrite Hls. apply db_calls_printed.
Qed.

Lemma db_calls_preamble (db_path : string) (f : File) (rows : list Row) :
  List.length (db_calls (preamble db_path f rows)) =
    (5 + List.length (tables (file_db f)))%nat.
Proof.
  unfold preamble. rewrite !db_calls_app, !length_app.
  rewrite db_calls_schema.
  replace (db_calls (map (fun '(st, count) =>
             Printed ("  - " ++ py_str st ++ ": " ++ str_of_Z count ++ " 个文件"))
             (Sql.group_by_status rows))) with (@nil db_call).
  - simpl. lia.
  - induction (Sql.group_by_status rows) as [|[st count] g IH]; [reflexivity | exact IH].
Qed.


(** ** Interrupts *)

(** A database call that raised is the last thing the body of the [try]
    did. *)
Lemma failed_call_last (w : World) (db_path : string) (c : db_call) (e : exn) :
  In (Called c (Some e)) (snd (run w db_path)) ->
  exists f ev0,
    fs w db_path = Some f /\ clean ev0 /\
    report w db_path f (banner db_path) =
      (Raise e, banner db_path ++ ev0 ++ [Called c (Some e)]).
Proof.
  intros Hin.
  destruct (fs w db_path) as [f|] eqn:Hfile.
  - exists f.
    destruct (careful_report w db_path f (banner db_path)) as (ev & Hev & Hcase).
    destruct (report w db_path f (banner db_path)) as [r t] eqn:Hrep.
    cbn [fst snd] in Hev, Hcase. subst t.
    rewrite (run_unfold w db_path f Hfile) in Hin. unfold try_except in Hin.
    rewrite Hrep in Hin.
    assert (Hin' : In (Called c (Some e)) (banner db_path ++ ev)).
    { destruct r as [[]|e1]; [exact Hin|].
      destruct (is_sqlite_error e1); [|destruct (is_Exception e1)];
        cbn [snd on_database_error on_other_error print] in Hin; [| |exact Hin].
      - apply in_app_or in Hin as [H|[H|[]]]; [exact H | discriminate H].
      - apply in_app_or in Hin as [H|[H|[]]]; [exact H | discriminate H]. }
    apply in_app_or in Hin' as [H|H].
    { exfalso. now apply (clean_not_failed _ c e (banner_clean db_path)). }
    destruct Hcase as [Hclean | (ev0 & c0 & e0 & -> & Hc0 & ->)].
    { exfalso. now apply (clean_not_failed _ c e Hclean). }
    apply in_app_or in H as [H|[H|[]]].
    { exfalso. now apply (clean_not_failed _ c e Hc0). }
    injection H as <- <-. exists ev0. repeat split; assumption.
  - exfalso. unfold run, query_colors_db in Hin. rewrite Hfile in Hin.
    destruct Hin as [H|[]]. discriminate H.
Qed.

(** ** The numerals of the report *)

Module Numerals.

Import Float FloatFacts FloatError.

Lemma pad_two (r : Z) :
  0 <= r < 100 ->
  Float.pad_left 2 (str_of_Z r) =
    String (digit (r / 10 mod 10)) (String (digit (r mod 10)) "").
Proof.
  intros Hr.
  assert (H : forallb
                (fun i => String.eqb (Float.pad_left 2 (str_of_Z (Z.of_nat i)))
                            (String (digit (Z.of_nat i / 10 mod 10))
                               (String (digit (Z.of_nat i mod 10)) "")))
                (seq 0 100) = true) by (vm_compute; reflexivity).
  rewrite forallb_forall in H.
  specialize (H (Z.to_nat r)). rewrite Z2Nat.id in H by lia.
  apply String.eqb_eq, H, in_seq. lia.
Qed.

Lemma pad_one (r : Z) :
  0 <= r < 10 -> Float.pad_left 1 (str_of_Z r) = String (digit (r mod 10)) "".
Proof.
  intros Hr.
  assert (H : forallb
                (fun i => String.eqb (Float.pad_left 1 (str_of_Z (Z.of_nat i)))
                            (String (digit (Z.of_nat i mod 10)) ""))
                (seq 0 10) = true) by (vm_compute; reflexivity).
  rewrite forallb_forall in H.
  specialize (H (Z.to_nat r)). rewrite Z2Nat.id in H by lia.
  apply String.eqb_eq, H, in_seq. lia.
Qed.

(** The text of the formatter is the numeral, digit by digit. *)
Lemma fixed_text_one (n : Z) : 0 <= n -> Float.fixed_text false n 1 = decimal n 1.
Proof.
  intros Hn. unfold Float.fixed_text, decimal.
  change (10 ^ Z.of_nat 1) with 10. cbn [last_digits].
  rewrite pad_one by (apply Z.mod_pos_bound; lia).
  rewrite Z.mod_mod by lia. reflexivity.
Qed.

Lemma fixed_text_two (n : Z) : 0 <= n -> Float.fixed_text false n 2 = decimal n 2.
Proof.
  intros Hn. unfold Float.fixed_text, decimal.
  change (10 ^ Z.of_nat 2) with 100. cbn [last_digits].
  rewrite pad_two by (apply Z.mod_pos_bound; lia).
  assert (H : n mod 100 = n mod 10 + 10 * ((n / 10) mod 10)).
  { pose proof (Z.div_mod n 10 ltac:(lia)).
    pose proof (Z.div_mod (n / 10) 10 ltac:(lia)).
    pose proof (Z.mod_pos_bound n 10 ltac:(lia)).
    pose proof (Z.mod_pos_bound (n / 10) 10 ltac:(lia)).
    symmetry. apply (Z.mod_unique n 100 (n / 10 / 10)); lia. }
  pose proof (Z.mod_pos_bound n 10 ltac:(lia)) as H0.
  pose proof (Z.mod_pos_bound (n / 10) 10 ltac:(lia)) as H1.
  replace (n mod 100 / 10 mod 10) with (n / 10 mod 10).
  - replace (n mod 100 mod 10) with (n mod 10); [reflexivity|].
    apply (Z.mod_unique _ 10 (n / 10 mod 10)); lia.
  - replace (n mod 100 / 10) with (n / 10 mod 10).
    + symmetry. apply Z.mod_small. lia.
    + apply (Z.div_unique _ 10 _ (n mod 10)); lia.
Qed.

Lemma round_half_even_nearest (num den : Z) :
  0 < den -> nearest_even (Float.round_half_even num den) num den.
Proof.
  intros Hd. unfold nearest_even, Float.round_half_even.
  pose proof (Z.div_mod num den ltac:(lia)) as Hdm.
  pose proof (Z.mod_pos_bound num den Hd) as Hr.
  set (q := num / den) in *. set (r := num mod den) in *.
  destruct (Z.compare_spec (2 * r) den) as [E|E|E].
  - destruct (Z.even q) eqn:Eq.
    + split; [nia | intros _; exact Eq].
    + split; [nia|]. intros _. rewrite Z.even_add, Eq. reflexivity.
  - split; [nia|]. intros H. exfalso. nia.
  - split; [nia|]. intros H. exfalso. nia.
Qed.



Lemma Zdigits2_lower (m : Z) : 0 < m -> 2 ^ (Zdigits2 m - 1) <= m.
Proof.
  intros Hm. destruct m as [|p|p]; [lia | | lia].
  apply digits2_pos_bounds.
Qed.

(** From the quotient [q] of [a * S] by 1024, kept within two units [U], and
    the rounding of its hundredths, to the distance between [n] hundredths
    and [a / 1024]. *)
Lemma kib_chain (a q r p n S U X : Z) :
  2 ^ 63 <= a * S -> 0 < S ->
  a * S = 1024 * q + r -> 0 <= r < 1024 ->
  q - 2 * U <= p * U <= q + U -> 1 <= U <= 4 ->
  - S <= 2 * X <= S ->
  S * (1024 * n) = 1024 * X + 102400 * (p * U) ->
  2 ^ 49 * Z.abs (1024 * n - 100 * a) <= 2 ^ 58 + 100 * a.
Proof.
  intros Ha HS Hq Hr Hp HU HX Hn.
  assert (E : S * (1024 * n - 100 * a) = 1024 * X + 102400 * (p * U - q) - 100 * r) by lia.
  assert (B : Z.abs (S * (1024 * n - 100 * a)) <= 512 * S + 921600) by lia.
  rewrite Z.abs_mul, (Z.abs_eq S) in B by lia.
  assert (C : 2 ^ 49 * 921600 <= 100 * 2 ^ 63) by (vm_compute; discriminate).
  set (Y := Z.abs (1024 * n - 100 * a)) in *.
  change (2 ^ 49) with 562949953421312 in *. change (2 ^ 58) with 288230376151711744.
  change (2 ^ 63) with 9223372036854775808 in *.
  nia.
Qed.

(** The size in KB as the report shows it is the numeral of [n] hundredths,
    [n / 100] being [size / 1024] rounded to two decimals, after a rounding of
    the quotient that moves it by less than [2^-49] of its value. *)
Lemma kib_text_large (a : Z) :
  2 ^ 53 <= a < 2 ^ 63 ->
  exists n,
    kib_text a = fixed_text false n 2 /\ 0 <= n /\
    2 ^ 49 * Z.abs (1024 * n - 100 * a) <= 2 ^ 58 + 100 * a.
Proof.
  intros Ha. unfold kib_text, quotient, SFdiv_core_binary.
  assert (Hpos : 0 < a) by (assert (0 < 2 ^ 53) by reflexivity; lia).
  rewrite (Z.abs_eq a) by lia. change (Z.abs 1024) with 1024.
  replace (a <? 0) with false by (symmetry; apply Z.ltb_ge; lia).
  change (1024 <? 0) with false. cbn [xorb].
  change (Zdigits2 1024) with 11.
  pose proof (Zdigits2_bound a ltac:(lia)) as Hhi.
  pose proof (Zdigits2_lower a Hpos) as Hlo.
  assert (Hd : 54 <= Zdigits2 a <= 63).
  { split.
    - destruct (Z_lt_le_dec (Zdigits2 a) 54) as [H|H]; [|exact H].
      exfalso. assert (2 ^ Zdigits2 a <= 2 ^ 53)
        by (apply Z.pow_le_mono_r; [lia|lia]). lia.
    - apply Zdigits2_le; lia. }
  set (e := Z.min _ _).
  assert (He : e = Zdigits2 a - 64).
  { subst e. unfold fexp, emin, prec, emax. lia. }
  assert (Hm : (match 0 - 0 - e with
                | 0 => a
                | Z.pos _ => Z.shiftl a (0 - 0 - e)
                | Z.neg _ => 0
                end) = a * 2 ^ (- e)).
  { replace (0 - 0 - e) with (- e) by lia.
    destruct (- e) as [|p|p] eqn:E; [lia| |lia].
    rewrite Z.shiftl_mul_pow2 by lia. reflexivity. }
  rewrite Hm. clear Hm.
  assert (HS : 2 ^ 63 <= a * 2 ^ (- e) < 2 ^ 64).
  { rewrite (pow2_split 63 (- e)) by lia.
    rewrite (pow2_split 64 (- e)) by lia.
    replace (63 - - e) with (Zdigits2 a - 1) by lia.
    replace (64 - - e) with (Zdigits2 a) by lia.
    assert (0 < 2 ^ (- e)) by (apply Z.pow_pos_nonneg; lia).
    split; nia. }
  assert (Hp : 0 < 2 ^ (- e)) by (apply Z.pow_pos_nonneg; lia).
  pose proof (Z_div_mod (a * 2 ^ (- e)) 1024 ltac:(lia)) as Hdm.
  destruct (Z.div_eucl (a * 2 ^ (- e)) 1024) as [q r].
  destruct Hdm as [Hq Hr].
  assert (Hq0 : 2 ^ 53 - 1 <= q).
  { change (2 ^ 63) with (1024 * 2 ^ 53) in HS. lia. }
  assert (Hq1 : q < 2 ^ 54).
  { change (2 ^ 64) with (1024 * 2 ^ 54) in HS. lia. }
  destruct (binary_round_aux_error false q e (new_location 1024 r) (54 + e))
    as (mx & ex & Hx & Hmx & Hex & Herr).
  - assert (0 < 2 ^ 53) by reflexivity. lia.
  - replace (54 + e - e) with 54 by lia. exact Hq1.
  - lia.
  - unfold fexp, emin, prec, emax. lia.
  - rewrite Hx.
    assert (Hex' : e <= ex <= e + 2).
    { clear Hq Herr HS Hlo Hhi. unfold fexp, emin, prec, emax in Hex. lia. }
    clear Hex.
    set (U := 2 ^ (ex - e)) in *.
    assert (HU : 1 <= U <= 4).
    { subst U. assert (HE : ex - e = 0 \/ ex - e = 1 \/ ex - e = 2) by lia.
      destruct HE as [E|[E|E]]; rewrite E;
        [change (2 ^ 0) with 1 | change (2 ^ 1) with 2 | change (2 ^ 2) with 4]; lia. }
    assert (Hmx' : 0 < mx).
    { assert (2 ^ 53 = 9007199254740992) by reflexivity. nia. }
    destruct mx as [|p|p]; [lia | | lia].
    cbn [float_of format_f].
    change (10 ^ Z.of_nat 2) with 100.
    destruct (0 <=? ex) eqn:Ee.
    + apply Z.leb_le in Ee.
      exists (Z.pos p * 2 ^ ex * 100).
      assert (Hpe : 0 < 2 ^ ex) by (apply Z.pow_pos_nonneg; lia).
      split; [reflexivity|]. split; [nia|].
      apply (kib_chain a q r (Z.pos p) _ (2 ^ (- e)) U 0); try lia.
      assert (EU : U = 2 ^ ex * 2 ^ (- e)).
      { subst U. rewrite <- Z.pow_add_r by lia. reflexivity. }
      rewrite EU. ring.
    + apply Z.leb_gt in Ee.
      set (D := 2 ^ (- ex)).
      assert (HD : 0 < D) by (apply Z.pow_pos_nonneg; lia).
      exists (round_half_even (Z.pos p * 100) D).
      pose proof (round_half_even_error (Z.pos p * 100) D HD) as Hn.
      set (n := round_half_even (Z.pos p * 100) D) in *.
      split; [reflexivity|]. split; [nia|].
      assert (ES : 2 ^ (- e) = D * U).
      { subst D U. rewrite <- Z.pow_add_r by lia. f_equal. lia. }
      apply (kib_chain a q r (Z.pos p) n (2 ^ (- e)) U (U * (n * D - Z.pos p * 100)));
        try lia; rewrite ES; try ring; nia.
Qed.

Lemma percent_text_share (count total : Z) :
  0 <= count <= total -> 0 < total ->
  exists n, percent_text count total = decimal n 1 /\ share n count total.
Proof.
  intros Hc Ht.
  destruct (percent_text_error count total Hc Ht) as (n & Hn & Herr).
  pose proof (tenths_bounds n count total Hc Ht Herr) as Hb.
  exists n. rewrite Hn, fixed_text_one by lia. split; [reflexivity|].
  split; assumption.
Qed.

Lemma share_sum (e p r E P R N : Z) :
  share e E N -> share p P N -> share r R N -> E + P + R = N -> 0 < N ->
  999 <= e + p + r <= 1001.
Proof.
  intros [_ He] [_ Hp] [_ Hr] Hsum HN.
  change (2 ^ 39) with 549755813888 in *. change (2 ^ 38) with 274877906944 in *.
  assert (H : 549755813888 * Z.abs ((e + p + r) * N - 1000 * N)
              <= 3 * (274877906944 + 1) * N) by lia.
  replace ((e + p + r) * N - 1000 * N) with ((e + p + r - 1000) * N) in H by ring.
  rewrite Z.abs_mul, (Z.abs_eq N) in H by lia.
  assert (Z.abs (e + p + r - 1000) <= 1) by nia.
  lia.
Qed.

Lemma kib_text_hundredths (size : Z) :
  0 <= size < 2 ^ 63 ->
  exists n, kib_text size = decimal n 2 /\ hundredths_of_kib n size.
Proof.
  intros Hs. destruct (Z_lt_le_dec size (2 ^ 53)) as [Hsmall|Hlarge].
  - exists (round_half_even (size * 100) 1024).
    pose proof (round_half_even_nearest (size * 100) 1024 ltac:(lia)) as Hn.
    assert (H0 : 0 <= round_half_even (size * 100) 1024).
    { destruct Hn as [Hn _]. lia. }
    rewrite kib_text_exact, fixed_text_two by lia.
    split; [reflexivity|]. split; [exact H0|]. split.
    + destruct Hn as [Hn _].
      change (2 ^ 49) with 562949953421312. change (2 ^ 58) with 288230376151711744.
      lia.
    + intros _. replace (100 * size) with (size * 100) by ring. exact Hn.
  - destruct (kib_text_large size ltac:(lia)) as (n & Hn & H0 & Herr).
    exists n. rewrite Hn, fixed_text_two by lia.
    split; [reflexivity|]. split; [exact H0|]. split; [exact Herr|].
    intros H. lia.
Qed.


End Numerals.

(** ** Up to the file size *)

Lemma careful_after_size (w : World) (f : File) (total : Z) :
  careful (after_size w f total).
Proof.
  unfold after_size, show_recent, show_rates, print_rates.
  careful_tac.
Qed.

(** Up to the line of the file size, when the calls made before it do not
    fail. *)
Lemma report_until_size (w : World) (db_path : string) (f : File) (rows : list Row) :
  dominant_colors (file_db f) = Some rows -> size_fits f ->
  (forall n, (n < 4 + List.length (tables (file_db f)))%nat -> fault w n = None) ->
  report w db_path f (banner db_path) =
    after_size w f (Sql.count_all rows)
      (banner db_path ++ before_size db_path f rows ++
       [Printed (nl ++ "数据库文件大小: " ++ kib_text (file_size f) ++ " KB")]).
Proof.
  intros Hrows Hsize Hf.
  rewrite report_until_schema by (intros n Hn; apply Hf; lia).
  assert (Hlen : List.length
                   (db_calls (banner db_path ++ Called (Connect db_path) None ::
                              schema_events (file_db f))) =
                 (2 + List.length (tables (file_db f)))%nat).
  { rewrite db_calls_app, length_app.
    change (db_calls (banner db_path)) with (@nil db_call).
    cbn [db_calls List.length]. rewrite db_calls_schema. lia. }
  unfold after_schema, count_records.
  rewrite bind_assoc.
  erewrite bind_ok; cycle 1.
  { rewrite db_at.
    - rewrite (select_rows f rows Hrows). reflexivity.
    - apply Hf. rewrite Hlen. lia. }
  rewrite bind_assoc, bind_print. unfold ret at 1. unfold bind at 1.
  unfold count_by_status. rewrite bind_assoc.
  erewrite bind_ok; cycle 1.
  { rewrite db_at.
    - rewrite (select_rows f rows Hrows). reflexivity.
    - apply Hf. rewrite !db_calls_app, !length_app.
      rewrite db_calls_app, length_app in Hlen. rewrite Hlen.
      cbn [db_calls List.length raised]. lia. }
  rewrite bind_assoc, bind_print.
  erewrite bind_ok by apply for_each_status_lines.
  unfold show_size. rewrite (kib_ok (file_size f) Hsize).
  rewrite bind_assoc, bind_eval_ok, bind_print.
  unfold after_size, before_size. f_equal.
  cbn [raised]. rewrite <- !app_assoc. reflexivity.
Qed.

(** What the report does after the line of the file size comes after
    it. *)
Lemma run_until_size (w : World) (db_path : string) (f : File) (rows : list Row) :
  fs w db_path = Some f ->
  dominant_colors (file_db f) = Some rows -> size_fits f ->
  (forall n, (n < 4 + List.length (tables (file_db f)))%nat -> fault w n = None) ->
  exists after,
    snd (run w db_path) =
      banner db_path ++ before_size db_path f rows ++
      Printed (nl ++ "数据库文件大小: " ++ kib_text (file_size f) ++ " KB") :: after.
Proof.
  intros Hfile Hrows Hsize Hf.
  destruct (run_extends w db_path f Hfile) as (tail & Htail).
  rewrite (report_until_size w db_path f rows Hrows Hsize Hf) in Htail.
  destruct (careful_after_size w f (Sql.count_all rows)
              (banner db_path ++ before_size db_path f rows ++
               [Printed (nl ++ "数据库文件大小: " ++ kib_text (file_size f) ++ " KB")]))
    as (ev & Hev & _).
  rewrite Hev in Htail. exists (ev ++ tail). rewrite Htail.
  rewrite <- !app_assoc. reflexivity.
Qed.

(** ** A record the loop gets past *)

Lemma loop_goes_on (w : World) (pre post : list Row) (r : Row) (ev : trace) :
  forallb (well_formed w) pre = true ->
  (forall t, show_record w r t = (Ok tt, t ++ ev)) ->
  outcome_of (for_each (pre ++ r :: post) (show_record w)) =
    outcome_of (for_each post (show_record w)) /\
  events_of (for_each (pre ++ r :: post) (show_record w)) =
    events_of (for_each pre (show_record w)) ++ ev ++
    events_of (for_each post (show_record w)).
Proof.
  intros Hpre Hr.
  destruct (show_records_complete w pre Hpre) as [Hok _].
  unfold outcome_of at 1, events_of at 1 2.
  rewrite for_each_app. unfold bind at 1 2.
  rewrite (pure_show_records w pre []). rewrite Hok. simpl app.
  simpl for_each. unfold bind. rewrite Hr.
  rewrite (pure_show_records w post). cbn [fst snd].
  rewrite <- app_assoc. split; reflexivity.
Qed.

Lemma select_recent_rows (rows : list Row) :
  Sql.select_recent rows <> [] -> 0 < Sql.count_all rows.
Proof.
  destruct rows as [|r rows]; [intros H; now destruct H|].
  intros _. unfold Sql.count_all. simpl List.length. lia.
Qed.

(** ** The records a run lists, whatever fails *)

Section Unlisted.

Context {A B : Type}.

Lemma unlisted_ret (a : A) : unlisted (ret a).
Proof. intros t. exists []. split; [symmetry; apply app_nil_r | reflexivity]. Qed.

Lemma unlisted_eval (r : result A) : unlisted (eval r).
Proof. intros t. exists []. split; [symmetry; apply app_nil_r | reflexivity]. Qed.

Lemma unlisted_print (l : string) : is_file_line l = false -> unlisted (print l).
Proof.
  intros H t. exists [Printed l]. split; [reflexivity|].
  simpl. now rewrite H.
Qed.

Lemma unlisted_db (w : World) (c : db_call) (answer : result A) :
  unlisted (db w c answer).
Proof.
  intros t. unfold db.
  destruct (fault w (List.length (db_calls t))); eexists; split; reflexivity.
Qed.

Lemma unlisted_bind (m : M A) (k : A -> M B) :
  unlisted m -> (forall a, unlisted (k a)) -> unlisted (bind m k).
Proof.
  intros Hm Hk t. unfold bind.
  destruct (Hm t) as (ev1 & E1 & F1).
  destruct (m t) as [[a|e] t1]; cbn [snd] in E1; subst t1.
  - destruct (Hk a (t ++ ev1)) as (ev2 & E2 & F2).
    exists (ev1 ++ ev2). rewrite E2, <- app_assoc. split; [reflexivity|].
    now rewrite lines_app, filter_app, F1, F2.
  - exists ev1. split; [reflexivity | exact F1].
Qed.

Lemma lists_unlisted (rs : list Row) (m : M A) : unlisted m -> lists rs m.
Proof.
  intros Hm t. destruct (Hm t) as (ev & E & F).
  exists ev, O. split; [exact E | exact F].
Qed.

Lemma lists_bind (rs : list Row) (m : M A) (k : A -> M B) :
  unlisted m -> (forall a, lists rs (k a)) -> lists rs (bind m k).
Proof.
  intros Hm Hk t. unfold bind.
  destruct (Hm t) as (ev1 & E1 & F1).
  destruct (m t) as [[a|e] t1]; cbn [snd] in E1; subst t1.
  - destruct (Hk a (t ++ ev1)) as (ev2 & j & E2 & F2).
    exists (ev1 ++ ev2), j. rewrite E2, <- app_assoc. split; [reflexivity|].
    now rewrite lines_app, filter_app, F1, F2.
  - exists ev1, O. split; [reflexivity | exact F1].
Qed.

End Unlisted.

Lemma unlisted_for_each {X : Type} (xs : list X) (body : X -> M unit) :
  (forall x, unlisted (body x)) -> unlisted (for_each xs body).
Proof.
  intros Hb. induction xs as [|x xs IH]; simpl.
  - apply unlisted_ret.
  - apply unlisted_bind; [apply Hb | intros _; exact IH].
Qed.

Ltac unlisted_tac :=
  repeat first
    [ apply unlisted_db
    | apply unlisted_eval
    | apply unlisted_ret
    | apply unlisted_print; reflexivity
    | apply unlisted_bind; [|intros ?]
    | apply unlisted_for_each; intros ?
    | match goal with x : (sqlval * Z)%type |- _ => destruct x end ].

(** The loop lists the first of its records, and what follows it lists
    none. *)
Lemma lists_loop (w : World) (rs : list Row) {B : Type} (k : unit -> M B) :
  (forall a, unlisted (k a)) ->
  lists rs (bind (for_each rs (show_record w)) k).
Proof.
  intros Hk t. unfold bind.
  rewrite (pure_show_records w rs t).
  destruct (show_records_file_lines w rs) as (j & Hj & _).
  destruct (outcome_of (for_each rs (show_record w))) as [[]|e].
  - destruct (Hk tt (t ++ events_of (for_each rs (show_record w)))) as (ev & E & F).
    exists (events_of (for_each rs (show_record w)) ++ ev), j.
    rewrite E, <- app_assoc. split; [reflexivity|].
    now rewrite lines_app, filter_app, Hj, F, app_nil_r.
  - exists (events_of (for_each rs (show_record w))), j.
    split; [reflexivity | exact Hj].
Qed.

Lemma lists_recent (w : World) (d : Database) {B : Type} (k : unit -> M B) :
  (forall a, unlisted (k a)) ->
  lists (recent_records d) (bind (show_recent w d) k).
Proof.
  intros Hk t. unfold show_recent.
  rewrite bind_assoc, bind_print, bind_assoc.
  unfold bind at 1, db.
  destruct (fault w (List.length (db_calls (t ++ [Printed (nl ++ "最近处理的5个文件:")]))))
    as [e|].
  - eexists. exists O. rewrite <- app_assoc. split; reflexivity.
  - unfold select, table_rows, recent_records.
    destruct (dominant_colors d) as [rows|].
    + destruct (lists_loop w (Sql.select_recent rows) k Hk
                  ((t ++ [Printed (nl ++ "最近处理的5个文件:")]) ++
                   [Called (Execute Q_recent) None]))
        as (ev & j & E & F).
      exists ([Printed (nl ++ "最近处理的5个文件:"); Called (Execute Q_recent) None]
              ++ ev), j.
      cbn [raised]. rewrite E, <- !app_assoc. split; [reflexivity|].
      rewrite lines_app, filter_app, F. reflexivity.
    + eexists. exists O. rewrite <- app_assoc. split; reflexivity.
Qed.

Lemma lists_report (w : World) (db_path : string) (f : File) :
  lists (recent_records (file_db f)) (report w db_path f).
Proof.
  unfold report, list_schema, count_records, count_by_status, show_size.
  apply lists_bind; [unlisted_tac | intros _].
  apply lists_bind; [unlisted_tac | intros _].
  apply lists_bind; [unlisted_tac | intros total].
  apply lists_bind; [unlisted_tac | intros _].
  apply lists_bind; [unlisted_tac | intros _].
  apply lists_recent. intros _.
  unfold show_rates, print_rates. unlisted_tac.
Qed.

(** The first lines of records in the output of a run are those of the
    first recent records, whichever calls fail. *)
Lemma run_lists (w : World) (db_path : string) (f : File) :
  fs w db_path = Some f ->
  exists j,
    filter is_file_line (output w db_path) =
      map file_line (firstn j (recent_records (file_db f))).
Proof.
  intros Hfile. unfold output.
  rewrite (run_unfold w db_path f Hfile). unfold try_except.
  destruct (lists_report w db_path f (banner db_path)) as (ev & j & E & F).
  exists j.
  destruct (report w db_path f (banner db_path)) as [[[]|e] t1];
    cbn [snd] in E; subst t1.
  - cbn [snd]. rewrite lines_app, filter_app, F. reflexivity.
  - destruct (is_sqlite_error e); [|destruct (is_Exception e)];
      unfold on_database_error, on_other_error, print; cbn [snd];
      rewrite ?lines_app, ?filter_app, F; cbn; now rewrite ?app_nil_r.
Qed.


(** * The claims *)

(** C1. On a table without rows the success-rate section prints its header
    and then fails on the first division by the total: the run ends with the
    message for unknown errors, [division by zero], no percentage is
    printed and the connection is not closed. *)
Theorem C1_empty_table_division (w : World) (db_path : string) (f : File) :
  fs w db_path = Some f -> calm w ->
  dominant_colors (file_db f) = Some [] -> size_fits f ->
  run w db_path =
    (Ok tt,
     banner db_path ++ preamble db_path f [] ++ rate_queries ++
     [Printed rates_header; Printed "未知错误: division by zero"]).
Proof.
  intros Hfile Hcalm Hrows Hsize.
  now apply (run_empty w db_path f [] Hfile Hcalm Hrows Hsize).
Qed.

Lemma C1_empty_table_division_witness :
  run (sample_world (Some []) no_fault) "colors.db" =
    (Ok tt,
     banner "colors.db" ++ preamble "colors.db" (sample_file (Some [])) [] ++
     rate_queries ++ [Printed rates_header; Printed "未知错误: division by zero"]).
Proof.
  apply (C1_empty_table_division (sample_world (Some []) no_fault) "colors.db"
           (sample_file (Some []))).
  - reflexivity.
  - apply calm_no_fault.
  - reflexivity.
  - apply sample_size_fits.
Defined.

(** C2, as the code has it.  Take a database that answers every call, in a
    file of a size a file can have, whose table has [N > 0] rows, [E] of
    them extracted, [P] pending and [R] in error with [N = E + P + R], and
    whose recent records are all displayed without an exception (the loop
    over them comes before the success rate, and what it raises ends the
    report).  Then the run ends with the header of the success rate, the
    three lines that show [E], [P] and [R], each followed by its share of
    [N] in percent as a numeral with one decimal, and the closing of the
    connection.  The share shown is [n] tenths, [n] being [1000 * count / N]
    rounded to an integer, up to the rounding of the floats; the three
    shares shown add up to 100.0 within one tenth. *)
Theorem C2_success_rate (w : World) (db_path : string) (f : File) (rows : list Row)
    (N E P R : Z) :
  fs w db_path = Some f -> calm w ->
  dominant_colors (file_db f) = Some rows -> size_fits f ->
  forallb (well_formed w) (Sql.select_recent rows) = true ->
  Sql.count_all rows = N ->
  Sql.count_status "extracted" rows = E ->
  Sql.count_status "pending" rows = P ->
  Sql.count_status "error" rows = R ->
  0 < N -> N = E + P + R ->
  exists (e p r : Z) (before_rates : trace),
    run w db_path =
      (Ok tt,
       before_rates ++
       [Printed (nl ++ "处理状态统计:");
        Printed ("  已提取: " ++ str_of_Z E ++ " (" ++ decimal e 1 ++ "%)");
        Printed ("  待处理: " ++ str_of_Z P ++ " (" ++ decimal p 1 ++ "%)");
        Printed ("  错误: " ++ str_of_Z R ++ " (" ++ decimal r 1 ++ "%)");
        Called Close None]) /\
    share e E N /\ share p P N /\ share r R N /\
    999 <= e + p + r <= 1001.
Proof.
  intros Hfile Hcalm Hrows Hsize Hwf HN HE HP HR Hpos Hsum.
  subst N E P R.
  set (N := Sql.count_all rows) in *.
  destruct (Numerals.percent_text_share (Sql.count_status "extracted" rows) N
              (count_status_bounds "extracted" rows) Hpos) as (e & Te & Se).
  destruct (Numerals.percent_text_share (Sql.count_status "pending" rows) N
              (count_status_bounds "pending" rows) Hpos) as (p & Tp & Sp).
  destruct (Numerals.percent_text_share (Sql.count_status "error" rows) N
              (count_status_bounds "error" rows) Hpos) as (r & Tr & Sr).
  exists e, p, r,
    (banner db_path ++ preamble db_path f rows ++
     events_of (for_each (Sql.select_recent rows) (show_record w)) ++ rate_queries).
  destruct (show_records_complete w _ Hwf) as [Hok _].
  split; [|split; [exact Se|split; [exact Sp|split; [exact Sr|]]]].
  - rewrite (run_complete w db_path f rows Hfile Hcalm Hrows Hsize Hok Hpos).
    unfold rate_lines, rate_line, rates_header. fold N.
    rewrite Te, Tp, Tr.
    rewrite <- !app_assoc. reflexivity.
  - apply (Numerals.share_sum e p r _ _ _ N Se Sp Sr); [symmetry; exact Hsum | exact Hpos].
Qed.

Lemma C2_success_rate_witness :
  exists before_rates,
    run (sample_world (Some three_rows) no_fault) "colors.db" =
      (Ok tt,
       before_rates ++
       [Printed (nl ++ "处理状态统计:");
        Printed "  已提取: 1 (33.3%)";
        Printed "  待处理: 1 (33.3%)";
        Printed "  错误: 1 (33.3%)";
        Called Close None]).
Proof.
  destruct (C2_success_rate (sample_world (Some three_rows) no_fault) "colors.db"
              (sample_file (Some three_rows)) three_rows 3 1 1 1)
    as (e & p & r & before_rates & Hrun & [_ He] & [_ Hp] & [_ Hr] & _).
  - reflexivity.
  - apply calm_no_fault.
  - reflexivity.
  - apply sample_size_fits.
  - vm_compute. reflexivity.
  - reflexivity.
  - reflexivity.
  - reflexivity.
  - reflexivity.
  - lia.
  - reflexivity.
  - exists before_rates. rewrite Hrun.
    change (2 ^ 39) with 549755813888 in *. change (2 ^ 38) with 274877906944 in *.
    assert (e = 333) by lia. assert (p = 333) by lia. assert (r = 333) by lia.
    subst e p r. reflexivity.
Defined.

(** C2, as it is stated, fails: a table of one row, extracted, has
    [N = E = 1] and [P = R = 0], the database answers every call, and the
    report prints no success rate, because the creation time of the row is
    missing and the loop over the recent records ends the report. *)
Lemma C2_counterexample :
  Sql.count_all [untimed_row] = 1 /\
  Sql.count_status "extracted" [untimed_row] = 1 /\
  Sql.count_status "pending" [untimed_row] = 0 /\
  Sql.count_status "error" [untimed_row] = 0 /\
  calm (sample_world (Some [untimed_row]) no_fault) /\
  ~ In (nl ++ "处理状态统计:")%string
      (output (sample_world (Some [untimed_row]) no_fault) "colors.db") /\
  forallb (fun line => negb (starts_with "  已提取: " line))
    (output (sample_world (Some [untimed_row]) no_fault) "colors.db") = true.
Proof.
  repeat (split; [reflexivity|]).
  split; [apply calm_no_fault|]. split; [|vm_compute; reflexivity].
  vm_compute. intros H.
  repeat (destruct H as [H|H]; [discriminate H|]).
  exact H.
Qed.

(** C3. When the path does not exist the run prints the not-found message,
    which includes the path, makes no database call at all, and ends
    there. *)
Theorem C3_missing_file (w : World) (db_path : string) :
  fs w db_path = None ->
  run w db_path = (Ok tt, [Printed ("数据库文件不存在: " ++ db_path)]) /\
  output w db_path = ["数据库文件不存在: " ++ db_path]%string /\
  calls_made w db_path = [].
Proof.
  intros H. unfold output, calls_made, run, query_colors_db. rewrite H.
  repeat split.
Qed.

Lemma C3_missing_file_witness :
  run (sample_world (Some three_rows) no_fault) "nowhere.db" =
    (Ok tt, [Printed "数据库文件不存在: nowhere.db"]) /\
  output (sample_world (Some three_rows) no_fault) "nowhere.db" =
    ["数据库文件不存在: nowhere.db"]%string /\
  calls_made (sample_world (Some three_rows) no_fault) "nowhere.db" = [].
Proof.
  apply (C3_missing_file (sample_world (Some three_rows) no_fault) "nowhere.db").
  reflexivity.
Defined.

(** C4. When a database call of the run (the connection or a query) raises
    an exception of class [Exception], the run returns normally and its
    trace ends with that call followed by one line: the database-error
    message with the text of the exception when it is an [sqlite3.Error], the
    unknown-error message with its text otherwise; nothing is done between
    the call and the message, nor after it.  Any exception of class
    [Exception] that the body raises, whatever raised it, is caught the same
    way, and no such exception leaves the function. *)
Theorem C4_errors_caught (w : World) (db_path : string) (c : db_call) (e : exn) :
  In (Called c (Some e)) (snd (run w db_path)) -> is_Exception e = true ->
  fst (run w db_path) = Ok tt /\
  (exists before,
     clean before /\
     snd (run w db_path) = before ++ [Called c (Some e); Printed (error_line e)]) /\
  (is_sqlite_error e = true -> error_line e = "数据库错误: " ++ exn_msg e)%string /\
  (is_sqlite_error e = false -> error_line e = "未知错误: " ++ exn_msg e)%string /\
  (forall f e' t,
     fs w db_path = Some f ->
     report w db_path f (banner db_path) = (Raise e', t) ->
     is_Exception e' = true ->
     run w db_path = (Ok tt, t ++ [Printed (error_line e')])) /\
  (forall e', fst (run w db_path) = Raise e' -> is_Exception e' = false).
Proof.
  intros Hin He.
  assert (Hlines : (is_sqlite_error e = true -> error_line e = "数据库错误: " ++ exn_msg e)%string /\
                   (is_sqlite_error e = false -> error_line e = "未知错误: " ++ exn_msg e)%string).
  { unfold error_line. split; intros ->; reflexivity. }
  destruct Hlines as [Hl1 Hl2].
  assert (Hmain : fst (run w db_path) = Ok tt /\
            exists before, clean before /\
              snd (run w db_path) = before ++ [Called c (Some e); Printed (error_line e)]).
  { destruct (fs w db_path) as [f|] eqn:Hfile.
    - destruct (careful_report w db_path f (banner db_path)) as (ev & Hev & Hcase).
      destruct (report w db_path f (banner db_path)) as [r t] eqn:Hrep.
      cbn [fst snd] in Hev, Hcase. subst t.
      assert (Hclean_run : clean ev -> False).
      { intros Hclean. apply (clean_not_failed (snd (run w db_path)) c e); [|exact Hin].
        rewrite (run_unfold w db_path f Hfile). unfold try_except. rewrite Hrep.
        destruct r as [[]|e1]; cbn [snd].
        - apply clean_app; [apply banner_clean | exact Hclean].
        - destruct (is_sqlite_error e1); [|destruct (is_Exception e1)]; cbn [snd].
          + apply clean_app; [|repeat constructor].
            apply clean_app; [apply banner_clean | exact Hclean].
          + apply clean_app; [|repeat constructor].
            apply clean_app; [apply banner_clean | exact Hclean].
          + apply clean_app; [apply banner_clean | exact Hclean]. }
      destruct Hcase as [Hclean | (ev0 & c0 & e0 & -> & Hc0 & ->)]; [now destruct Hclean_run|].
      assert (Hsame : Called c (Some e) = Called c0 (Some e0)).
      { rewrite (run_unfold w db_path f Hfile) in Hin. unfold try_except in Hin.
        rewrite Hrep in Hin.
        assert (Hin' : In (Called c (Some e))
                         ((banner db_path ++ ev0) ++ [Called c0 (Some e0)]) \/
                       exists l, Called c (Some e) = Printed l).
        { destruct (is_sqlite_error e0); [|destruct (is_Exception e0)];
            cbn [snd on_database_error on_other_error print] in Hin.
          - rewrite app_assoc in Hin. apply in_app_or in Hin as [H|[H|[]]].
            + left. exact H.
            + right. eexists. symmetry. exact H.
          - rewrite app_assoc in Hin. apply in_app_or in Hin as [H|[H|[]]].
            + left. exact H.
            + right. eexists. symmetry. exact H.
          - left. now rewrite <- app_assoc. }
        destruct Hin' as [Hin'|(l & Hl)]; [|discriminate Hl].
        apply in_app_or in Hin' as [H|[H|[]]]; [|now symmetry].
        exfalso. apply (clean_not_failed (banner db_path ++ ev0) c e); [|exact H].
        apply clean_app; [apply banner_clean | exact Hc0]. }
      injection Hsame as <- <-.
      rewrite (exception_caught w db_path f e _ Hfile Hrep He). cbn [fst snd].
      split; [reflexivity|].
      exists (banner db_path ++ ev0). split.
      + apply clean_app; [apply banner_clean | exact Hc0].
      + rewrite <- !app_assoc. reflexivity.
    - exfalso. unfold run, query_colors_db in Hin. rewrite Hfile in Hin.
      destruct Hin as [H|[]]. discriminate H. }
  destruct Hmain as [Hok Htrace].
  repeat split; try assumption.
  - intros f e' t. apply exception_caught.
  - apply no_exception_escapes.
Qed.

Lemma C4_errors_caught_witness :
  fst (run (sample_world None no_fault) "colors.db") = Ok tt /\
  (exists before,
     clean before /\
     snd (run (sample_world None no_fault) "colors.db") =
       before ++ [Called (Execute Q_count_all)
                    (Some (Exn Sqlite3Error "no such table: dominant_colors"));
                  Printed (error_line (Exn Sqlite3Error "no such table: dominant_colors"))]) /\
  (is_sqlite_error (Exn Sqlite3Error "no such table: dominant_colors") = true ->
   error_line (Exn Sqlite3Error "no such table: dominant_colors") =
     "数据库错误: " ++ exn_msg (Exn Sqlite3Error "no such table: dominant_colors"))%string /\
  (is_sqlite_error (Exn Sqlite3Error "no such table: dominant_colors") = false ->
   error_line (Exn Sqlite3Error "no such table: dominant_colors") =
     "未知错误: " ++ exn_msg (Exn Sqlite3Error "no such table: dominant_colors"))%string /\
  (forall f e' t,
     fs (sample_world None no_fault) "colors.db" = Some f ->
     report (sample_world None no_fault) "colors.db" f (banner "colors.db") = (Raise e', t) ->
     is_Exception e' = true ->
     run (sample_world None no_fault) "colors.db" = (Ok tt, t ++ [Printed (error_line e')])) /\
  (forall e', fst (run (sample_world None no_fault) "colors.db") = Raise e' ->
              is_Exception e' = false).
Proof.
  apply (C4_errors_caught (sample_world None no_fault) "colors.db" (Execute Q_count_all)
           (Exn Sqlite3Error "no such table: dominant_colors")).
  - vm_compute. tauto.
  - reflexivity.
Defined.

(** C5, as the code has it.  The records selected are at most five, in
    descending order of [updated_at], and they come first in the whole table
    in that order (they are all of it when it has fewer than five rows);
    without the table none is selected.  Whatever the database holds and
    whichever calls fail, the records listed, each by its first line, are
    the first [j] of the selected ones, in that order, for some [j]: at most
    five records are listed.  When no call fails, the file has a size a
    file can have and every selected record is displayed without an
    exception, all the selected records are listed; every row of a table of
    fewer than five rows is listed then. *)
Theorem C5_recent_records (w : World) (db_path : string) (f : File) :
  fs w db_path = Some f ->
  let recent := recent_records (file_db f) in
  (List.length recent <= 5)%nat /\
  descending recent /\
  (forall rows, dominant_colors (file_db f) = Some rows ->
     (exists rest, Permutation rows (recent ++ rest) /\ descending (recent ++ rest)) /\
     ((List.length rows < 5)%nat -> Permutation rows recent)) /\
  (exists j, filter is_file_line (output w db_path) = map file_line (firstn j recent)) /\
  (List.length (filter is_file_line (output w db_path)) <= 5)%nat /\
  (calm w -> size_fits f -> forallb (well_formed w) recent = true ->
   filter is_file_line (output w db_path) = map file_line recent /\
   forall rows, dominant_colors (file_db f) = Some rows -> (List.length rows < 5)%nat ->
     forall r, In r rows -> In (file_line r) (output w db_path)).
Proof.
  intros Hfile recent.
  assert (Hlisted : exists j, filter is_file_line (output w db_path) =
                                map file_line (firstn j recent))
    by apply (run_lists w db_path f Hfile).
  assert (Hall : calm w -> size_fits f -> forallb (well_formed w) recent = true ->
                 filter is_file_line (output w db_path) = map file_line recent).
  { intros Hcalm Hsize Hwf. subst recent. unfold recent_records in *.
    destruct (dominant_colors (file_db f)) as [rows|] eqn:Hrows.
    - destruct (run_file_lines w db_path f rows Hfile Hcalm Hrows Hsize) as (j & Hl & Hj).
      rewrite (Hj Hwf), firstn_all in Hl. exact Hl.
    - destruct Hlisted as (j & Hl). rewrite Hl. now destruct j. }
  assert (Hlen : (List.length recent <= 5)%nat).
  { subst recent. unfold recent_records.
    destruct (dominant_colors (file_db f)) as [rows|]; [|simpl; lia].
    apply (SqlFacts.select_recent_spec rows). }
  split; [exact Hlen|].
  split; [|split; [|split; [exact Hlisted|split]]].
  - subst recent. unfold recent_records.
    destruct (dominant_colors (file_db f)) as [rows|]; [|constructor].
    apply (SqlFacts.select_recent_spec rows).
  - intros rows Hrows. subst recent. unfold recent_records. rewrite Hrows.
    split; [apply (SqlFacts.select_recent_spec rows) | apply SqlFacts.select_recent_all].
  - destruct Hlisted as (j & Hl). rewrite Hl, length_map.
    rewrite length_firstn. lia.
  - intros Hcalm Hsize Hwf. split; [now apply Hall|].
    intros rows Hrows Hfew r Hr.
    assert (Hin : In (file_line r) (filter is_file_line (output w db_path))).
    { rewrite (Hall Hcalm Hsize Hwf). apply in_map.
      subst recent. unfold recent_records. rewrite Hrows.
      eapply Permutation_in; [apply SqlFacts.select_recent_all|]; assumption. }
    apply filter_In in Hin. tauto.
Qed.

Lemma C5_recent_records_witness :
  recent_records (sample_db (Some three_rows)) = [row_b; row_a; row_c] /\
  descending [row_b; row_a; row_c] /\
  filter is_file_line (output (sample_world (Some three_rows) no_fault) "colors.db") =
    [nl ++ "  文件: b.png"; nl ++ "  文件: a.png"; nl ++ "  文件: c.png"]%string.
Proof.
  destruct (C5_recent_records (sample_world (Some three_rows) no_fault) "colors.db"
              (sample_file (Some three_rows)) eq_refl)
    as (_ & Hdesc & _ & _ & _ & Hall).
  split; [reflexivity|]. split; [exact Hdesc|].
  destruct (Hall (calm_no_fault _) (sample_size_fits _) eq_refl) as [Hlines _].
  exact Hlines.
Defined.

(** C5, as it is stated, fails: a table of one row whose creation time is
    missing has fewer than five rows, and its row is not listed. *)
Lemma C5_counterexample :
  (List.length [untimed_row] < 5)%nat /\
  ~ In (file_line untimed_row)
      (output (sample_world (Some [untimed_row]) no_fault) "colors.db").
Proof.
  split; [simpl; lia|].
  vm_compute. intros H.
  repeat (destruct H as [H|H]; [discriminate H|]).
  exact H.
Qed.

(** C6, as the code has it.  For a text that [json.loads] turns into a
    sequence and that is not the two characters of the empty array, the
    block prints the number of entries and then: nothing more when the
    sequence is empty; when the first entry is an object, its [hex] field,
    or [N/A] when it has none, unless that line cannot be written to
    standard output, in which case the raw-text line; the raw-text line
    when the first entry is not an object.  The text [[{"hex":"#FF0000"}]],
    when the interpreter's limits let it through, gives the count 1 and
    [#FF0000]; a value that is absent, and the text of the empty array, give
    the line for no colour data. *)
Theorem C6_color_sequence (w : World) (s : string) (entries : list Json.json) t :
  s <> "[]" -> Json.loads (json_limit w) (SqlText s) = Ok (Json.JList entries) ->
  show_colors w (SqlText s) t =
    (Ok tt,
     t ++ match entries with
          | [] => [Printed (count_line 0)]
          | Json.JDict entry :: rest =>
              [Printed (count_line (List.length entries));
               Printed (if has_surrogate (hex_line w entry)
                        then fallback_line s else hex_line w entry)]
          | _ :: rest =>
              [Printed (count_line (List.length entries)); Printed (fallback_line s)]
          end) /\
  (json_limit w (dq "[{'hex':'#FF0000'}]") = None ->
   show_colors w red t =
     (Ok tt, t ++ [Printed "  颜色数量: 1"; Printed "  主色调: #FF0000"])) /\
  (forall c, truthy c = false \/ c = SqlText "[]" ->
             show_colors w c t = (Ok tt, t ++ [Printed "  颜色数据: 无"])).
Proof.
  intros Hne Hv. split; [|split].
  - rewrite (show_colors_decoded w s _ t Hne Hv).
    destruct entries as [|[|b|z|x|x|l|entry] rest]; reflexivity.
  - intros Hlimit.
    apply (show_colors_decoded w _ (Json.JList [Json.JDict [("hex", Json.JStr "#FF0000")]]) t);
      [discriminate|].
    unfold Json.loads. rewrite Hlimit. reflexivity.
  - intros c [Hc | ->]; [now apply show_colors_absent | apply show_colors_empty_array].
Qed.

Lemma C6_color_sequence_witness :
  show_colors (sample_world None no_fault) (SqlText (dq "[{'name':'red'}, 7]")) [] =
    (Ok tt, [Printed "  颜色数量: 2"; Printed "  主色调: N/A"]) /\
  show_colors (sample_world None no_fault) red [] =
    (Ok tt, [Printed "  颜色数量: 1"; Printed "  主色调: #FF0000"]) /\
  (forall c, truthy c = false \/ c = SqlText "[]" ->
             show_colors (sample_world None no_fault) c [] =
               (Ok tt, [Printed "  颜色数据: 无"])).
Proof.
  destruct (C6_color_sequence (sample_world None no_fault) (dq "[{'name':'red'}, 7]")
              [Json.JDict [("name", Json.JStr "red")]; Json.JInt 7] [])
    as (H1 & H2 & H3).
  - discriminate.
  - reflexivity.
  - split; [exact H1|]. split; [exact (H2 eq_refl) | exact H3].
Defined.

(** C6, as it is stated, fails: the text [[1]] decodes to a sequence, and
    the block prints the count and the raw text, no line for the [hex]
    field or its placeholder. *)
Lemma C6_counterexample :
  Json.decode "[1]" = Ok (Json.JList [Json.JInt 1]) /\
  lines (events_of (show_colors (sample_world None no_fault) (SqlText "[1]"))) =
    ["  颜色数量: 1"; "  颜色数据: [1]..."]%string /\
  ~ (exists hex,
       In ("  主色调: " ++ hex)%string
         (lines (events_of (show_colors (sample_world None no_fault) (SqlText "[1]"))))).
Proof.
  split; [reflexivity|]. split; [reflexivity|].
  intros (hex & H). vm_compute in H.
  destruct H as [H|[H|[]]]; discriminate H.
Qed.

(** C7, as the code has it.  Take a database that answers every call, in a
    file of a size a file can have, and a recent record that the loop
    reaches (the records before it are displayed without an exception, and
    its own two times convert) whose colours are a text that is not empty,
    is not the text of the empty array and that [json.loads] does not
    accept.  The block prints the raw-text line, the first 50 characters of
    the text (all of it when it has no more) and the ellipsis, and ends
    without an exception.  The loop goes on with the records after it, and
    no exception leaves the run; when those records too are displayed
    without an exception, the run prints the success rate and closes the
    connection. *)
Theorem C7_malformed_colors (w : World) (db_path : string) (f : File)
    (rows pre post : list Row) (r : Row) (c u s : string) (e : exn) :
  fs w db_path = Some f -> calm w ->
  dominant_colors (file_db f) = Some rows -> size_fits f ->
  Sql.select_recent rows = pre ++ r :: post ->
  forallb (well_formed w) pre = true ->
  time_text w (created_at r) = Ok c -> time_text w (updated_at r) = Ok u ->
  colors r = SqlText s -> s <> "" -> s <> "[]" ->
  Json.loads (json_limit w) (SqlText s) = Raise e ->
  (exists rest, s = (py_prefix 50 s ++ rest)%string) /\
  py_len (py_prefix 50 s) = Nat.min 50 (py_len s) /\
  (forall t, show_colors w (colors r) t =
               (Ok tt, t ++ [Printed ("  颜色数据: " ++ py_prefix 50 s ++ "...")])) /\
  (exists tail,
     run w db_path =
       (Ok tt,
        banner db_path ++ preamble db_path f rows ++
        events_of (for_each pre (show_record w)) ++
        record_head r c u ++
        Printed ("  颜色数据: " ++ py_prefix 50 s ++ "...") ::
        events_of (for_each post (show_record w)) ++ tail) /\
     (forallb (well_formed w) post = true ->
      events_of (for_each post (show_record w)) =
        flat_map (fun r' => events_of (show_record w r')) post /\
      tail = rate_queries ++ [Printed (nl ++ "处理状态统计:")] ++ rate_lines rows ++
             [Called Close None])).
Proof.
  intros Hfile Hcalm Hrows Hsize Hsel Hpre Hc Hu Hcol Hs1 Hs2 He.
  assert (Hblock : forall t, show_colors w (colors r) t =
            (Ok tt, t ++ [Printed ("  颜色数据: " ++ py_prefix 50 s ++ "...")])).
  { intros t. rewrite Hcol. now apply (show_colors_not_loaded w s e). }
  split; [apply py_prefix_split|]. split; [apply py_prefix_len|].
  split; [exact Hblock|].
  assert (Hrec : forall t, show_record w r t =
            (Ok tt, t ++ (record_head r c u ++
                          [Printed ("  颜色数据: " ++ py_prefix 50 s ++ "...")]))).
  { intros t. rewrite (show_record_timed w r c u t Hc Hu), Hblock.
    now rewrite <- app_assoc. }
  destruct (loop_goes_on w pre post r _ Hpre Hrec) as [Hout Hev].
  assert (Hn : 0 < Sql.count_all rows).
  { apply select_recent_rows. rewrite Hsel. now destruct pre. }
  destruct (show_records_outcome w post) as [Hok | (e' & He' & Hord)].
  - exists (rate_queries ++ [Printed rates_header] ++ rate_lines rows ++
            [Called Close None]).
    split.
    + rewrite (run_complete w db_path f rows Hfile Hcalm Hrows Hsize)
        by (rewrite ?Hsel, ?Hout; assumption).
      rewrite Hsel, Hev. rewrite <- !app_assoc. reflexivity.
    + intros Hpost. split; [|reflexivity].
      apply (show_records_complete w post Hpost).
  - exists [Printed ("未知错误: " ++ exn_msg e')].
    split.
    + rewrite (run_loop_raises w db_path f rows Hfile Hcalm Hrows Hsize e')
        by (rewrite ?Hsel, ?Hout; assumption).
      rewrite Hsel, Hev. rewrite <- !app_assoc. reflexivity.
    + intros Hpost. destruct (show_records_complete w post Hpost) as [Hok _].
      rewrite Hok in He'. discriminate He'.
Qed.

Lemma C7_malformed_colors_witness :
  exists before_row after_row,
    run (sample_world (Some (handwritten_row :: three_rows)) no_fault) "colors.db" =
      (Ok tt,
       before_row ++
       [Printed (nl ++ "  文件: f.png");
        Printed "  状态: error";
        Printed "  创建时间: 2023-11-14 22:13:20";
        Printed "  更新时间: 2023-11-14 22:15:20";
        Printed "  颜色数据: 红色 #FF0000, 绿色 #00FF00, 蓝色 #0000FF: colours writte..."] ++
       after_row ++
       [Printed "  错误: 2 (50.0%)"; Called Close None]).
Proof.
  destruct (C7_malformed_colors
              (sample_world (Some (handwritten_row :: three_rows)) no_fault) "colors.db"
              (sample_file (Some (handwritten_row :: three_rows)))
              (handwritten_row :: three_rows) [row_b] [row_a; row_c] handwritten_row
              "2023-11-14 22:13:20" "2023-11-14 22:15:20" handwritten
              (Exn JSONDecodeError "Expecting value"))
    as (_ & _ & _ & tail & Hrun & Htail).
  - reflexivity.
  - apply calm_no_fault.
  - reflexivity.
  - apply sample_size_fits.
  - reflexivity.
  - reflexivity.
  - reflexivity.
  - reflexivity.
  - reflexivity.
  - discriminate.
  - discriminate.
  - reflexivity.
  - destruct (Htail eq_refl) as [Hpost ->].
    rewrite Hpost in Hrun.
    exists (banner "colors.db" ++
            preamble "colors.db" (sample_file (Some (handwritten_row :: three_rows)))
              (handwritten_row :: three_rows) ++
            events_of
              (for_each [row_b]
                 (show_record
                    (sample_world (Some (handwritten_row :: three_rows)) no_fault)))),
           (flat_map
              (fun r' =>
                 events_of
                   (show_record
                      (sample_world (Some (handwritten_row :: three_rows)) no_fault) r'))
              [row_a; row_c] ++
            rate_queries ++
            [Printed (nl ++ "处理状态统计:"); Printed "  已提取: 1 (25.0%)";
             Printed "  待处理: 1 (25.0%)"]).
    rewrite Hrun. vm_compute. reflexivity.
Defined.

(** C7, as it is stated, fails: the record of [c.png], whose colours are
    the text [not valid json], is one of the recent records of a table of
    four rows that answers every call; the report shows neither the line of
    its raw text nor the success rate, because a record that comes before it
    has no creation time and ends the report. *)
Lemma C7_counterexample :
  In row_c (Sql.select_recent (untimed_row :: three_rows)) /\
  colors row_c = SqlText "not valid json" /\
  (exists e, Json.loads (json_limit (sample_world (Some (untimed_row :: three_rows)) no_fault))
               (colors row_c) = Raise e) /\
  calm (sample_world (Some (untimed_row :: three_rows)) no_fault) /\
  ~ In "  颜色数据: not valid json..."%string
      (output (sample_world (Some (untimed_row :: three_rows)) no_fault) "colors.db") /\
  ~ In (nl ++ "处理状态统计:")%string
      (output (sample_world (Some (untimed_row :: three_rows)) no_fault) "colors.db").
Proof.
  split; [vm_compute; tauto|]. split; [reflexivity|].
  split; [eexists; reflexivity|]. split; [apply calm_no_fault|].
  split; vm_compute; intros H;
    repeat (destruct H as [H|H]; [discriminate H|]); exact H.
Qed.

(** C8, as the code has it.  The size is printed after the schema, the
    count of the records and the listing by status.  For a file that exists,
    of a size a file can have, whose database has the table
    [dominant_colors] and answers the calls made up to there (the
    connection, the queries of the schema, the count and the grouping), the
    run prints, after the listing by status, the line of the file size: the
    numeral of [n] hundredths with its two decimals, [n / 100] being the
    size divided by 1024 and rounded to two decimals, to the nearest and, of
    two that are as near, to the one whose last digit is even, for a size
    below [2^53]; beyond, where the float no longer holds the size exactly,
    within half a hundredth and [2^-49] of the size.  Whatever happens
    after that line, the line is printed. *)
Theorem C8_file_size (w : World) (db_path : string) (f : File) (rows : list Row) :
  fs w db_path = Some f ->
  dominant_colors (file_db f) = Some rows -> size_fits f ->
  (forall n, (n < 4 + List.length (tables (file_db f)))%nat -> fault w n = None) ->
  exists (n : Z) (after : trace),
    snd (run w db_path) =
      banner db_path ++ before_size db_path f rows ++
      Printed (nl ++ "数据库文件大小: " ++ decimal n 2 ++ " KB") :: after /\
    hundredths_of_kib n (file_size f).
Proof.
  intros Hfile Hrows Hsize Hf.
  destruct (run_until_size w db_path f rows Hfile Hrows Hsize Hf) as (after & Hrun).
  destruct (Numerals.kib_text_hundredths (file_size f) Hsize) as (n & Hn & Hh).
  exists n, after. rewrite <- Hn. split; [exact Hrun | exact Hh].
Qed.

Lemma C8_file_size_witness :
  exists after,
    snd (run (sized_world 1234567) "colors.db") =
      banner "colors.db" ++
      before_size "colors.db" (mkFile 1234567 (sample_db (Some three_rows))) three_rows ++
      Printed (nl ++ "数据库文件大小: 1205.63 KB") :: after.
Proof.
  destruct (C8_file_size (sized_world 1234567) "colors.db"
              (mkFile 1234567 (sample_db (Some three_rows))) three_rows)
    as (n & after & Hrun & _ & _ & Hn).
  - reflexivity.
  - reflexivity.
  - unfold size_fits. cbn [file_size]. split; [lia | reflexivity].
  - intros k _. reflexivity.
  - exists after. rewrite Hrun.
    destruct (Hn eq_refl) as [Hnear _]. cbn [file_size] in Hnear.
    assert (n = 120563) by lia. subst n. reflexivity.
Defined.

(** C8, as it is stated, fails: a file that exists and opens without error,
    but whose database has no table [dominant_colors], gets no line for its
    size; the count of the records raises before the size is read. *)
Lemma C8_counterexample :
  fs (sample_world None no_fault) "colors.db" = Some (sample_file None) /\
  In (Called (Connect "colors.db") None)
    (snd (run (sample_world None no_fault) "colors.db")) /\
  forallb (fun line => negb (starts_with (nl ++ "数据库文件大小") line))
    (output (sample_world None no_fault) "colors.db") = true.
Proof.
  split; [reflexivity|]. split; [|vm_compute; reflexivity].
  vm_compute. right. right. left. reflexivity.
Qed.

(** C9, as the code has it.  The raw-text line is the handler of every
    failure in the block.  For a text that [json.loads] accepts (and that is
    not the two characters of the empty array): a value without a length (a
    number, [true], [false], [null]) gives the raw-text line alone; an
    object or a string that is not empty, and an array whose first entry is
    not an object, give the count and then the raw-text line; an empty
    object and an empty string give the count 0 and no raw-text line.  The
    block ends without an exception each time, so the loop goes on.  The
    raw-text line shows the first 50 characters of the text, all of it when
    it has no more, and the ellipsis. *)
Theorem C9_fallback (w : World) (s : string) (v : Json.json) t :
  s <> "[]" -> Json.loads (json_limit w) (SqlText s) = Ok v ->
  (forall entry rest, v <> Json.JList (Json.JDict entry :: rest)) ->
  show_colors w (SqlText s) t =
    (Ok tt,
     t ++ match v with
          | Json.JNull | Json.JBool _ | Json.JInt _ | Json.JFloat _ =>
              [Printed (fallback_line s)]
          | Json.JStr x =>
              Printed (count_line (py_len x)) ::
              (if String.eqb x "" then [] else [Printed (fallback_line s)])
          | Json.JDict d =>
              Printed (count_line (List.length d)) ::
              match d with
              | [] => []
              | _ :: _ => [Printed (fallback_line s)]
              end
          | Json.JList [] => [Printed (count_line 0)]
          | Json.JList (_ :: rest) =>
              [Printed (count_line (S (List.length rest))); Printed (fallback_line s)]
          end) /\
  (exists shown rest,
     fallback_line s = ("  颜色数据: " ++ shown ++ "...")%string /\
     s = (shown ++ rest)%string /\
     py_len shown = Nat.min 50 (py_len s) /\
     ((py_len s <= 50)%nat -> shown = s)).
Proof.
  intros Hne Hv Hno. split.
  - rewrite (show_colors_decoded w s v t Hne Hv).
    destruct v as [|b|z|x|x|l|d]; try reflexivity.
    + simpl. destruct (String.eqb x ""); reflexivity.
    + destruct l as [|[|b|z|x|x|l'|entry] rest]; try reflexivity.
      exfalso. now apply (Hno entry rest).
    + destruct d; reflexivity.
  - destruct (py_prefix_split 50 s) as (rest & Hrest).
    exists (py_prefix 50 s), rest.
    split; [reflexivity|]. split; [exact Hrest|].
    split; [apply py_prefix_len | apply py_prefix_all].
Qed.

Lemma C9_fallback_witness :
  show_colors (sample_world None no_fault) (SqlText "42") [] =
    (Ok tt, [Printed "  颜色数据: 42..."]).
Proof.
  apply (C9_fallback (sample_world None no_fault) "42" (Json.JInt 42) []).
  - discriminate.
  - reflexivity.
  - discriminate.
Defined.

(** C9, as it is stated, fails: the text [{}] decodes to a value that is
    not a sequence, and the block prints the count 0 and no raw-text
    line. *)
Lemma C9_counterexample :
  Json.decode "{}" = Ok (Json.JDict []) /\
  lines (events_of (show_colors (sample_world None no_fault) (SqlText "{}"))) =
    ["  颜色数量: 0"]%string /\
  ~ In (fallback_line "{}")
      (lines (events_of (show_colors (sample_world None no_fault) (SqlText "{}")))).
Proof.
  split; [reflexivity|]. split; [reflexivity|].
  vm_compute. intros [H|[]]. discriminate H.
Qed.

(** C10. On a database that answers, when one of the recent records has a
    creation or update time that does not convert, the run ends with the
    message for unknown errors right after what the loop printed for the
    records before that one: no later record is listed and the success rate
    is not printed. *)
Theorem C10_bad_timestamp (w : World) (db_path : string) (f : File)
    (rows pre post : list Row) (bad : Row) :
  fs w db_path = Some f -> calm w ->
  dominant_colors (file_db f) = Some rows -> size_fits f ->
  Sql.select_recent rows = pre ++ bad :: post ->
  is_ok (time_text w (created_at bad)) && is_ok (time_text w (updated_at bad)) = false ->
  fst (run w db_path) = Ok tt /\
  (exists msg,
     snd (run w db_path) =
       banner db_path ++ preamble db_path f rows ++
       events_of (for_each pre (show_record w)) ++ [Printed ("未知错误: " ++ msg)]) /\
  (exists j, filter is_file_line (output w db_path) = map file_line (firstn j pre)) /\
  ~ In rates_header (output w db_path).
Proof.
  intros Hfile Hcalm Hrows Hsize Hrecent Hbad.
  destruct (show_records_bad_time w pre post bad Hbad) as ((e & He & Hord) & Hev).
  rewrite <- Hrecent in He, Hev.
  unfold output.
  rewrite (run_loop_raises w db_path f rows Hfile Hcalm Hrows Hsize e He Hord).
  rewrite Hev. cbn [fst snd].
  split; [reflexivity|]. split; [now exists (exn_msg e)|]. split.
  - destruct (show_records_file_lines w pre) as (j & Hl & _).
    exists j. rewrite !lines_app, !filter_app.
    rewrite (filter_plain _ (banner_plain db_path)).
    rewrite (filter_plain _ (preamble_plain db_path f rows)).
    rewrite Hl. cbn. now rewrite app_nil_r.
  - rewrite !lines_app. intros Hin.
    apply in_app_or in Hin as [Hin|Hin];
      [now apply (not_in_plain _ (banner_plain db_path))|].
    apply in_app_or in Hin as [Hin|Hin];
      [now apply (not_in_plain _ (preamble_plain db_path f rows))|].
    apply in_app_or in Hin as [Hin|Hin].
    + pose proof (show_records_lines w pre) as Hno.
      rewrite Forall_forall in Hno. now apply (Hno _ Hin).
    + destruct Hin as [Hin|[]]. discriminate Hin.
Qed.

Lemma C10_bad_timestamp_witness :
  fst (run (sample_world (Some (untimed_row :: three_rows)) no_fault) "colors.db") = Ok tt /\
  (exists msg,
     snd (run (sample_world (Some (untimed_row :: three_rows)) no_fault) "colors.db") =
       banner "colors.db" ++
       preamble "colors.db" (sample_file (Some (untimed_row :: three_rows)))
         (untimed_row :: three_rows) ++
       events_of (for_each [row_b] (show_record
                    (sample_world (Some (untimed_row :: three_rows)) no_fault))) ++
       [Printed ("未知错误: " ++ msg)]) /\
  (exists j,
     filter is_file_line
       (output (sample_world (Some (untimed_row :: three_rows)) no_fault) "colors.db") =
     map file_line (firstn j [row_b])) /\
  ~ In rates_header
      (output (sample_world (Some (untimed_row :: three_rows)) no_fault) "colors.db").
Proof.
  apply (C10_bad_timestamp (sample_world (Some (untimed_row :: three_rows)) no_fault)
           "colors.db" (sample_file (Some (untimed_row :: three_rows)))
           (untimed_row :: three_rows) [row_b] [row_a; row_c] untimed_row).
  - reflexivity.
  - apply calm_no_fault.
  - reflexivity.
  - apply sample_size_fits.
  - vm_compute. reflexivity.
  - reflexivity.
Defined.

(** * Further properties of the report *)

(** X1. The percentage of [E] records out of [N], with [0 <= E <= N] and
    [N > 0]: the field is the text of [n] tenths, for an integer [n] between
    0 and 1000 that is the exact [1000 * E / N] rounded to an integer, up to
    [2^-39] of a tenth.  The three roundings of the floats (the division,
    the product by 100 and the format) move the result by less than that. *)
Theorem percent_accuracy (E N : Z) :
  0 <= E <= N -> 0 < N ->
  exists n,
    percent E N = Ok (Float.fixed_text false n 1) /\
    0 <= n <= 1000 /\
    2 ^ 39 * Z.abs (n * N - 1000 * E) <= (2 ^ 38 + 1) * N.
Proof.
  intros HE HN.
  destruct (FloatError.percent_text_error E N HE HN) as (n & Hn & Herr).
  exists n. rewrite percent_ok by assumption. rewrite Hn.
  split; [reflexivity|]. split; [now apply (tenths_bounds n E N) | exact Herr].
Qed.

Lemma percent_accuracy_witness :
  exists n,
    percent 1 3 = Ok (Float.fixed_text false n 1) /\
    0 <= n <= 1000 /\
    2 ^ 39 * Z.abs (n * 3 - 1000 * 1) <= (2 ^ 38 + 1) * 3.
Proof. apply (percent_accuracy 1 3); lia. Defined.

(** X2. When all the [N > 0] records have one status, the line of that
    status shows [100.0], and the line of a status that no record has shows
    [0.0], whatever [N] is. *)
Theorem percent_extremes (N : Z) :
  0 < N -> percent N N = Ok "100.0"%string /\ percent 0 N = Ok "0.0"%string.
Proof.
  intros HN. split.
  - destruct (FloatError.percent_text_error N N ltac:(lia) HN) as (n & Hn & Herr).
    rewrite percent_ok by lia. rewrite Hn.
    replace n with 1000; [reflexivity|].
    change (2 ^ 39) with 549755813888 in Herr.
    change (2 ^ 38) with 274877906944 in Herr. nia.
  - destruct (FloatError.percent_text_error 0 N ltac:(lia) HN) as (n & Hn & Herr).
    rewrite percent_ok by lia. rewrite Hn.
    replace n with 0; [reflexivity|].
    change (2 ^ 39) with 549755813888 in Herr.
    change (2 ^ 38) with 274877906944 in Herr. nia.
Qed.

Lemma percent_extremes_witness :
  percent 7 7 = Ok "100.0"%string /\ percent 0 7 = Ok "0.0"%string.
Proof. apply (percent_extremes 7). lia. Defined.

(** X3. When every record has one of the three statuses ([E + P + R = N]
    and [N > 0]), the three percentages shown add up to 100.0 within one
    tenth: to 99.9, 100.0 or 100.1. *)
Theorem percentages_sum (E P R N : Z) :
  0 <= E -> 0 <= P -> 0 <= R -> E + P + R = N -> 0 < N ->
  exists e p r,
    percent E N = Ok (Float.fixed_text false e 1) /\
    percent P N = Ok (Float.fixed_text false p 1) /\
    percent R N = Ok (Float.fixed_text false r 1) /\
    999 <= e + p + r <= 1001.
Proof.
  intros HE HP HR Hsum HN.
  destruct (FloatError.percent_text_error E N ltac:(lia) HN) as (e & He & Herr_e).
  destruct (FloatError.percent_text_error P N ltac:(lia) HN) as (p & Hp & Herr_p).
  destruct (FloatError.percent_text_error R N ltac:(lia) HN) as (r & Hr & Herr_r).
  exists e, p, r. rewrite !percent_ok by lia. rewrite He, Hp, Hr.
  repeat (split; [reflexivity|]).
  change (2 ^ 39) with 549755813888 in *. change (2 ^ 38) with 274877906944 in *.
  assert (H : 549755813888 * Z.abs ((e + p + r) * N - 1000 * N)
              <= 3 * (274877906944 + 1) * N) by lia.
  replace ((e + p + r) * N - 1000 * N) with ((e + p + r - 1000) * N) in H by ring.
  rewrite Z.abs_mul, (Z.abs_eq N) in H by lia.
  assert (Z.abs (e + p + r - 1000) <= 1) by nia.
  lia.
Qed.

Lemma percentages_sum_witness :
  exists e p r,
    percent 1 3 = Ok (Float.fixed_text false e 1) /\
    percent 1 3 = Ok (Float.fixed_text false p 1) /\
    percent 1 3 = Ok (Float.fixed_text false r 1) /\
    999 <= e + p + r <= 1001.
Proof. apply (percentages_sum 1 1 1 3); lia. Defined.

(** X4. The database calls of a run on a file that exists, whatever the
    database answers and whichever calls fail: they are the first calls of
    one fixed sequence, the connection to the path given, the query of the
    tables, one [PRAGMA] per table in the order of the catalogue, the count,
    the grouping by status, the recent records, the three counts by status
    and the closing.  No call is made twice or out of this order, the
    connection is closed only when every other call has been made, and no
    connection is opened to another path. *)
Theorem calls_in_order (w : World) (db_path : string) (f : File) :
  fs w db_path = Some f ->
  (exists rest, full_script db_path (file_db f) = calls_made w db_path ++ rest) /\
  (In Close (calls_made w db_path) ->
   calls_made w db_path = full_script db_path (file_db f)) /\
  (forall path, In (Connect path) (calls_made w db_path) -> path = db_path).
Proof.
  intros Hfile. split; [now apply calls_prefix|]. split.
  - now apply close_means_complete.
  - intros path Hin. destruct (calls_prefix w db_path f Hfile) as (rest & Hrest).
    apply (connect_in_script db_path path (file_db f)).
    rewrite Hrest. apply in_or_app. now left.
Qed.

Lemma calls_in_order_witness :
  (exists rest,
     full_script "colors.db" (file_db (sample_file (Some three_rows))) =
       calls_made (sample_world (Some three_rows) no_fault) "colors.db" ++ rest) /\
  (In Close (calls_made (sample_world (Some three_rows) no_fault) "colors.db") ->
   calls_made (sample_world (Some three_rows) no_fault) "colors.db" =
     full_script "colors.db" (file_db (sample_file (Some three_rows)))) /\
  (forall path,
     In (Connect path) (calls_made (sample_world (Some three_rows) no_fault) "colors.db") ->
     path = "colors.db").
Proof.
  apply (calls_in_order (sample_world (Some three_rows) no_fault) "colors.db"
           (sample_file (Some three_rows))).
  reflexivity.
Defined.

(** X5. When the body of the [try] raises, and the exception is not one
    that the closing itself raised, the connection is never closed:
    [conn.close()] is the last statement of the body and no handler calls
    it. *)
Theorem connection_left_open (w : World) (db_path : string) (f : File)
    (e : exn) (t : trace) :
  fs w db_path = Some f ->
  report w db_path f (banner db_path) = (Raise e, t) ->
  (forall t0, t <> t0 ++ [Called Close (Some e)]) ->
  ~ In Close (calls_made w db_path).
Proof.
  intros Hfile Hr Hlast. rewrite (run_calls w db_path f Hfile), Hr. cbn [snd].
  rewrite report_stages in Hr. unfold bind in Hr.
  destruct (follows_stages w db_path f (banner db_path)) as (ev & Hev & H).
  destruct (stages w db_path f (banner db_path)) as [[[]|e'] t1]; cbn [fst snd] in Hev, H.
  - exfalso. unfold db in Hr.
    destruct (fault w (List.length (db_calls t1))) as [e0|]; [|discriminate Hr].
    injection Hr as <- <-. now apply (Hlast t1).
  - injection Hr as <- <-. subst t1.
    destruct H as (rest & Hrest).
    rewrite db_calls_app. simpl db_calls at 1. simpl app.
    intros Hin. apply (close_not_queried db_path (file_db f)).
    rewrite Hrest. apply in_or_app. now left.
Qed.

Lemma connection_left_open_witness :
  ~ In Close (calls_made (sample_world (Some []) no_fault) "colors.db").
Proof.
  apply (connection_left_open (sample_world (Some []) no_fault) "colors.db"
           (sample_file (Some [])) (Exn ZeroDivisionError "division by zero")
           (snd (report (sample_world (Some []) no_fault) "colors.db"
                   (sample_file (Some [])) (banner "colors.db")))).
  - reflexivity.
  - vm_compute. reflexivity.
  - intros t0 H. apply (f_equal (@rev event)) in H.
    rewrite rev_unit in H. vm_compute in H. discriminate H.
Defined.

(** X6. The schema listing.  When the file exists and the connection, the
    query of the tables and the [PRAGMA] of each table do not fail, the
    output starts with the two lines of the banner, the header of the
    listing and, for each table in the order of the catalogue, the line of
    its name followed by one line per column, with the name and the type of
    the column; whatever happens later in the run. *)
Theorem schema_listed (w : World) (db_path : string) (f : File) :
  fs w db_path = Some f ->
  NoDup (map table_name (tables (file_db f))) ->
  (forall n, (n < 2 + List.length (tables (file_db f)))%nat -> fault w n = None) ->
  exists rest,
    output w db_path = lines (banner db_path) ++ schema_lines (file_db f) ++ rest.
Proof.
  intros Hfile Hnd Hf. unfold output.
  destruct (run_extends w db_path f Hfile) as (tail & ->).
  rewrite (report_until_schema w db_path f Hf).
  destruct (careful_after_schema w f
              (banner db_path ++ Called (Connect db_path) None
                 :: schema_events (file_db f))) as (ev & -> & _).
  exists (lines ev ++ lines tail).
  rewrite !lines_app. cbn [lines]. rewrite (schema_events_lines _ Hnd).
  rewrite <- !app_assoc. reflexivity.
Qed.

Lemma schema_listed_witness :
  exists rest,
    output (sample_world (Some three_rows) locked_after_schema) "colors.db" =
      lines (banner "colors.db") ++
      schema_lines (file_db (sample_file (Some three_rows))) ++ rest.
Proof.
  apply (schema_listed (sample_world (Some three_rows) locked_after_schema) "colors.db"
           (sample_file (Some three_rows))).
  - reflexivity.
  - constructor; [intros [] | constructor].
  - intros n Hn. simpl in Hn.
    destruct n as [|[|[|n]]]; try reflexivity. lia.
Defined.

(** X7. A database without the table [dominant_colors].  When the calls up
    to the count of the records do not fail for another reason, the run
    prints the banner and the schema listing, the count raises
    [no such table], and the run ends with the database-error line for it:
    nothing else is printed, no other query is made and the connection is
    not closed. *)
Theorem missing_table (w : World) (db_path : string) (f : File) :
  fs w db_path = Some f ->
  dominant_colors (file_db f) = None ->
  (forall n, (n < 3 + List.length (tables (file_db f)))%nat -> fault w n = None) ->
  run w db_path =
    (Ok tt,
     banner db_path ++ Called (Connect db_path) None :: schema_events (file_db f) ++
     [Called (Execute Q_count_all)
        (Some (Exn Sqlite3Error "no such table: dominant_colors"));
      Printed "数据库错误: no such table: dominant_colors"]).
Proof.
  intros Hfile Hnone Hf.
  rewrite (run_unfold w db_path f Hfile). unfold try_except.
  rewrite report_until_schema by (intros n Hn; apply Hf; lia).
  unfold after_schema, count_records.
  rewrite bind_assoc.
  erewrite bind_raise; cycle 1.
  { rewrite db_at.
    - unfold select, table_rows. rewrite Hnone. reflexivity.
    - apply Hf. rewrite db_calls_app, length_app.
      change (db_calls (banner db_path)) with (@nil db_call).
      cbn [db_calls List.length]. rewrite db_calls_schema. lia. }
  cbv beta iota delta [is_sqlite_error exn_cls on_database_error print exn_msg raised].
  f_equal. rewrite <- !app_assoc. reflexivity.
Qed.

Lemma missing_table_witness :
  run (sample_world None no_fault) "colors.db" =
    (Ok tt,
     banner "colors.db" ++ Called (Connect "colors.db") None ::
     schema_events (file_db (sample_file None)) ++
     [Called (Execute Q_count_all)
        (Some (Exn Sqlite3Error "no such table: dominant_colors"));
      Printed "数据库错误: no such table: dominant_colors"]).
Proof.
  apply (missing_table (sample_world None no_fault) "colors.db" (sample_file None)).
  - reflexivity.
  - reflexivity.
  - intros n _. reflexivity.
Defined.

(** X8. The listing by status.  When the query does not fail, the section
    prints its header and one line per status that occurs in the table, in
    ascending order of the statuses, each status once, with a number that is
    at least 1; the number listed for a status is the number of records that
    have it, and the numbers add up to the total number of records. *)
Theorem status_listing (w : World) (d : Database) (rows : list Row) t :
  dominant_colors d = Some rows ->
  fault w (List.length (db_calls t)) = None ->
  let groups := Sql.group_by_status rows in
  count_by_status w d t =
    (Ok tt,
     t ++ Called (Execute Q_group_by_status) None :: Printed (nl ++ "按状态统计:") ::
          map (fun '(st, count) =>
                 Printed ("  - " ++ py_str st ++ ": " ++ str_of_Z count ++ " 个文件"))
            groups) /\
  ascending groups /\
  Forall (fun g => 1 <= snd g) groups /\
  listed_total groups = Sql.count_all rows /\
  (forall v, listed v groups =
             Z.of_nat (List.length (filter (fun r => Sql.eqb (status r) v) rows))).
Proof.
  intros Hrows Hf groups. split; [|split; [|split; [|split]]].
  - unfold count_by_status.
    erewrite bind_ok; cycle 1.
    { rewrite db_at by exact Hf. unfold select, table_rows. rewrite Hrows. reflexivity. }
    rewrite bind_print, for_each_status_lines.
    simpl raised. rewrite <- !app_assoc. reflexivity.
  - apply GroupFacts.group_by_status_ascending.
  - apply GroupFacts.group_by_status_positive.
  - apply GroupFacts.group_by_status_total.
  - intros v. apply GroupFacts.group_by_status_listed.
Qed.

Lemma status_listing_witness :
  count_by_status (sample_world (Some three_rows) no_fault)
    (sample_db (Some three_rows)) [] =
    (Ok tt,
     [] ++ Called (Execute Q_group_by_status) None :: Printed (nl ++ "按状态统计:") ::
           map (fun '(st, count) =>
                  Printed ("  - " ++ py_str st ++ ": " ++ str_of_Z count ++ " 个文件"))
             (Sql.group_by_status three_rows)) /\
  ascending (Sql.group_by_status three_rows) /\
  Forall (fun g => 1 <= snd g) (Sql.group_by_status three_rows) /\
  listed_total (Sql.group_by_status three_rows) = Sql.count_all three_rows /\
  (forall v, listed v (Sql.group_by_status three_rows) =
             Z.of_nat (List.length (filter (fun r => Sql.eqb (status r) v) three_rows))).
Proof.
  apply (status_listing (sample_world (Some three_rows) no_fault)
           (sample_db (Some three_rows)) three_rows []).
  - reflexivity.
  - reflexivity.
Defined.

(** X9. The three counts of the success rate are the numbers the listing by
    status gives for [extracted], [pending] and [error], zero for a status
    that is not listed.  Their sum is at most the total, and it is the total
    exactly when every record has one of the three statuses: a record with
    another status, or with none, counts in the total and in none of the
    three. *)
Theorem rates_against_listing (rows : list Row) :
  let E := Sql.count_status "extracted" rows in
  let P := Sql.count_status "pending" rows in
  let R := Sql.count_status "error" rows in
  let groups := Sql.group_by_status rows in
  E = listed (SqlText "extracted") groups /\
  P = listed (SqlText "pending") groups /\
  R = listed (SqlText "error") groups /\
  E + P + R <= Sql.count_all rows /\
  (E + P + R = Sql.count_all rows <->
   forallb (fun r => is_known_status (status r)) rows = true).
Proof.
  cbv zeta. rewrite !GroupFacts.group_by_status_listed.
  split; [reflexivity|]. split; [reflexivity|]. split; [reflexivity|].
  rewrite GroupFacts.known_counts. unfold Sql.count_all.
  pose proof (filter_length_le (fun r => is_known_status (status r)) rows) as Hle.
  split; [lia|].
  rewrite <- GroupFacts.filter_all. lia.
Qed.

(** X10. The fallback line of a text that does not decode shows the first
    50 characters of the text, counted in code points, followed by the
    ellipsis: a text of at most 50 characters is shown whole, and is still
    followed by the ellipsis. *)
Theorem fallback_text (w : World) (s : string) (e : exn) t :
  s <> "" -> s <> "[]" -> Json.decode s = Raise e ->
  exists shown rest,
    show_colors w (SqlText s) t =
      (Ok tt, t ++ [Printed ("  颜色数据: " ++ shown ++ "...")]) /\
    s = (shown ++ rest)%string /\
    py_len shown = Nat.min 50 (py_len s) /\
    ((py_len s <= 50)%nat -> shown = s).
Proof.
  intros H1 H2 He.
  destruct (py_prefix_split 50 s) as (rest & Hrest).
  exists (py_prefix 50 s), rest.
  split; [now apply (show_colors_malformed w s e)|].
  split; [exact Hrest|]. split; [apply py_prefix_len | apply py_prefix_all].
Qed.

Lemma fallback_text_witness :
  exists shown rest,
    show_colors (sample_world None no_fault) (SqlText "not valid json") [] =
      (Ok tt, [] ++ [Printed ("  颜色数据: " ++ shown ++ "...")]) /\
    "not valid json"%string = (shown ++ rest)%string /\
    py_len shown = Nat.min 50 (py_len "not valid json") /\
    ((py_len "not valid json" <= 50)%nat -> shown = "not valid json"%string).
Proof.
  apply (fallback_text (sample_world None no_fault) "not valid json"
           (Exn JSONDecodeError "Expecting value") []).
  - discriminate.
  - discriminate.
  - reflexivity.
Defined.

(** X11. A recent record whose colours are a number other than zero ends
    the report: [json.loads] refuses the number, the handler of the block
    slices it and raises in turn, and that exception leaves the loop.  After
    the four lines of the record the run prints the unknown-error line; the
    later records, the success rate and the closing are skipped. *)
Theorem numeric_colors_abort (w : World) (db_path : string) (f : File)
    (rows pre post : list Row) (bad : Row) (c u : string) (z : Z) :
  fs w db_path = Some f -> calm w ->
  dominant_colors (file_db f) = Some rows -> size_fits f ->
  Sql.select_recent rows = pre ++ bad :: post ->
  forallb (well_formed w) pre = true ->
  time_text w (created_at bad) = Ok c -> time_text w (updated_at bad) = Ok u ->
  colors bad = SqlInt z -> z <> 0 ->
  run w db_path =
    (Ok tt,
     banner db_path ++ preamble db_path f rows ++
     events_of (for_each pre (show_record w)) ++ record_head bad c u ++
     [Printed "未知错误: 'int' object is not subscriptable"]).
Proof.
  intros Hfile Hcalm Hrows Hsize Hsel Hpre Hc Hu Hz Hne.
  destruct (loop_stops w pre post bad
              (Exn TypeError "'int' object is not subscriptable")
              (record_head bad c u) Hpre) as [Ho He].
  { intros t. now apply (show_record_number w bad c u z). }
  rewrite <- Hsel in Ho, He.
  rewrite (run_loop_raises w db_path f rows Hfile Hcalm Hrows Hsize _ Ho eq_refl).
  rewrite He. rewrite <- !app_assoc. reflexivity.
Qed.

Lemma numeric_colors_abort_witness :
  run (sample_world (Some (numbered_row :: three_rows)) no_fault) "colors.db" =
    (Ok tt,
     banner "colors.db" ++
     preamble "colors.db" (sample_file (Some (numbered_row :: three_rows)))
       (numbered_row :: three_rows) ++
     events_of (for_each [row_b]
                  (show_record (sample_world (Some (numbered_row :: three_rows)) no_fault))) ++
     record_head numbered_row "2023-11-14 22:13:20" "2023-11-14 22:15:50" ++
     [Printed "未知错误: 'int' object is not subscriptable"]).
Proof.
  apply (numeric_colors_abort (sample_world (Some (numbered_row :: three_rows)) no_fault)
           "colors.db" (sample_file (Some (numbered_row :: three_rows)))
           (numbered_row :: three_rows) [row_b] [row_a; row_c] numbered_row
           "2023-11-14 22:13:20" "2023-11-14 22:15:50" 7).
  - reflexivity.
  - apply calm_no_fault.
  - reflexivity.
  - apply sample_size_fits.
  - vm_compute. reflexivity.
  - vm_compute. reflexivity.
  - vm_compute. reflexivity.
  - vm_compute. reflexivity.
  - reflexivity.
  - discriminate.
Defined.

(** X12. On a database that answers, the report runs to its end, and the
    connection is closed, exactly when the table has at least one row and
    every recent record can be displayed: both its times convert and its
    colours are not a number other than zero.  Otherwise the run ends with
    an unknown-error line and the connection is left open. *)
Theorem report_completes_iff (w : World) (db_path : string) (f : File) (rows : list Row) :
  fs w db_path = Some f -> calm w ->
  dominant_colors (file_db f) = Some rows -> size_fits f ->
  (In Close (calls_made w db_path) <->
   rows <> [] /\ forallb (well_formed w) (Sql.select_recent rows) = true) /\
  (~ In Close (calls_made w db_path) ->
   exists t msg, snd (run w db_path) = t ++ [Printed ("未知错误: " ++ msg)]).
Proof.
  intros Hfile Hcalm Hrows Hsize.
  assert (Hcases :
    (rows <> [] /\ forallb (well_formed w) (Sql.select_recent rows) = true /\
     In Close (calls_made w db_path)) \/
    ((rows = [] \/ forallb (well_formed w) (Sql.select_recent rows) = false) /\
     List.length (calls_made w db_path) < 9 + List.length (tables (file_db f)) /\
     exists t msg, snd (run w db_path) = t ++ [Printed ("未知错误: " ++ msg)])%nat).
  { destruct (forallb (well_formed w) (Sql.select_recent rows)) eqn:Hwf.
    - destruct rows as [|r rows'] eqn:E.
      + right. split; [now left|]. unfold calls_made.
        rewrite (run_empty w db_path f [] Hfile Hcalm Hrows Hsize eq_refl). cbn [snd].
        split.
        * rewrite !db_calls_app, !length_app, db_calls_preamble. simpl. lia.
        * exists (banner db_path ++ preamble db_path f [] ++ rate_queries ++
                  [Printed rates_header]), "division by zero".
          rewrite <- !app_assoc. reflexivity.
      + left. rewrite <- E in *. split; [subst rows; discriminate|].
        split; [reflexivity|].
        destruct (show_records_complete w _ Hwf) as [Hok _].
        unfold calls_made.
        rewrite (run_complete w db_path f rows Hfile Hcalm Hrows Hsize Hok)
          by (subst rows; unfold Sql.count_all; simpl List.length; lia).
        cbn [snd]. apply (in_db_calls Close None).
        do 6 (apply in_or_app; right). now left.
    - right. split; [now right|].
      destruct (loop_raises_if w _ Hwf) as (e & He).
      destruct (show_records_outcome w (Sql.select_recent rows))
        as [Hok | (e' & He' & Hord)]; [congruence|].
      unfold calls_made.
      rewrite (run_loop_raises w db_path f rows Hfile Hcalm Hrows Hsize e' He' Hord).
      cbn [snd]. split.
      + rewrite !db_calls_app, !length_app, db_calls_preamble.
        rewrite (db_calls_quiet _ (quiet_for_each _ _ (quiet_show_record w))).
        simpl. lia.
      + exists (banner db_path ++ preamble db_path f rows ++
                events_of (for_each (Sql.select_recent rows) (show_record w))),
               (exn_msg e').
        rewrite <- !app_assoc. reflexivity. }
  split; [split|].
  - intros Hin. destruct Hcases as [(H1 & H2 & _) | (_ & Hlen & _)]; [now split|].
    exfalso. rewrite (close_means_complete w db_path f Hfile Hin) in Hlen.
    rewrite full_script_length in Hlen. lia.
  - intros [Hne Hwf]. destruct Hcases as [(_ & _ & H) | ([H|H] & _)];
      [exact H | contradiction | congruence].
  - intros Hno. destruct Hcases as [(_ & _ & H) | (_ & _ & H)]; [contradiction | exact H].
Qed.

Lemma report_completes_iff_witness :
  (In Close (calls_made (sample_world (Some three_rows) no_fault) "colors.db") <->
   three_rows <> [] /\
   forallb (well_formed (sample_world (Some three_rows) no_fault))
     (Sql.select_recent three_rows) = true) /\
  (~ In Close (calls_made (sample_world (Some three_rows) no_fault) "colors.db") ->
   exists t msg,
     snd (run (sample_world (Some three_rows) no_fault) "colors.db") =
       t ++ [Printed ("未知错误: " ++ msg)]).
Proof.
  apply (report_completes_iff (sample_world (Some three_rows) no_fault) "colors.db"
           (sample_file (Some three_rows)) three_rows).
  - reflexivity.
  - apply calm_no_fault.
  - reflexivity.
  - apply sample_size_fits.
Defined.

(** X13. An exception that is not of class [Exception], an interrupt, raised
    by a database call is caught by neither handler: it leaves the function
    right after the call, and no error line is printed. *)
Theorem interrupt_propagates (w : World) (db_path : string) (c : db_call) (e : exn) :
  In (Called c (Some e)) (snd (run w db_path)) -> is_Exception e = false ->
  exists before,
    clean before /\
    run w db_path = (Raise e, before ++ [Called c (Some e)]).
Proof.
  intros Hin He.
  destruct (failed_call_last w db_path c e Hin) as (f & ev0 & Hfile & Hclean & Hrep).
  exists (banner db_path ++ ev0). split.
  - apply clean_app; [apply banner_clean | exact Hclean].
  - rewrite (run_unfold w db_path f Hfile). unfold try_except. rewrite Hrep, He.
    replace (is_sqlite_error e) with false.
    + now rewrite <- app_assoc.
    + unfold is_sqlite_error, is_Exception in *. destruct (exn_cls e); congruence.
Qed.

Lemma interrupt_propagates_witness :
  exists before,
    clean before /\
    run (sample_world (Some three_rows) interrupted) "colors.db" =
      (Raise (Exn KeyboardInterrupt "interrupted"),
       before ++ [Called (Execute Q_tables) (Some (Exn KeyboardInterrupt "interrupted"))]).
Proof.
  apply (interrupt_propagates (sample_world (Some three_rows) interrupted) "colors.db"
           (Execute Q_tables) (Exn KeyboardInterrupt "interrupted")).
  - vm_compute. tauto.
  - reflexivity.
Defined.

(** X14. Run as a program, the script reports on the one path it names: the
    first line it prints names that path, as missing or as the database
    being queried, and every connection it opens is to that path. *)
Theorem main_one_path (w : World) :
  (exists rest,
     lines (snd (main w [])) =
       (match fs w default_db_path with
        | Some _ => "正在查询数据库: "
        | None => "数据库文件不存在: "
        end ++ default_db_path)%string :: rest) /\
  (forall path, In (Connect path) (db_calls (snd (main w []))) -> path = default_db_path).
Proof.
  unfold main.
  change (query_colors_db w default_db_path []) with (run w default_db_path).
  destruct (fs w default_db_path) as [f|] eqn:Hfile.
  - split.
    + destruct (run_extends w default_db_path f Hfile) as (tail & ->).
      destruct (careful_report w default_db_path f (banner default_db_path))
        as (ev & -> & _).
      rewrite !lines_app. cbn [banner lines app]. eexists. reflexivity.
    + intros path Hin.
      destruct (calls_prefix w default_db_path f Hfile) as (rest & Hrest).
      apply (connect_in_script default_db_path path (file_db f)).
      rewrite Hrest. apply in_or_app. left. exact Hin.
  - unfold run, query_colors_db. rewrite Hfile.
    split; [exists []; reflexivity | intros path []].
Qed.
